(** * Webhook delivery service: task lifecycle engine

    A shallow embedding of the Go packages [backoff], [ratelimit], [queue],
    [worker] and [platform] and of the two entry points [cmd/api] and
    [cmd/worker], followed by the properties of the task lifecycle that the
    design document states and by further properties of the code.

    Conventions.
    - A Go [string] is a Rocq [string]: a sequence of bytes.
    - A Go [int], [int64] or [time.Duration] is a [Z]; a [float64] is a
      primitive binary64 [float].
    - The shared store (Valkey) is an explicit value threaded through every
      operation, together with the outcome of each command sent to it. *)

From Stdlib Require Import ZArith Floats Ascii String DecimalString DecimalZ DecimalPos.
From stdpp Require Import gmap strings list.

Local Open Scope Z_scope.

(** String concatenation computes on a literal prefix. *)
#[local] Arguments String.append : simpl nomatch.

(** ** Package backoff *)

Module backoff.

(** Conversions between [int64] and [float64].  [float64(n)] rounds to the
    nearest representable value. *)
Definition float64_of_int (n : Z) : float :=
  SF2Prim (binary_normalize prec emax n 0 false).

(** The integer part of a finite float, truncated towards zero. *)
Definition trunc_float (f : float) : option Z :=
  match Prim2SF f with
  | S754_zero _ => Some 0
  | S754_finite s m e =>
      let a := if 0 <=? e then Z.shiftl (Z.pos m) e else Z.shiftr (Z.pos m) (- e) in
      Some (if s then - a else a)
  | S754_infinity _ | S754_nan => None
  end.

Definition min_int64 : Z := - 2 ^ 63.
Definition max_int64 : Z := 2 ^ 63 - 1.

(** Go leaves the result of converting a float to an integer type that
    cannot represent it to the implementation.  [Arch] carries that
    choice. *)
Record Arch := { out_of_range : float -> Z }.

(** amd64: CVTTSD2SQ yields the "integer indefinite" value. *)
Definition amd64 : Arch := {| out_of_range := fun _ => min_int64 |}.

(** arm64: FCVTZS saturates, and maps NaN to zero. *)
Definition arm64 : Arch :=
  {| out_of_range := fun f =>
       if PrimFloat.is_nan f then 0
       else if PrimFloat.ltb f PrimFloat.zero then min_int64 else max_int64 |}.

(** [int64(f)], in particular [time.Duration(f)]. *)
Definition int64_of_float (arch : Arch) (f : float) : Z :=
  match trunc_float f with
  | Some v => if (min_int64 <=? v) && (v <=? max_int64) then v else out_of_range arch f
  | None => out_of_range arch f
  end.

(** The squaring loop of [math.Pow]: [i] is the integer part of the
    exponent, consumed bit by bit ([i & 1], [i >>= 1]); the running result
    is [a1 * 2^ae], the running power is [x1 * 2^xe]. *)
Fixpoint pow_loop (i : positive) (a1 : float) (ae : Z) (x1 : float) (xe : Z)
  : float * Z :=
  if (xe <? - 4096) || (4096 <? xe) then (a1, ae + xe)
  else
    let odd := match i with xO _ => false | _ => true end in
    let a1' := if odd then PrimFloat.mul a1 x1 else a1 in
    let ae' := if odd then ae + xe else ae in
    let x2 := PrimFloat.mul x1 x1 in
    let xe2 := 2 * xe in
    let '(x1', xe') :=
      if PrimFloat.ltb x2 0.5%float then (PrimFloat.add x2 x2, xe2 - 1) else (x2, xe2) in
    match i with
    | xH => (a1', ae')
    | xO i' | xI i' => pow_loop i' a1' ae' x1' xe'
    end.

Definition is_odd_int (n : Z) : bool := (Z.abs n <? 2 ^ 53) && Z.odd n.

(** [math.Pow(x, float64(n))] for an integral exponent, after the portable
    implementation of Go's [math] package: the special cases first, then
    the squaring loop on the [Frexp] decomposition of [x].  The branch
    through [Exp] and [Log] is only taken for a fractional exponent, which
    [float64(retryCount)] never is. *)
Definition Pow (x : float) (n : Z) : float :=
  let y := float64_of_int n in
  let yz := match trunc_float y with Some v => v | None => 0 end in
  if (yz =? 0) || PrimFloat.eqb x 1%float then 1%float
  else if yz =? 1 then x
  else if PrimFloat.is_nan x then PrimFloat.nan
  else if PrimFloat.eqb x 0%float then
    if yz <? 0 then
      if PrimFloat.get_sign x && is_odd_int yz then PrimFloat.neg_infinity
      else PrimFloat.infinity
    else if PrimFloat.get_sign x && is_odd_int yz then x else 0%float
  else if PrimFloat.is_infinity x then
    if PrimFloat.get_sign x then
      (* Pow(1/x, -y) with 1/x = -0 *)
      if 0 <? yz then
        if is_odd_int yz then PrimFloat.neg_infinity else PrimFloat.infinity
      else if is_odd_int yz then PrimFloat.neg_zero else 0%float
    else if yz <? 0 then 0%float else PrimFloat.infinity
  else if 2 ^ 63 <=? Z.abs yz then
    if PrimFloat.eqb x (-1)%float then 1%float
    else if Bool.eqb (PrimFloat.ltb (PrimFloat.abs x) 1%float) (0 <? yz) then 0%float
    else PrimFloat.infinity
  else
    let '(x1, xe) := Z.frexp x in
    let '(a1, ae) := pow_loop (Z.to_pos (Z.abs yz)) 1%float 0 x1 xe in
    if yz <? 0 then Z.ldexp (PrimFloat.div 1%float a1) (- ae) else Z.ldexp a1 ae.

(** The strategy interface: one method. *)
Class Strategy (S : Type) := { GetNextInterval : S -> Z -> Z }.

Record ExponentialStrategy := {
  Base : Z;        (* starting wait time, in nanoseconds *)
  Factor : float;  (* multiplier *)
  Max : Z          (* cap, in nanoseconds *)
}.

Definition NewExponentialStrategy (base : Z) (factor : float) (max : Z) :=
  {| Base := base; Factor := factor; Max := max |}.

(** [Base * Factor ^ retryCount], converted back to a duration and then
    compared with [Max]. *)
Definition exponential_GetNextInterval (arch : Arch) (s : ExponentialStrategy)
    (retryCount : Z) : Z :=
  let multiplier := Pow (Factor s) retryCount in
  let interval := int64_of_float arch (PrimFloat.mul (float64_of_int (Base s)) multiplier) in
  if Max s <? interval then Max s else interval.

#[export] Instance exponential_strategy (arch : Arch) : Strategy ExponentialStrategy :=
  {| GetNextInterval := exponential_GetNextInterval arch |}.

End backoff.

(** Durations, in nanoseconds. *)
Definition Second : Z := 1000000000.
Definition Hour : Z := 3600 * Second.

(** The strategy that [cmd/worker] installs. *)
Definition retryStrategy : backoff.ExponentialStrategy :=
  backoff.NewExponentialStrategy (1 * Second) 2%float (1 * Hour).

(** ** Bytes and strings *)

Definition byte_val (c : ascii) : Z := Z.of_N (N_of_ascii c).
Definition chr (b : Z) : ascii := ascii_of_N (Z.to_N b).

Definition quote : ascii := "034"%char.
Definition backslash : ascii := "092"%char.
Definition str1 (c : ascii) : string := String c EmptyString.

(** ** Package unicode/utf8 and unicode/utf16, as far as encoding/json uses
    them *)

Module utf8.

Definition RuneError : Z := 0xFFFD.
Definition RuneSelf : Z := 0x80.

Definition between (lo hi b : Z) : bool := (lo <=? b) && (b <=? hi).
Definition cont (b : Z) : bool := between 0x80 0xBF b.

(** The rune held by a two-, three- or four-byte sequence. *)
Definition rune2 (b0 b1 : Z) : Z :=
  Z.lor (Z.shiftl (Z.land b0 0x1F) 6) (Z.land b1 0x3F).
Definition rune3 (b0 b1 b2 : Z) : Z :=
  Z.lor (Z.shiftl (Z.land b0 0x0F) 12) (Z.lor (Z.shiftl (Z.land b1 0x3F) 6) (Z.land b2 0x3F)).
Definition rune4 (b0 b1 b2 b3 : Z) : Z :=
  Z.lor (Z.shiftl (Z.land b0 0x07) 18)
    (Z.lor (Z.shiftl (Z.land b1 0x3F) 12)
       (Z.lor (Z.shiftl (Z.land b2 0x3F) 6) (Z.land b3 0x3F))).

(** The values accepted for the second byte after the lead byte [b0]. *)
Definition second_lo (b0 : Z) : Z :=
  if b0 =? 0xE0 then 0xA0 else if b0 =? 0xF0 then 0x90 else 0x80.
Definition second_hi (b0 : Z) : Z :=
  if b0 =? 0xED then 0x9F else if b0 =? 0xF4 then 0x8F else 0xBF.

(** [DecodeRuneInString]: the first rune of [s] and its width in bytes; an
    invalid or truncated encoding yields [(RuneError, 1)], the empty string
    [(RuneError, 0)]. *)
Definition DecodeRune (s : string) : Z * nat :=
  match s with
  | EmptyString => (RuneError, 0%nat)
  | String c0 s1 =>
      let b0 := byte_val c0 in
      if b0 <? RuneSelf then (b0, 1%nat)
      else if between 0xC2 0xDF b0 then
        match s1 with
        | String c1 _ =>
            if cont (byte_val c1) then (rune2 b0 (byte_val c1), 2%nat)
            else (RuneError, 1%nat)
        | _ => (RuneError, 1%nat)
        end
      else if between 0xE0 0xEF b0 then
        match s1 with
        | String c1 (String c2 _) =>
            if between (second_lo b0) (second_hi b0) (byte_val c1) && cont (byte_val c2)
            then (rune3 b0 (byte_val c1) (byte_val c2), 3%nat)
            else (RuneError, 1%nat)
        | _ => (RuneError, 1%nat)
        end
      else if between 0xF0 0xF4 b0 then
        match s1 with
        | String c1 (String c2 (String c3 _)) =>
            if between (second_lo b0) (second_hi b0) (byte_val c1)
               && cont (byte_val c2) && cont (byte_val c3)
            then (rune4 b0 (byte_val c1) (byte_val c2) (byte_val c3), 4%nat)
            else (RuneError, 1%nat)
        | _ => (RuneError, 1%nat)
        end
      else (RuneError, 1%nat)
  end.

Definition enc3 (r : Z) : string :=
  String (chr (Z.lor 0xE0 (Z.shiftr r 12)))
    (String (chr (Z.lor 0x80 (Z.land (Z.shiftr r 6) 0x3F)))
       (str1 (chr (Z.lor 0x80 (Z.land r 0x3F))))).

(** [EncodeRune]: the UTF-8 encoding of a rune; a surrogate or a value out
    of range is written as [RuneError]. *)
Definition EncodeRune (r : Z) : string :=
  if between 0 0x7F r then str1 (chr r)
  else if between 0 0x7FF r then
    String (chr (Z.lor 0xC0 (Z.shiftr r 6))) (str1 (chr (Z.lor 0x80 (Z.land r 0x3F))))
  else if (r <? 0) || (0x10FFFF <? r) || between 0xD800 0xDFFF r then enc3 RuneError
  else if r <=? 0xFFFF then enc3 r
  else
    String (chr (Z.lor 0xF0 (Z.shiftr r 18)))
      (String (chr (Z.lor 0x80 (Z.land (Z.shiftr r 12) 0x3F)))
         (String (chr (Z.lor 0x80 (Z.land (Z.shiftr r 6) 0x3F)))
            (str1 (chr (Z.lor 0x80 (Z.land r 0x3F)))))).

(** [ValidString]: no position decodes to [(RuneError, 1)].  [skip] counts
    the bytes of the current rune that are still to be stepped over. *)
Fixpoint valid_from (skip : nat) (s : string) : bool :=
  match s with
  | EmptyString => true
  | String _ rest =>
      match skip with
      | S k => valid_from k rest
      | O =>
          let '(r, size) := DecodeRune s in
          if (r =? RuneError) && (size =? 1)%nat then false
          else valid_from (size - 1) rest
      end
  end.

Definition ValidString (s : string) : bool := valid_from 0 s.

End utf8.

Module utf16.

Definition IsSurrogate (r : Z) : bool := (0xD800 <=? r) && (r <? 0xE000).

Definition DecodeRune (r1 r2 : Z) : Z :=
  if (0xD800 <=? r1) && (r1 <? 0xDC00) && (0xDC00 <=? r2) && (r2 <? 0xE000)
  then Z.lor (Z.shiftl (r1 - 0xD800) 10) (r2 - 0xDC00) + 0x10000
  else utf8.RuneError.

End utf16.

(** ** Package time, as far as the service uses it

    A [Time] is an instant, counted in nanoseconds from the Unix epoch and
    printed in UTC. *)

Module time.

Definition Time := Z.

(** The zero [Time]: January 1, year 1, 00:00:00 UTC. *)
Definition zero : Time := - 62135596800 * 1000000000.

Definition IsZero (t : Time) : bool := t =? zero.
Definition Add (t : Time) (d : Z) : Time := t + d.

(** [Unix]: whole seconds since the epoch. *)
Definition Unix (t : Time) : Z := t / 1000000000.

Definition isLeap (y : Z) : bool :=
  (y mod 4 =? 0) && (negb (y mod 100 =? 0) || (y mod 400 =? 0)).

Definition daysIn (m y : Z) : Z :=
  if m =? 2 then (if isLeap y then 29 else 28)
  else if (m =? 4) || (m =? 6) || (m =? 9) || (m =? 11) then 30 else 31.

(** The Gregorian calendar repeats every 400 years, 146097 days.  Year
    (within the period, counted from a first of March), month and day of a
    day of the period. *)
Definition civil_of_doe (doe : Z) : Z * Z * Z :=
  let yoe := (doe - doe / 1460 + doe / 36524 - doe / 146096) / 365 in
  let doy := doe - (365 * yoe + yoe / 4 - yoe / 100) in
  let mp := (5 * doy + 2) / 153 in
  let d := doy - (153 * mp + 2) / 5 + 1 in
  let m := if mp <? 10 then mp + 3 else mp - 9 in
  (yoe + (if m <=? 2 then 1 else 0), m, d).

Definition doe_of_civil (yoe m d : Z) : Z :=
  let doy := (153 * (if 2 <? m then m - 3 else m + 9) + 2) / 5 + d - 1 in
  yoe * 365 + yoe / 4 - yoe / 100 + doy.

(** Year, month and day of a day number counted from 1970-01-01. *)
Definition civil_from_days (days : Z) : Z * Z * Z :=
  let z := days + 719468 in
  let era := z / 146097 in
  let '(y, m, d) := civil_of_doe (z - era * 146097) in
  (y + era * 400, m, d).

Definition days_from_civil (y m d : Z) : Z :=
  let y' := if m <=? 2 then y - 1 else y in
  let era := y' / 400 in
  era * 146097 + doe_of_civil (y' - era * 400) m d - 719468.

Definition digit (d : Z) : ascii := chr (48 + d).

(** [n] in decimal, on [w] digits, zero-padded. *)
Fixpoint digits (w : nat) (n : Z) : string :=
  match w with
  | O => EmptyString
  | S w' => digits w' (n / 10) +:+ str1 (digit (n mod 10))
  end.

Fixpoint trim_zeros (s : string) : string :=
  match s with
  | EmptyString => EmptyString
  | String c r =>
      match trim_zeros r with
      | EmptyString => if Ascii.eqb c "0" then EmptyString else str1 c
      | r' => String c r'
      end
  end.

(** The fractional second of layout [.999999999]: nothing when zero. *)
Definition frac (nsec : Z) : string :=
  match trim_zeros (digits 9 nsec) with
  | EmptyString => EmptyString
  | f => String "." f
  end.

(** [appendStrictRFC3339]: the RFC 3339 text with nanoseconds; an error
    when the year is outside [0, 9999]. *)
Definition appendStrictRFC3339 (t : Time) : option string :=
  let sec := t / 1000000000 in
  let nsec := t mod 1000000000 in
  let rem := sec mod 86400 in
  let '(y, m, d) := civil_from_days (sec / 86400) in
  if (y <? 0) || (9999 <? y) then None
  else Some (digits 4 y +:+ "-" +:+ digits 2 m +:+ "-" +:+ digits 2 d
             +:+ "T" +:+ digits 2 (rem / 3600) +:+ ":" +:+ digits 2 (rem mod 3600 / 60)
             +:+ ":" +:+ digits 2 (rem mod 60) +:+ frac nsec +:+ "Z").

(** [Time.MarshalJSON]: that text between quotes. *)
Definition MarshalJSON (t : Time) : option string :=
  body ← appendStrictRFC3339 t;
  Some (String quote (body +:+ str1 quote)).

Definition digit_val (c : ascii) : option Z :=
  let b := byte_val c in
  if (48 <=? b) && (b <=? 57) then Some (b - 48) else None.

(** A run of decimal digits read as a number within [lo, hi]. *)
Fixpoint parseUint_from (acc : Z) (s : string) : option Z :=
  match s with
  | EmptyString => Some acc
  | String c r => d ← digit_val c; parseUint_from (10 * acc + d) r
  end.

Definition parseUint (s : string) (lo hi : Z) : option Z :=
  n ← parseUint_from 0 s;
  if (lo <=? n) && (n <=? hi) then Some n else None.

(** Leading digits of [s] (at most nine are significant), and the rest. *)
Fixpoint take_digits (s : string) : string * string :=
  match s with
  | String c r =>
      match digit_val c with
      | Some _ => let '(ds, tl) := take_digits r in (String c ds, tl)
      | None => (EmptyString, s)
      end
  | EmptyString => (EmptyString, EmptyString)
  end.

Definition parseNanoseconds (ds : string) : option Z :=
  let ds9 := substring 0 9 ds in
  n ← parseUint_from 0 ds9;
  Some (n * 10 ^ (9 - Z.of_nat (String.length ds9))).

Definition parse_zone (s : string) : option Z :=
  match s with
  | String "Z" EmptyString => Some 0
  | String sg (String h1 (String h2 (String ":" (String m1 (String m2 EmptyString))))) =>
      hr ← parseUint (String h1 (str1 h2)) 0 23;
      mm ← parseUint (String m1 (str1 m2)) 0 59;
      if Ascii.eqb sg "+" then Some ((hr * 60 + mm) * 60)
      else if Ascii.eqb sg "-" then Some (- ((hr * 60 + mm) * 60))
      else None
  | _ => None
  end.

(** The fractional second, when there is one, and the rest. *)
Definition parse_fraction (tl : string) : option (Z * string) :=
  match tl with
  | String "." r =>
      match take_digits r with
      | (EmptyString, _) => Some (0, tl)
      | (ds, tl') => n ← parseNanoseconds ds; Some (n, tl')
      end
  | _ => Some (0, tl)
  end.

(** [parseStrictRFC3339] on the text between the quotes. *)
Definition parseRFC3339 (s : string) : option Time :=
  if (String.length s <? 19)%nat then None
  else
    year ← parseUint (substring 0 4 s) 0 9999;
    month ← parseUint (substring 5 2 s) 1 12;
    day ← parseUint (substring 8 2 s) 1 (daysIn month year);
    hour ← parseUint (substring 11 2 s) 0 23;
    min ← parseUint (substring 14 2 s) 0 59;
    sec ← parseUint (substring 17 2 s) 0 59;
    if negb (String.eqb (substring 4 1 s) "-" && String.eqb (substring 7 1 s) "-"
             && String.eqb (substring 10 1 s) "T" && String.eqb (substring 13 1 s) ":"
             && String.eqb (substring 16 1 s) ":")
    then None
    else
      '(nsec, tl) ← parse_fraction (substring 19 (String.length s - 19) s);
      off ← parse_zone tl;
      Some ((days_from_civil year month day * 86400 + hour * 3600 + min * 60 + sec - off)
            * 1000000000 + nsec).

End time.

(** ** Package encoding/json, as far as the service uses it *)

Module json.

Definition hex_digit (n : Z) : ascii := chr (if n <? 10 then 48 + n else 87 + n).

(** [htmlSafeSet]: the ASCII bytes that [Marshal] copies unescaped. *)
Definition htmlSafe (b : Z) : bool :=
  (0x20 <=? b) && negb ((b =? 34) || (b =? 38) || (b =? 60) || (b =? 62) || (b =? 92)).

Definition escape_ascii (c : ascii) : string :=
  let b := byte_val c in
  if htmlSafe b then str1 c
  else if (b =? 92) || (b =? 34) then String backslash (str1 c)
  else if b =? 8 then String backslash "b"
  else if b =? 12 then String backslash "f"
  else if b =? 10 then String backslash "n"
  else if b =? 13 then String backslash "r"
  else if b =? 9 then String backslash "t"
  else String backslash "u00" +:+ String (hex_digit (Z.shiftr b 4)) (str1 (hex_digit (Z.land b 0xF))).

(** [appendString], without the surrounding quotes.  [skip] counts the bytes
    of the current rune that the loop index has already jumped over. *)
Fixpoint appendString (skip : nat) (s : string) : string :=
  match s with
  | EmptyString => EmptyString
  | String c rest =>
      match skip with
      | S k => appendString k rest
      | O =>
          if byte_val c <? utf8.RuneSelf then escape_ascii c +:+ appendString 0 rest
          else
            let '(r, size) := utf8.DecodeRune s in
            if (r =? utf8.RuneError) && (size =? 1)%nat
            then String backslash "ufffd" +:+ appendString 0 rest
            else if (r =? 0x2028) || (r =? 0x2029)
            then String backslash "u202" +:+ String (hex_digit (Z.land r 0xF)) (appendString (size - 1) rest)
            else substring 0 size s +:+ appendString (size - 1) rest
      end
  end.

(** A Go string as a JSON string literal. *)
Definition encodeString (s : string) : string :=
  String quote (appendString 0 s +:+ str1 quote).

(** What a Go string becomes through a JSON string literal: every byte that
    is not part of a valid encoding is replaced by U+FFFD. *)
Fixpoint coerced (skip : nat) (s : string) : string :=
  match s with
  | EmptyString => EmptyString
  | String _ rest =>
      match skip with
      | S k => coerced k rest
      | O =>
          let '(r, size) := utf8.DecodeRune s in
          if (r =? utf8.RuneError) && (size =? 1)%nat
          then utf8.enc3 utf8.RuneError +:+ coerced 0 rest
          else substring 0 size s +:+ coerced (size - 1) rest
      end
  end.

Definition hex_val (c : ascii) : option Z :=
  let b := byte_val c in
  if utf8.between 48 57 b then Some (b - 48)
  else if utf8.between 97 102 b then Some (b - 87)
  else if utf8.between 65 70 b then Some (b - 55)
  else None.

(** [getu4]: the code unit of a [\uXXXX] escape at the head of [s]. *)
Definition getu4 (s : string) : option Z :=
  match s with
  | String c0 (String c1 (String h1 (String h2 (String h3 (String h4 _))))) =>
      if Ascii.eqb c0 backslash && Ascii.eqb c1 "u" then
        a ← hex_val h1; b ← hex_val h2; c ← hex_val h3; d ← hex_val h4;
        Some (((a * 16 + b) * 16 + c) * 16 + d)
      else None
  | _ => None
  end.

(** One step of [unquote] at a position that does not hold the closing
    quote: the bytes written and the number of input bytes consumed. *)
Definition unquote_step (s : string) : option (string * nat) :=
  match s with
  | EmptyString => None
  | String c rest =>
      let b := byte_val c in
      if b =? 92 then
        match rest with
        | EmptyString => None
        | String e _ =>
            let x := byte_val e in
            if (x =? 34) || (x =? 92) || (x =? 47) || (x =? 39) then Some (str1 e, 2%nat)
            else if x =? 98 then Some (str1 (chr 8), 2%nat)
            else if x =? 102 then Some (str1 (chr 12), 2%nat)
            else if x =? 110 then Some (str1 (chr 10), 2%nat)
            else if x =? 114 then Some (str1 (chr 13), 2%nat)
            else if x =? 116 then Some (str1 (chr 9), 2%nat)
            else if x =? 117 then
              rr ← getu4 s;
              if utf16.IsSurrogate rr then
                let dec :=
                  match getu4 (substring 6 (String.length s - 6) s) with
                  | Some rr1 => utf16.DecodeRune rr rr1
                  | None => utf8.RuneError
                  end in
                if negb (dec =? utf8.RuneError) then Some (utf8.EncodeRune dec, 12%nat)
                else Some (utf8.EncodeRune utf8.RuneError, 6%nat)
              else Some (utf8.EncodeRune rr, 6%nat)
            else None
        end
      else if (b =? 34) || (b <? 32) then None
      else if b <? utf8.RuneSelf then Some (str1 c, 1%nat)
      else
        let '(rr, size) := utf8.DecodeRune s in
        Some (utf8.EncodeRune rr, size)
  end.

(** The body of a string literal, after its opening quote: the decoded
    value and the input that follows the closing quote. *)
Fixpoint unquote_body (skip : nat) (s : string) : option (string * string) :=
  match s with
  | EmptyString => None
  | String c rest =>
      match skip with
      | S k => unquote_body k rest
      | O =>
          if Ascii.eqb c quote then Some (EmptyString, rest)
          else
            '(out, n) ← unquote_step s;
            '(body, tl) ← unquote_body (n - 1) rest;
            Some (out +:+ body, tl)
      end
  end.

Definition decodeString (s : string) : option (string * string) :=
  match s with
  | String c rest => if Ascii.eqb c quote then unquote_body 0 rest else None
  | EmptyString => None
  end.

(** The raw text of a string literal (escapes left as they are), as a type
    with its own [UnmarshalJSON] receives it. *)
Fixpoint raw_body (esc : bool) (s : string) : option (string * string) :=
  match s with
  | EmptyString => None
  | String c rest =>
      if esc then '(body, tl) ← raw_body false rest; Some (String c body, tl)
      else if Ascii.eqb c quote then Some (EmptyString, rest)
      else if byte_val c <? 32 then None
      else '(body, tl) ← raw_body (Ascii.eqb c backslash) rest; Some (String c body, tl)
  end.

Definition rawString (s : string) : option (string * string) :=
  match s with
  | String c rest => if Ascii.eqb c quote then raw_body false rest else None
  | EmptyString => None
  end.

(** [strconv.AppendInt(n, 10)]. *)
Definition encodeInt (n : Z) : string := NilZero.string_of_int (Z.to_int n).

Definition is_int_char (c : ascii) : bool :=
  let b := byte_val c in (b =? 45) || utf8.between 48 57 b.

Fixpoint span_int (s : string) : string * string :=
  match s with
  | String c r =>
      if is_int_char c then let '(ds, tl) := span_int r in (String c ds, tl)
      else (EmptyString, s)
  | EmptyString => (EmptyString, EmptyString)
  end.

(** A number literal stored into an [int] field: decimal digits with an
    optional sign, within the range of [int64]. *)
Definition decodeInt (s : string) : option (Z * string) :=
  let '(ds, tl) := span_int s in
  d ← NilZero.int_of_string ds;
  let n := Z.of_int d in
  if (backoff.min_int64 <=? n) && (n <=? backoff.max_int64) then Some (n, tl) else None.

(** Removes the literal [lit] from the head of [s]. *)
Fixpoint expect (lit s : string) : option string :=
  match lit, s with
  | EmptyString, _ => Some s
  | String a lit', String b s' => if Ascii.eqb a b then expect lit' s' else None
  | String _ _, EmptyString => None
  end.

Definition key (name : string) : string := String quote (name +:+ String quote ":").

End json.

(** ** The shared store and its client *)

Inductive error :=
| ErrNil          (* redis.Nil: a blocking pop timed out *)
| ErrCanceled     (* context.Canceled *)
| ErrStore        (* any other error reported by the client *)
| ErrMarshal      (* "failed to marshal task" *)
| ErrUnmarshal.   (* "failed to unmarshal task" *)

(** What a call has produced so far: a value, an error, or nothing yet
    because it is still blocked. *)
Inductive reply (A : Type) :=
| Ok (a : A)
| Fail (e : error)
| Blocked.
Arguments Ok {A} a.
Arguments Fail {A} e.
Arguments Blocked {A}.

Module redis.

(** An integer key: its value and the instant at which it expires. *)
Record Counter := { count : Z; expiry : option Z }.

(** The keys the service touches: the [rate_limit:<user>] counters, the list
    [webhook_queue] (head first) and the sorted set [retry_schedule], kept
    as (score, member) pairs in the order of the set: by score, then by
    member. *)
Record Store := {
  counters : gmap string Counter;
  webhook_queue : list string;
  retry_schedule : list (Z * string)
}.

(** A client: the store behind it and, for the commands to come, whether
    each one fails to reach the store ([true]: it fails). *)
Record Client := { db : Store; faults : list bool }.

Definition healthy (st : Store) : Client := {| db := st; faults := [] |}.

Definition next_fault (c : Client) : bool * Client :=
  match faults c with
  | b :: f => (b, {| db := db c; faults := f |})
  | [] => (false, c)
  end.

Definition with_db (c : Client) (st : Store) : Client :=
  {| db := st; faults := faults c |}.

Definition set_counters (st : Store) (m : gmap string Counter) : Store :=
  {| counters := m; webhook_queue := webhook_queue st; retry_schedule := retry_schedule st |}.
Definition set_queue (st : Store) (q : list string) : Store :=
  {| counters := counters st; webhook_queue := q; retry_schedule := retry_schedule st |}.
Definition set_schedule (st : Store) (z : list (Z * string)) : Store :=
  {| counters := counters st; webhook_queue := webhook_queue st; retry_schedule := z |}.

Definition live (now : Z) (k : Counter) : bool :=
  match expiry k with
  | Some e => now <? e
  | None => true
  end.

(** INCR: a missing (or expired) key counts from zero; the new key has no
    expiry. *)
Definition Incr (now : Z) (key : string) (c : Client) : (Z + error) * Client :=
  let '(bad, c) := next_fault c in
  if bad then (inr ErrStore, c)
  else
    match counters (db c) !! key with
    | Some k =>
        if live now k then
          if count k =? backoff.max_int64 then (inr ErrStore, c)
          else (inl (count k + 1),
                with_db c (set_counters (db c)
                  (<[key := {| count := count k + 1; expiry := expiry k |}]> (counters (db c)))))
        else (inl 1, with_db c (set_counters (db c)
                  (<[key := {| count := 1; expiry := None |}]> (counters (db c)))))
    | None => (inl 1, with_db c (set_counters (db c)
                  (<[key := {| count := 1; expiry := None |}]> (counters (db c)))))
    end.

(** EXPIRE: the key, when present, expires [ttl] from now. *)
Definition Expire (now : Z) (key : string) (ttl : Z) (c : Client) : (bool + error) * Client :=
  let '(bad, c) := next_fault c in
  if bad then (inr ErrStore, c)
  else
    match counters (db c) !! key with
    | Some k =>
        if live now k then
          (inl true, with_db c (set_counters (db c)
             (<[key := {| count := count k; expiry := Some (now + ttl) |}]> (counters (db c)))))
        else (inl false, c)
    | None => (inl false, c)
    end.

(** LPUSH webhook_queue: at the head of the list. *)
Definition LPush (data : string) (c : Client) : option error * Client :=
  let '(bad, c) := next_fault c in
  if bad then (Some ErrStore, c)
  else (None, with_db c (set_queue (db c) (data :: webhook_queue (db c)))).

(** BRPOP webhook_queue: from the tail of the list.  [done] tells whether
    the context is already cancelled when the command is issued; [waited] is
    the time for which the call has found the list empty; a [timeout] of
    zero waits without limit. *)
Definition BRPop (done : bool) (timeout waited : Z) (c : Client) : reply string * Client :=
  if done then (Fail ErrCanceled, c)
  else
    let '(bad, c) := next_fault c in
    if bad then (Fail ErrStore, c)
    else
      match last (webhook_queue (db c)) with
      | Some data => (Ok data, with_db c (set_queue (db c) (removelast (webhook_queue (db c)))))
      | None =>
          if (0 <? timeout) && (timeout <=? waited) then (Fail ErrNil, c) else (Blocked, c)
      end.

Definition zlt (a b : Z * string) : bool :=
  (a.1 <? b.1) || ((a.1 =? b.1) && String.ltb a.2 b.2).

Fixpoint zinsert (e : Z * string) (l : list (Z * string)) : list (Z * string) :=
  match l with
  | [] => [e]
  | x :: r => if zlt e x then e :: l else x :: zinsert e r
  end.

Definition zremove (member : string) (l : list (Z * string)) : list (Z * string) :=
  List.filter (fun e => negb (String.eqb e.2 member)) l.

(** ZADD retry_schedule: a member is held once; adding it again moves it to
    the new score. *)
Definition ZAdd (score : Z) (member : string) (c : Client) : option error * Client :=
  let '(bad, c) := next_fault c in
  if bad then (Some ErrStore, c)
  else (None, with_db c (set_schedule (db c)
                 (zinsert (score, member) (zremove member (retry_schedule (db c)))))).

(** ZRANGEBYSCORE retry_schedule -inf max. *)
Definition ZRangeByScore (max : Z) (c : Client) : (list string + error) * Client :=
  let '(bad, c) := next_fault c in
  if bad then (inr ErrStore, c)
  else (inl (List.map snd (List.filter (fun e => e.1 <=? max) (retry_schedule (db c)))), c).

(** ZREM retry_schedule member. *)
Definition ZRem (member : string) (c : Client) : option error * Client :=
  let '(bad, c) := next_fault c in
  if bad then (Some ErrStore, c)
  else (None, with_db c (set_schedule (db c) (zremove member (retry_schedule (db c))))).

End redis.

(** ** Package queue *)

Module queue.

Record Task := {
  Payload : string;
  RetryCount : Z;
  CreatedAt : time.Time
}.

(** [json.Marshal] of a [Task]: the three tagged fields in declaration
    order. *)
Definition Marshal (t : Task) : option string :=
  created ← time.MarshalJSON (CreatedAt t);
  Some ("{" +:+ json.key "payload" +:+ json.encodeString (Payload t)
        +:+ "," +:+ json.key "retry_count" +:+ json.encodeInt (RetryCount t)
        +:+ "," +:+ json.key "created_at" +:+ created +:+ "}").

(** [json.Unmarshal] into a [Task], on the compact objects that [Marshal]
    writes: the three fields in declaration order, without white space.
    Any other input is reported as an error. *)
Definition Unmarshal (data : string) : option Task :=
  s ← json.expect ("{" +:+ json.key "payload") data;
  '(payload, s) ← json.decodeString s;
  s ← json.expect ("," +:+ json.key "retry_count") s;
  '(retry, s) ← json.decodeInt s;
  s ← json.expect ("," +:+ json.key "created_at") s;
  '(raw, s) ← json.rawString s;
  created ← time.parseRFC3339 raw;
  match s with
  | String "}" EmptyString =>
      Some {| Payload := payload; RetryCount := retry; CreatedAt := created |}
  | _ => None
  end.

(** Enqueue (producer). *)
Definition Enqueue (now : time.Time) (task : Task) (c : redis.Client)
  : option error * redis.Client :=
  let task :=
    if time.IsZero (CreatedAt task)
    then {| Payload := Payload task; RetryCount := RetryCount task; CreatedAt := now |}
    else task in
  match Marshal task with
  | None => (Some ErrMarshal, c)
  | Some data => redis.LPush data c
  end.

(** Dequeue (consumer): [BRPop(ctx, 0, "webhook_queue")]. *)
Definition Dequeue (done : bool) (waited : Z) (c : redis.Client) : reply Task * redis.Client :=
  match redis.BRPop done 0 waited c with
  | (Ok data, c') =>
      match Unmarshal data with
      | Some task => (Ok task, c')
      | None => (Fail ErrUnmarshal, c')
      end
  | (Fail e, c') => (Fail e, c')
  | (Blocked, c') => (Blocked, c')
  end.

End queue.

(** ** Package ratelimit *)

Module ratelimit.

(** The strategy interface. *)
Class Limiter (L : Type) := {
  Allow : L -> time.Time -> string -> redis.Client -> (bool * option error) * redis.Client
}.

(** Concrete strategy A: fixed window. *)
Record FixedWindowLimiter := { limit : Z; window : Z }.

Definition NewFixedWindowLimiter (limit window : Z) : FixedWindowLimiter :=
  {| limit := limit; window := window |}.

Definition fixed_Allow (l : FixedWindowLimiter) (now : time.Time) (userID : string)
    (c : redis.Client) : (bool * option error) * redis.Client :=
  let key := "rate_limit:" +:+ userID in
  match redis.Incr now key c with
  | (inr err, c) => ((false, Some err), c)
  | (inl count, c) =>
      (* set expiry only on the first request *)
      let c := if count =? 1 then (redis.Expire now key (window l) c).2 else c in
      if limit l <? count then ((false, None), c) else ((true, None), c)
  end.

#[export] Instance fixed_window_limiter : Limiter FixedWindowLimiter :=
  {| Allow := fixed_Allow |}.

(** Concrete strategy B: no-op. *)
Inductive NoOpLimiter := NewNoOpLimiter.

#[export] Instance noop_limiter : Limiter NoOpLimiter :=
  {| Allow := fun _ _ _ c => ((true, None), c) |}.

End ratelimit.

(** ** Package worker *)

Module worker.

Section Processor.

Context {S : Type} `{backoff.Strategy S}.

(** The processor's strategy; its store handle and queue are the client
    that every operation threads. *)
Variable strategy : S.

Definition scheduleRetry (now : time.Time) (task : queue.Task) (delay : Z)
    (c : redis.Client) : redis.Client :=
  match queue.Marshal task with
  | None => c
  | Some data =>
      (* score = now + delay, in whole seconds *)
      let executeAt := time.Unix (time.Add now delay) in
      (redis.ZAdd executeAt data c).2
  end.

Definition handleFailure (now : time.Time) (task : queue.Task) (c : redis.Client)
  : redis.Client :=
  if 5 <=? queue.RetryCount task then c
  else
    let waitDuration := backoff.GetNextInterval strategy (queue.RetryCount task) in
    let task :=
      {| queue.Payload := queue.Payload task;
         queue.RetryCount := queue.RetryCount task + 1;
         queue.CreatedAt := queue.CreatedAt task |} in
    scheduleRetry now task waitDuration c.

(** [success] is the outcome of the delivery attempt. *)
Definition Process (now : time.Time) (success : bool) (task : queue.Task)
    (c : redis.Client) : redis.Client :=
  if success then c else handleFailure now task c.

End Processor.

End worker.

(** ** cmd/worker *)

Module cmd_worker.

Inductive iteration := Stopped | Again | Waiting.

(** One turn of the loop of [startConsumer]: [done] is the state of the
    context at the [select], [cancelled] its state when [Dequeue] issues its
    command. *)
Definition consumer_iteration {S : Type} `{backoff.Strategy S} (strategy : S)
    (now : time.Time) (done cancelled : bool) (waited : Z) (success : bool)
    (c : redis.Client) : iteration * redis.Client :=
  if done then (Stopped, c)
  else
    match queue.Dequeue cancelled waited c with
    | (Fail ErrCanceled, c) => (Stopped, c)
    | (Fail ErrNil, c) => (Again, c)
    | (Fail _, c) => (Again, c)
    | (Ok task, c) => (Again, worker.Process strategy now success task c)
    | (Blocked, c) => (Waiting, c)
    end.

Definition zero_task : queue.Task :=
  {| queue.Payload := EmptyString; queue.RetryCount := 0; queue.CreatedAt := time.zero |}.

(** The body of the inner loop of [startRetryPoller] for one due member. *)
Definition promote (now : time.Time) (c : redis.Client) (member : string) : redis.Client :=
  let task := default zero_task (queue.Unmarshal member) in
  let c := (queue.Enqueue now task c).2 in
  (redis.ZRem member c).2.

(** One tick of [startRetryPoller]. *)
Definition poll_tick (now : time.Time) (c : redis.Client) : redis.Client :=
  match redis.ZRangeByScore (time.Unix now) c with
  | (inr _, c) => c
  | (inl results, c) => fold_left (promote now) results c
  end.

(** The instants at which the one-second ticker of [startRetryPoller] fires
    when it is started at [t0]. *)
Definition tick (t0 : time.Time) (k : Z) : time.Time := t0 + k * Second.

End cmd_worker.

(** ** cmd/api *)

Module cmd_api.

Record WebhookRequest := { UserID : string; Data : string }.

(** An HTTP request: its method and what decoding its body as a
    [WebhookRequest] gives. *)
Record Request := { Method : string; Body : option WebhookRequest }.

Definition StatusAccepted : Z := 202.
Definition StatusBadRequest : Z := 400.
Definition StatusMethodNotAllowed : Z := 405.
Definition StatusTooManyRequests : Z := 429.
Definition StatusInternalServerError : Z := 500.

(** The handler of [/send]: the status it answers with and the store
    afterwards. *)
Definition send {L : Type} `{ratelimit.Limiter L} (limiter : L) (now : time.Time)
    (r : Request) (c : redis.Client) : Z * redis.Client :=
  if negb (String.eqb (Method r) "POST") then (StatusMethodNotAllowed, c)
  else
    match Body r with
    | None => (StatusBadRequest, c)
    | Some req =>
        if String.eqb (UserID req) EmptyString then (StatusBadRequest, c)
        else
          match ratelimit.Allow limiter now (UserID req) c with
          | ((_, Some _), c) => (StatusInternalServerError, c)
          | ((false, None), c) => (StatusTooManyRequests, c)
          | ((true, None), c) =>
              let newTask :=
                {| queue.Payload := Data req; queue.RetryCount := 0;
                   queue.CreatedAt := time.zero |} in
              match queue.Enqueue now newTask c with
              | (Some _, c) => (StatusInternalServerError, c)
              | (None, c) => (StatusAccepted, c)
              end
          end
    end.

(** The limiter that [cmd/api] installs: five requests per minute. *)
Definition limiter : ratelimit.FixedWindowLimiter :=
  ratelimit.NewFixedWindowLimiter 5 (60 * Second).

End cmd_api.

(** ** Package strconv, as far as the service uses it *)

Module strconv.

(** [Atoi]: an optional sign, then decimal digits and nothing else, the
    value within [int]. *)
Definition Atoi (s : string) : option Z :=
  let '(neg, ds) :=
    match s with
    | String c r =>
        if Ascii.eqb c "-" then (true, r)
        else if Ascii.eqb c "+" then (false, r) else (false, s)
    | EmptyString => (false, s)
    end in
  match ds with
  | EmptyString => None
  | _ =>
      n ← time.parseUint_from 0 ds;
      let v := if neg then - n else n in
      if (backoff.min_int64 <=? v) && (v <=? backoff.max_int64) then Some v else None
  end.

End strconv.

(** ** Package platform *)

Module platform.

(** The options of a client: the address it dials and the database it
    selects. *)
Record Options := { Addr : string; DB : Z }.

Inductive InitError :=
| ErrInvalidDB                 (* "invalid VALKEY_DB" *)
| ErrConnect (addr : string).  (* "failed to connect to valkey at <addr>" *)

(** What the process finds when it starts: its environment, the variables
    of the [.env] file (none when there is no file) and, for a client,
    whether the server answers its PING. *)
Record World := {
  environ : gmap string string;
  dotenv : gmap string string;
  ping : Options -> bool
}.

(** [godotenv.Load]: the variables of the file are set, except those that the
    environment already defines. *)
Definition Load (w : World) : gmap string string := environ w ∪ dotenv w.

(** [os.Getenv]: the empty string for a variable that is not set. *)
Definition Getenv (env : gmap string string) (k : string) : string :=
  default EmptyString (env !! k).

(** The package-level variables: the flag inside [once], the instance and
    the error of the initialization. *)
Record Singleton := {
  once : bool;
  redisInstance : option Options;
  initErr : option InitError
}.

Definition initial : Singleton :=
  {| once := false; redisInstance := None; initErr := None |}.

(** The function that [once.Do] runs. *)
Definition init (w : World) (st : Singleton) : Singleton :=
  let env := Load w in
  let addr := Getenv env "VALKEY_ADDR" in
  let addr := if String.eqb addr EmptyString then "localhost:6379" else addr in
  let dbStr := Getenv env "VALKEY_DB" in
  match (if String.eqb dbStr EmptyString then Some 0 else strconv.Atoi dbStr) with
  | None =>
      {| once := true; redisInstance := redisInstance st; initErr := Some ErrInvalidDB |}
  | Some db =>
      let rdb := {| Addr := addr; DB := db |} in
      if ping w rdb
      then {| once := true; redisInstance := Some rdb; initErr := initErr st |}
      else {| once := true; redisInstance := redisInstance st;
              initErr := Some (ErrConnect addr) |}
  end.

(** [GetRedisClient]: the instance and the error it returns, and the
    package-level variables afterwards. *)
Definition GetRedisClient (w : World) (st : Singleton)
  : (option Options * option InitError) * Singleton :=
  let st := if once st then st else init w st in
  match initErr st with
  | Some e => ((None, Some e), st)
  | None => ((redisInstance st, None), st)
  end.

End platform.

(** ** Runs of the service *)

Definition empty_store : redis.Store :=
  {| redis.counters := ∅; redis.webhook_queue := []; redis.retry_schedule := [] |}.

(** The rate-limit key of a caller. *)
Definition rate_key (userID : string) : string := "rate_limit:" +:+ userID.

(** Successive calls of [Allow] for one caller, at the given instants. *)
Fixpoint allow_all (l : ratelimit.FixedWindowLimiter) (userID : string) (times : list Z)
    (c : redis.Client) : list (bool * option error) * redis.Client :=
  match times with
  | [] => ([], c)
  | t :: times' =>
      let '(r, c) := ratelimit.fixed_Allow l t userID c in
      let '(rs, c) := allow_all l userID times' c in
      (r :: rs, c)
  end.

(** What [Enqueue] writes for a task: its serialization, stamped with the
    time of the call when it carries none. *)
Definition wire (job : time.Time * queue.Task) : option string :=
  let '(now, task) := job in
  queue.Marshal
    (if time.IsZero (queue.CreatedAt task)
     then {| queue.Payload := queue.Payload task; queue.RetryCount := queue.RetryCount task;
             queue.CreatedAt := now |}
     else task).

(** What [Dequeue] returns for a popped element. *)
Definition received (data : string) : reply queue.Task :=
  match queue.Unmarshal data with
  | Some task => Ok task
  | None => Fail ErrUnmarshal
  end.

Definition enqueue_all (jobs : list (time.Time * queue.Task)) (c : redis.Client) : redis.Client :=
  fold_left (fun c job => (queue.Enqueue job.1 job.2 c).2) jobs c.

Fixpoint dequeue_n (n : nat) (c : redis.Client) : list (reply queue.Task) * redis.Client :=
  match n with
  | O => ([], c)
  | S n' =>
      let '(r, c) := queue.Dequeue false 0 c in
      let '(rs, c) := dequeue_n n' c in
      (r :: rs, c)
  end.

(** Successive requests to [/send], each at its instant. *)
Fixpoint send_all {L : Type} `{ratelimit.Limiter L} (limiter : L)
    (reqs : list (time.Time * cmd_api.Request)) (c : redis.Client)
  : list Z * redis.Client :=
  match reqs with
  | [] => ([], c)
  | (now, r) :: reqs' =>
      let '(status, c) := cmd_api.send limiter now r c in
      let '(statuses, c) := send_all limiter reqs' c in
      (status :: statuses, c)
  end.

(** Successive calls of [GetRedisClient], each in the world it finds. *)
Fixpoint get_all (ws : list platform.World) (st : platform.Singleton)
  : list (option platform.Options * option platform.InitError) * platform.Singleton :=
  match ws with
  | [] => ([], st)
  | w :: ws' =>
      let '(r, st) := platform.GetRedisClient w st in
      let '(rs, st) := get_all ws' st in
      (r :: rs, st)
  end.

Section Lifecycle.

Context {B : Type} `{backoff.Strategy B}.
Variable strategy : B.

(** A delivery attempt of [task] that fails at [now], then the poller's tick
    and the next dequeue two hours later: the task delivered next, if any. *)
Definition fail_then_redeliver (now : time.Time) (task : queue.Task) (c : redis.Client)
  : option queue.Task * redis.Client :=
  let c := worker.Process strategy now false task c in
  match queue.Dequeue false 0 (cmd_worker.poll_tick (now + 2 * Hour) c) with
  | (Ok task', c) => (Some task', c)
  | (_, c) => (None, c)
  end.

(** [n] consecutive failed deliveries of a task. *)
Fixpoint failures (n : nat) (now : time.Time) (task : queue.Task) (c : redis.Client)
  : option queue.Task * redis.Client :=
  match n with
  | O => (Some task, c)
  | S n' =>
      match fail_then_redeliver now task c with
      | (Some task', c) => failures n' (now + 2 * Hour) task' c
      | (None, c) => (None, c)
      end
  end.

End Lifecycle.

(** ** Decision procedures used in the proofs *)

(** [P] holds of every integer from [lo], [n] of them. *)
Fixpoint all_from (lo : Z) (n : nat) (P : Z -> bool) : bool :=
  match n with
  | O => true
  | S n' => P lo && all_from (lo + 1) n' P
  end.

Definition all_between (lo hi : Z) (P : Z -> bool) : bool :=
  all_from lo (Z.to_nat (hi - lo + 1)) P.

(** Every byte of [s] satisfies [P]. *)
Fixpoint all_chars (P : ascii -> bool) (s : string) : bool :=
  match s with
  | EmptyString => true
  | String c r => P c && all_chars P r
  end.

(** A byte that a string literal holds as it is. *)
Definition is_plain (c : ascii) : bool :=
  let b := byte_val c in (32 <=? b) && negb (b =? 34) && negb (b =? 92).

Definition is_digit (c : ascii) : bool := utf8.between 48 57 (byte_val c).

Fixpoint zeros (k : nat) : string :=
  match k with
  | O => EmptyString
  | S k' => String "0" (zeros k')
  end.

(** A day of the 400-year period has a valid date, from which it is
    recovered. *)
Definition check_doe (doe : Z) : bool :=
  let '(y, m, d) := time.civil_of_doe doe in
  let yoe := if m <=? 2 then y - 1 else y in
  (1 <=? m) && (m <=? 12) && (1 <=? d) && (d <=? time.daysIn m y)
  && (0 <=? yoe) && (yoe <=? 399) && (time.doe_of_civil yoe m d =? doe).

(** What [DecodeRune] finds at a byte that is not ASCII: an invalid byte, or
    a sequence of two to four bytes which [EncodeRune] writes back and which
    decodes alike whatever follows it. *)
Inductive decoded (s : string) : Z * nat -> Prop :=
| decoded_invalid : decoded s (utf8.RuneError, 1%nat)
| decoded_rune (r : Z) (chunk tail : string) :
    s = chunk +:+ tail ->
    (2 <= String.length chunk)%nat ->
    utf8.EncodeRune r = chunk ->
    (forall Y, utf8.DecodeRune (chunk +:+ Y) = (r, String.length chunk)) ->
    decoded s (r, String.length chunk).

(** The decoder, at the head of what the encoder wrote for one rune, yields
    [out] and goes on with the rest. *)
Definition decodes_to (written out : string) : Prop :=
  forall Y,
    json.unquote_body 0 (written +:+ Y)
    = '(body, tl) ← json.unquote_body 0 Y; Some (out +:+ body, tl).

(** Nothing queued, nothing scheduled, and a store that answers. *)
Definition idle (c : redis.Client) : Prop :=
  redis.faults c = []
  /\ redis.webhook_queue (redis.db c) = []
  /\ redis.retry_schedule (redis.db c) = [].

(** The counter of a caller is open: it holds [n] and expires at [e]. *)
Definition window_open (c : redis.Client) (key : string) (n e : Z) : Prop :=
  redis.faults c = []
  /\ redis.counters (redis.db c) !! key = Some {| redis.count := n; redis.expiry := Some e |}.

(** * Properties *)

(** ** Backoff policy *)

(** Up to the 34th retry the product stays below [2^63], the conversion is
    exact on every architecture and the interval is the capped power. *)
Lemma GetNextInterval_exact (arch : backoff.Arch) (n : Z) :
  0 <= n <= 33 ->
  backoff.exponential_GetNextInterval arch retryStrategy n = Z.min (Second * 2 ^ n) Hour.
Proof.
  intros Hn.
  assert (Hcases : In n (List.map Z.of_nat (seq 0 34))).
  { apply in_map_iff. exists (Z.to_nat n). split; [lia|]. apply in_seq. lia. }
  cbn in Hcases.
  repeat (destruct Hcases as [<- | Hcases]; [vm_compute; reflexivity|]).
  destruct Hcases.
Qed.

(** C2: on amd64 the interval for [retryCount = 34] is the most negative
    duration, after an interval equal to the cap for [retryCount = 33]: the
    result is neither non-decreasing nor within [0, Max]. *)
Theorem GetNextInterval_overflow_amd64 :
  backoff.exponential_GetNextInterval backoff.amd64 retryStrategy 33 = backoff.Max retryStrategy
  /\ backoff.exponential_GetNextInterval backoff.amd64 retryStrategy 34 = - 2 ^ 63.
Proof. split; vm_compute; reflexivity. Qed.

(** ** Task broker: the blocking pop *)

(** C3: on an idle queue, with the context not cancelled, [Dequeue] has not
    returned however long the caller has waited, whereas a pop with a
    one-second timeout answers [redis.Nil] after that second; the loop of
    [startConsumer] stays inside the call. *)
Theorem Dequeue_idle_never_returns (waited : Z) :
  queue.Dequeue false waited (redis.healthy empty_store) = (Blocked, redis.healthy empty_store)
  /\ redis.BRPop false Second Second (redis.healthy empty_store)
     = (Fail ErrNil, redis.healthy empty_store)
  /\ (cmd_worker.consumer_iteration (H := backoff.exponential_strategy backoff.amd64)
        retryStrategy 0 false false waited true (redis.healthy empty_store)).1
     = cmd_worker.Waiting.
Proof. repeat split. Qed.

(** ** Admission controller *)

Lemma allow_first (l : ratelimit.FixedWindowLimiter) (now : Z) (userID : string)
    (c : redis.Client) :
  redis.faults c = [] ->
  redis.counters (redis.db c) !! rate_key userID = None ->
  exists c',
    ratelimit.fixed_Allow l now userID c = ((1 <=? ratelimit.limit l, None), c')
    /\ window_open c' (rate_key userID) 1 (now + ratelimit.window l).
Proof.
  intros Hf Hk. unfold ratelimit.fixed_Allow, redis.Incr, redis.next_fault.
  fold (rate_key userID). rewrite Hf, Hk. cbn.
  unfold redis.Expire, redis.next_fault. cbn. rewrite Hf. cbn.
  rewrite lookup_insert_eq. cbn.
  eexists. split.
  - rewrite Z.leb_antisym. destruct (ratelimit.limit l <? 1); reflexivity.
  - split; [exact Hf|]. cbn. rewrite insert_insert_eq. apply lookup_insert_eq.
Qed.

Lemma allow_in_window (l : ratelimit.FixedWindowLimiter) (now : Z) (userID : string)
    (c : redis.Client) (n e : Z) :
  window_open c (rate_key userID) n e ->
  now < e -> 1 <= n < backoff.max_int64 ->
  exists c',
    ratelimit.fixed_Allow l now userID c = ((n + 1 <=? ratelimit.limit l, None), c')
    /\ window_open c' (rate_key userID) (n + 1) e.
Proof.
  intros [Hf Hk] Hlive Hn. unfold ratelimit.fixed_Allow, redis.Incr, redis.next_fault.
  fold (rate_key userID). rewrite Hf, Hk. cbn. unfold redis.live. cbn.
  destruct (Z.ltb_spec now e) as [_|]; [|lia].
  destruct (Z.eqb_spec n backoff.max_int64) as [|_]; [lia|].
  destruct (Z.eqb_spec (n + 1) 1) as [|_]; [lia|].
  eexists. split.
  - rewrite Z.leb_antisym. destruct (ratelimit.limit l <? n + 1); reflexivity.
  - split; [exact Hf|]. cbn. apply lookup_insert_eq.
Qed.

Lemma allow_all_in_window (l : ratelimit.FixedWindowLimiter) (userID : string) (e : Z)
    (times : list Z) :
  forall (c : redis.Client) (n : nat),
    window_open c (rate_key userID) (Z.of_nat n) e ->
    Forall (fun t => t < e) times ->
    (1 <= n)%nat -> Z.of_nat (n + length times) <= backoff.max_int64 ->
    (allow_all l userID times c).1
    = List.map (fun k => (Z.of_nat k <=? ratelimit.limit l, None)) (seq (S n) (length times))
    /\ window_open (allow_all l userID times c).2 (rate_key userID)
         (Z.of_nat (n + length times)) e.
Proof.
  induction times as [|t times IH]; intros c n Hopen Hlive Hn Hmax.
  - cbn. rewrite Nat.add_0_r. auto.
  - apply Forall_cons in Hlive as [Ht Hlive]. cbn [length] in Hmax.
    destruct (allow_in_window l t userID c (Z.of_nat n) e Hopen Ht) as (c' & Hcall & Hopen').
    { lia. }
    replace (Z.of_nat n + 1) with (Z.of_nat (S n)) in Hcall, Hopen' by lia.
    destruct (IH c' (S n) Hopen' Hlive) as [Hres Hend]; [lia | lia |].
    cbn [allow_all length seq List.map]. rewrite Hcall.
    destruct (allow_all l userID times c') as [rs c''] eqn:Hrest. cbn in *.
    rewrite Hres. replace (n + S (length times))%nat with (S n + length times)%nat by lia.
    auto.
Qed.

(** C5: for every caller and every window, from a state without a counter
    for the caller, the first request at [t0] and the requests that follow
    before [t0 + window]: the Nth one is allowed exactly when N is at most
    the limit, each one increments the counter, and the expiry is the one
    attached by the first request. *)
Theorem fixed_window_admission (l : ratelimit.FixedWindowLimiter) (userID : string)
    (t0 : Z) (times : list Z) (c : redis.Client) :
  redis.faults c = [] ->
  redis.counters (redis.db c) !! rate_key userID = None ->
  Forall (fun t => t < t0 + ratelimit.window l) times ->
  Z.of_nat (S (length times)) <= backoff.max_int64 ->
  (allow_all l userID (t0 :: times) c).1
  = List.map (fun n => (Z.of_nat n <=? ratelimit.limit l, None)) (seq 1 (S (length times)))
  /\ redis.counters (redis.db (allow_all l userID (t0 :: times) c).2) !! rate_key userID
     = Some {| redis.count := Z.of_nat (S (length times));
               redis.expiry := Some (t0 + ratelimit.window l) |}.
Proof.
  intros Hf Hk Hlive Hmax.
  destruct (allow_first l t0 userID c Hf Hk) as (c' & Hcall & Hopen).
  destruct (allow_all_in_window l userID _ times c' 1 Hopen Hlive) as [Hres [_ Hend]];
    [lia | lia |].
  cbn [allow_all seq List.map]. rewrite Hcall.
  destruct (allow_all l userID times c') as [rs c''] eqn:Hrest. cbn in *.
  rewrite Hres. auto.
Qed.

Lemma fixed_window_admission_witness :
  (allow_all cmd_api.limiter "u1" [0; 1; 2; 3; 4; 5] (redis.healthy empty_store)).1
  = [(true, None); (true, None); (true, None); (true, None); (true, None); (false, None)].
Proof.
  exact (proj1 (fixed_window_admission cmd_api.limiter "u1" 0 [1; 2; 3; 4; 5]
                  (redis.healthy empty_store) eq_refl eq_refl
                  ltac:(repeat constructor) ltac:(vm_compute; discriminate))).
Defined.

(** ** Task broker: order *)

Lemma Enqueue_healthy (now : time.Time) (task : queue.Task) (c : redis.Client) :
  redis.faults c = [] ->
  (queue.Enqueue now task c).2
  = match wire (now, task) with
    | Some data => redis.with_db c (redis.set_queue (redis.db c)
                                      (data :: redis.webhook_queue (redis.db c)))
    | None => c
    end.
Proof.
  intros Hf. unfold queue.Enqueue, wire.
  destruct (queue.Marshal _) as [data|]; [|reflexivity].
  unfold redis.LPush, redis.next_fault. rewrite Hf. destruct c; reflexivity.
Qed.

Lemma enqueue_all_queue (jobs : list (time.Time * queue.Task)) :
  forall c : redis.Client,
    redis.faults c = [] ->
    redis.faults (enqueue_all jobs c) = []
    /\ redis.webhook_queue (redis.db (enqueue_all jobs c))
       = rev (omap wire jobs) ++ redis.webhook_queue (redis.db c).
Proof.
  induction jobs as [|[now task] jobs IH]; intros c Hf; [auto|].
  change (enqueue_all ((now, task) :: jobs) c)
    with (enqueue_all jobs (queue.Enqueue now task c).2).
  rewrite Enqueue_healthy by exact Hf.
  change (omap wire ((now, task) :: jobs))
    with (match wire (now, task) with Some d => d :: omap wire jobs | None => omap wire jobs end).
  destruct (wire (now, task)) as [data|].
  - destruct (IH (redis.with_db c (redis.set_queue (redis.db c)
                     (data :: redis.webhook_queue (redis.db c)))) Hf) as [Hf' Hq].
    split; [exact Hf'|]. rewrite Hq. cbn. rewrite <- app_assoc. reflexivity.
  - apply IH, Hf.
Qed.

Lemma dequeue_n_healthy (q : list string) :
  forall c : redis.Client,
    redis.faults c = [] ->
    redis.webhook_queue (redis.db c) = q ->
    (dequeue_n (length q) c).1 = List.map received (rev q).
Proof.
  induction q as [|x q IH] using rev_ind; intros c Hf Hq; [reflexivity|].
  rewrite length_app, Nat.add_comm, rev_app_distr. cbn [length Nat.add dequeue_n rev app List.map].
  unfold queue.Dequeue, redis.BRPop, redis.next_fault. rewrite Hf, Hq, last_snoc.
  rewrite removelast_last. fold (received x).
  specialize (IH (redis.with_db c (redis.set_queue (redis.db c) q)) Hf eq_refl).
  destruct (queue.Unmarshal x) eqn:Hx;
    destruct (dequeue_n (length q) _) as [rs c']; cbn [fst] in *; rewrite IH;
    f_equal; unfold received; rewrite Hx; reflexivity.
Qed.

(** C8: on one broker, whatever tasks are enqueued, and whatever the list
    already holds, a single consumer receives the older elements first and
    then the enqueued tasks in the order of their enqueue. *)
Theorem broker_is_fifo (jobs : list (time.Time * queue.Task)) (c : redis.Client) :
  redis.faults c = [] ->
  (dequeue_n (length (redis.webhook_queue (redis.db c)) + length (omap wire jobs))
     (enqueue_all jobs c)).1
  = List.map received (rev (redis.webhook_queue (redis.db c)) ++ omap wire jobs).
Proof.
  intros Hf. destruct (enqueue_all_queue jobs c Hf) as [Hf' Hq].
  pose proof (dequeue_n_healthy _ _ Hf' Hq) as Hd.
  rewrite length_app, length_rev, rev_app_distr, rev_involutive, Nat.add_comm in Hd.
  exact Hd.
Qed.

(** ** HTTP entry point *)

Lemma fixed_Allow_queue (l : ratelimit.FixedWindowLimiter) (now : Z) (userID : string)
    (c : redis.Client) :
  redis.webhook_queue (redis.db (ratelimit.fixed_Allow l now userID c).2)
  = redis.webhook_queue (redis.db c).
Proof.
  unfold ratelimit.fixed_Allow.
  assert (HI : redis.webhook_queue (redis.db (redis.Incr now (rate_key userID) c).2)
               = redis.webhook_queue (redis.db c)).
  { unfold redis.Incr, redis.next_fault.
    destruct (redis.faults c) as [|[] f]; cbn; try reflexivity;
      (destruct (_ !! _) as [k|]; [destruct (redis.live now k); [destruct (_ =? _)|]|]);
      reflexivity. }
  assert (HE : forall c1, redis.webhook_queue
                 (redis.db (redis.Expire now (rate_key userID) (ratelimit.window l) c1).2)
               = redis.webhook_queue (redis.db c1)).
  { intros c1. unfold redis.Expire, redis.next_fault.
    destruct (redis.faults c1) as [|[] f]; cbn; try reflexivity;
      (destruct (_ !! _) as [k|]; [destruct (redis.live now k)|]); reflexivity. }
  fold (rate_key userID).
  destruct (redis.Incr now (rate_key userID) c) as [[n|e] c1]; cbn [snd] in *; [|exact HI].
  destruct (n =? 1); destruct (_ <? _); cbn [snd]; rewrite ?HE; exact HI.
Qed.

(** C10: when the handler of [/send] answers 202, the element it has pushed
    on the broker is the serialization of the task whose payload is the
    request's data and whose retry count is zero, stamped with the time of
    the call. *)
Theorem accepted_task_has_zero_retries (l : ratelimit.FixedWindowLimiter) (now : time.Time)
    (r : cmd_api.Request) (c c' : redis.Client) :
  cmd_api.send (H := ratelimit.fixed_window_limiter) l now r c = (cmd_api.StatusAccepted, c') ->
  exists req data,
    cmd_api.Body r = Some req
    /\ queue.Marshal {| queue.Payload := cmd_api.Data req; queue.RetryCount := 0;
                        queue.CreatedAt := now |} = Some data
    /\ redis.webhook_queue (redis.db c') = data :: redis.webhook_queue (redis.db c).
Proof.
  unfold cmd_api.send, cmd_api.StatusAccepted, cmd_api.StatusMethodNotAllowed,
    cmd_api.StatusBadRequest, cmd_api.StatusTooManyRequests,
    cmd_api.StatusInternalServerError.
  destruct (negb _); [intros Hx; discriminate Hx|].
  destruct (cmd_api.Body r) as [req|]; [|intros Hx; discriminate Hx].
  destruct (String.eqb _ _); [intros Hx; discriminate Hx|].
  pose proof (fixed_Allow_queue l now (cmd_api.UserID req) c) as Hq.
  cbn [ratelimit.Allow ratelimit.fixed_window_limiter].
  destruct (ratelimit.fixed_Allow l now (cmd_api.UserID req) c) as [[allowed [e|]] c1];
    [destruct allowed; intros Hx; discriminate Hx|].
  destruct allowed; [|intros Hx; discriminate Hx].
  unfold queue.Enqueue. cbn [queue.CreatedAt queue.Payload queue.RetryCount].
  change (time.IsZero time.zero) with true. cbn iota.
  destruct (queue.Marshal _) as [data|] eqn:Hdata; [|intros Hx; discriminate Hx].
  unfold redis.LPush, redis.next_fault. intros Hsend.
  exists req, data. split; [reflexivity|]. split; [exact Hdata|].
  cbn [snd] in Hq. rewrite <- Hq.
  destruct (redis.faults c1) as [|[] f]; cbn in Hsend; simplify_eq; reflexivity.
Qed.

Lemma accepted_task_has_zero_retries_witness :
  exists req data,
    Some {| cmd_api.UserID := "u1"; cmd_api.Data := "x" |} = Some req
    /\ queue.Marshal {| queue.Payload := cmd_api.Data req; queue.RetryCount := 0;
                        queue.CreatedAt := 1700000000 * Second |} = Some data
    /\ redis.webhook_queue
         (redis.db
            (cmd_api.send (H := ratelimit.fixed_window_limiter) cmd_api.limiter
               (1700000000 * Second)
               {| cmd_api.Method := "POST";
                  cmd_api.Body := Some {| cmd_api.UserID := "u1"; cmd_api.Data := "x" |} |}
               (redis.healthy empty_store)).2)
       = [data].
Proof.
  exact (accepted_task_has_zero_retries cmd_api.limiter (1700000000 * Second)
           {| cmd_api.Method := "POST";
              cmd_api.Body := Some {| cmd_api.UserID := "u1"; cmd_api.Data := "x" |} |}
           (redis.healthy empty_store) _ ltac:(vm_compute; reflexivity)).
Defined.

(** ** Worker: the failure branch *)

(** The task as [handleFailure] stores it: one more retry on its count. *)
Lemma handleFailure_cases {S : Type} `{backoff.Strategy S} (strategy : S) (now : time.Time)
    (task : queue.Task) (c : redis.Client) :
  (5 <= queue.RetryCount task -> worker.handleFailure strategy now task c = c)
  /\ (queue.RetryCount task < 5 ->
      worker.handleFailure strategy now task c
      = worker.scheduleRetry now
          {| queue.Payload := queue.Payload task;
             queue.RetryCount := queue.RetryCount task + 1;
             queue.CreatedAt := queue.CreatedAt task |}
          (backoff.GetNextInterval strategy (queue.RetryCount task)) c).
Proof.
  unfold worker.handleFailure. split; intros Hn.
  - destruct (Z.leb_spec 5 (queue.RetryCount task)); [reflexivity | lia].
  - destruct (Z.leb_spec 5 (queue.RetryCount task)); [lia | reflexivity].
Qed.

Lemma scheduleRetry_healthy (now : time.Time) (task : queue.Task) (delay : Z)
    (c : redis.Client) (data : string) :
  queue.Marshal task = Some data ->
  redis.faults c = [] ->
  worker.scheduleRetry now task delay c
  = redis.with_db c (redis.set_schedule (redis.db c)
      (redis.zinsert (time.Unix (time.Add now delay), data)
         (redis.zremove data (redis.retry_schedule (redis.db c))))).
Proof.
  intros Hdata Hf. unfold worker.scheduleRetry, redis.ZAdd, redis.next_fault.
  rewrite Hdata, Hf. destruct c; reflexivity.
Qed.

(** C9: with base 1s, factor 2.0 and cap 1h the intervals for the counts 0,
    1 and 2 are 1s, 2s and 4s, and a failure of a task whose count is below
    five stores the task, with its count incremented, at the score computed
    from the interval of the count it carried before the increment. *)
Theorem retry_delay_uses_prior_count (arch : backoff.Arch) (now : time.Time)
    (task : queue.Task) (c : redis.Client) (data : string) :
  queue.RetryCount task < 5 ->
  redis.faults c = [] ->
  queue.Marshal {| queue.Payload := queue.Payload task;
                   queue.RetryCount := queue.RetryCount task + 1;
                   queue.CreatedAt := queue.CreatedAt task |} = Some data ->
  backoff.exponential_GetNextInterval arch retryStrategy 0 = 1 * Second
  /\ backoff.exponential_GetNextInterval arch retryStrategy 1 = 2 * Second
  /\ backoff.exponential_GetNextInterval arch retryStrategy 2 = 4 * Second
  /\ redis.retry_schedule
       (redis.db (worker.handleFailure (H := backoff.exponential_strategy arch)
                    retryStrategy now task c))
     = redis.zinsert
         (time.Unix (time.Add now
            (backoff.exponential_GetNextInterval arch retryStrategy (queue.RetryCount task))),
          data)
         (redis.zremove data (redis.retry_schedule (redis.db c))).
Proof.
  intros Hn Hf Hdata.
  repeat (split; [rewrite GetNextInterval_exact by lia; reflexivity|]).
  rewrite (proj2 (handleFailure_cases _ now task c) Hn).
  rewrite (scheduleRetry_healthy _ _ _ _ _ Hdata Hf). reflexivity.
Qed.

(** ** Bytes *)

Lemma byte_val_range (c : ascii) : 0 <= byte_val c < 256.
Proof.
  unfold byte_val. pose proof (N_ascii_bounded c). lia.
Qed.

Lemma chr_byte_val (c : ascii) : chr (byte_val c) = c.
Proof.
  unfold chr, byte_val. rewrite N2Z.id. apply ascii_N_embedding.
Qed.

Lemma byte_val_chr (b : Z) : 0 <= b < 256 -> byte_val (chr b) = b.
Proof.
  intros Hb. unfold chr, byte_val. rewrite N_ascii_embedding by lia. lia.
Qed.

Lemma all_from_spec (P : Z -> bool) (n : nat) :
  forall lo, all_from lo n P = true -> forall b, lo <= b < lo + Z.of_nat n -> P b = true.
Proof.
  induction n as [|n IH]; intros lo Hall b Hb; [lia|].
  cbn in Hall. apply andb_true_iff in Hall as [Hlo Hall].
  destruct (Z.eq_dec b lo) as [->|Hne]; [exact Hlo|].
  apply (IH (lo + 1) Hall). lia.
Qed.

Lemma all_between_spec (lo hi : Z) (P : Z -> bool) :
  all_between lo hi P = true -> forall b, lo <= b <= hi -> P b = true.
Proof.
  unfold all_between. intros Hall b Hb. apply (all_from_spec _ _ _ Hall). lia.
Qed.

(** ** UTF-8: encoding what was decoded *)

Lemma between_spec (lo hi b : Z) : utf8.between lo hi b = true <-> lo <= b <= hi.
Proof. unfold utf8.between. rewrite andb_true_iff, !Z.leb_le. reflexivity. Qed.

Lemma between_false (lo hi b : Z) : ~ lo <= b <= hi -> utf8.between lo hi b = false.
Proof.
  intros Hn. destruct (utf8.between lo hi b) eqn:E; [|reflexivity].
  apply between_spec in E. contradiction.
Qed.

(** Bits put above the [k] lowest ones are added to them. *)
Lemma lor_shiftl (x l k : Z) :
  0 <= k -> 0 <= l < 2 ^ k -> Z.lor (Z.shiftl x k) l = x * 2 ^ k + l.
Proof.
  intros Hk Hl.
  assert (Hland : Z.land (Z.shiftl x k) l = 0).
  { apply Z.bits_inj'. intros n Hn. rewrite Z.land_spec, Z.bits_0.
    destruct (Z.lt_ge_cases n k) as [Hlt|Hge].
    - rewrite Z.shiftl_spec_low by assumption. reflexivity.
    - destruct (Z.eq_dec l 0) as [->|Hne];
        [rewrite Z.bits_0; apply andb_false_r|].
      rewrite (Z.bits_above_log2 l n), andb_false_r; [reflexivity|lia|].
      apply Z.lt_le_trans with k; [|assumption].
      apply Z.log2_lt_pow2; lia. }
  rewrite <- Z.lxor_lor, <- Z.add_nocarry_lxor, Z.shiftl_mul_pow2 by assumption.
  reflexivity.
Qed.

Lemma land_0x3F (b : Z) : Z.land b 0x3F = b mod 64.
Proof. change 0x3F with (Z.ones 6). rewrite Z.land_ones by lia. reflexivity. Qed.

Lemma land_0x1F (b : Z) : Z.land b 0x1F = b mod 32.
Proof. change 0x1F with (Z.ones 5). rewrite Z.land_ones by lia. reflexivity. Qed.

Lemma land_0x0F (b : Z) : Z.land b 0x0F = b mod 16.
Proof. change 0x0F with (Z.ones 4). rewrite Z.land_ones by lia. reflexivity. Qed.

Lemma land_0x07 (b : Z) : Z.land b 0x07 = b mod 8.
Proof. change 0x07 with (Z.ones 3). rewrite Z.land_ones by lia. reflexivity. Qed.

Lemma lor_0x80 (y : Z) : 0 <= y < 64 -> Z.lor 0x80 y = 0x80 + y.
Proof. intros Hy. change 0x80 with (Z.shiftl 2 6) at 1. rewrite lor_shiftl; lia. Qed.

Lemma lor_0xC0 (y : Z) : 0 <= y < 32 -> Z.lor 0xC0 y = 0xC0 + y.
Proof. intros Hy. change 0xC0 with (Z.shiftl 6 5) at 1. rewrite lor_shiftl; lia. Qed.

Lemma lor_0xE0 (y : Z) : 0 <= y < 16 -> Z.lor 0xE0 y = 0xE0 + y.
Proof. intros Hy. change 0xE0 with (Z.shiftl 14 4) at 1. rewrite lor_shiftl; lia. Qed.

Lemma lor_0xF0 (y : Z) : 0 <= y < 8 -> Z.lor 0xF0 y = 0xF0 + y.
Proof. intros Hy. change 0xF0 with (Z.shiftl 30 3) at 1. rewrite lor_shiftl; lia. Qed.

(** The last byte of an encoding: the six low bits of the rune. *)
Lemma cont_low (r : Z) : Z.lor 0x80 (Z.land r 0x3F) = 0x80 + r mod 64.
Proof.
  rewrite land_0x3F. apply lor_0x80. apply Z.mod_pos_bound. lia.
Qed.

(** A byte in the middle of an encoding: six bits of the rune from bit [k]. *)
Lemma cont_mid (r k : Z) :
  0 <= k -> Z.lor 0x80 (Z.land (Z.shiftr r k) 0x3F) = 0x80 + (r / 2 ^ k) mod 64.
Proof.
  intros Hk. rewrite Z.shiftr_div_pow2 by assumption. apply cont_low.
Qed.

Lemma rune2_val (b0 b1 : Z) :
  0xC0 <= b0 <= 0xDF -> 0x80 <= b1 <= 0xBF ->
  utf8.rune2 b0 b1 = (b0 - 0xC0) * 64 + (b1 - 0x80).
Proof.
  intros H0 H1. unfold utf8.rune2. rewrite land_0x1F, land_0x3F.
  replace (b0 mod 32) with (b0 - 0xC0) by (apply Z.mod_unique with 6; lia).
  replace (b1 mod 64) with (b1 - 0x80) by (apply Z.mod_unique with 2; lia).
  rewrite lor_shiftl; lia.
Qed.

Lemma rune3_val (b0 b1 b2 : Z) :
  0xE0 <= b0 <= 0xEF -> 0x80 <= b1 <= 0xBF -> 0x80 <= b2 <= 0xBF ->
  utf8.rune3 b0 b1 b2 = (b0 - 0xE0) * 4096 + (b1 - 0x80) * 64 + (b2 - 0x80).
Proof.
  intros H0 H1 H2. unfold utf8.rune3. rewrite land_0x0F, !land_0x3F.
  replace (b0 mod 16) with (b0 - 0xE0) by (apply Z.mod_unique with 14; lia).
  replace (b1 mod 64) with (b1 - 0x80) by (apply Z.mod_unique with 2; lia).
  replace (b2 mod 64) with (b2 - 0x80) by (apply Z.mod_unique with 2; lia).
  rewrite (lor_shiftl (b1 - 0x80)) by lia.
  rewrite lor_shiftl; lia.
Qed.

Lemma rune4_val (b0 b1 b2 b3 : Z) :
  0xF0 <= b0 <= 0xF7 -> 0x80 <= b1 <= 0xBF -> 0x80 <= b2 <= 0xBF -> 0x80 <= b3 <= 0xBF ->
  utf8.rune4 b0 b1 b2 b3
  = (b0 - 0xF0) * 262144 + (b1 - 0x80) * 4096 + (b2 - 0x80) * 64 + (b3 - 0x80).
Proof.
  intros H0 H1 H2 H3. unfold utf8.rune4. rewrite land_0x07, !land_0x3F.
  replace (b0 mod 8) with (b0 - 0xF0) by (apply Z.mod_unique with 30; lia).
  replace (b1 mod 64) with (b1 - 0x80) by (apply Z.mod_unique with 2; lia).
  replace (b2 mod 64) with (b2 - 0x80) by (apply Z.mod_unique with 2; lia).
  replace (b3 mod 64) with (b3 - 0x80) by (apply Z.mod_unique with 2; lia).
  rewrite (lor_shiftl (b2 - 0x80)) by lia.
  rewrite (lor_shiftl (b1 - 0x80)) by lia.
  rewrite lor_shiftl; lia.
Qed.

Lemma second_range (b0 b1 : Z) :
  utf8.between (utf8.second_lo b0) (utf8.second_hi b0) b1 = true ->
  0x80 <= b1 <= 0xBF
  /\ (b0 = 0xE0 -> 0xA0 <= b1) /\ (b0 = 0xED -> b1 <= 0x9F)
  /\ (b0 = 0xF0 -> 0x90 <= b1) /\ (b0 = 0xF4 -> b1 <= 0x8F).
Proof.
  intros H. apply between_spec in H. unfold utf8.second_lo, utf8.second_hi in H.
  repeat match type of H with
         | context [?x =? ?y] => destruct (Z.eqb_spec x y)
         end; lia.
Qed.

Lemma encode_rune2 (c0 c1 : ascii) :
  utf8.between 0xC2 0xDF (byte_val c0) = true ->
  utf8.cont (byte_val c1) = true ->
  utf8.EncodeRune (utf8.rune2 (byte_val c0) (byte_val c1)) = String c0 (str1 c1).
Proof.
  intros H0 H1. apply between_spec in H0, H1.
  rewrite rune2_val by lia.
  set (r := (byte_val c0 - 0xC0) * 64 + (byte_val c1 - 0x80)).
  assert (Hr : 0x80 <= r <= 0x7FF) by (unfold r; lia).
  unfold utf8.EncodeRune.
  rewrite (between_false 0 0x7F) by lia.
  rewrite (proj2 (between_spec 0 0x7FF r)) by lia.
  rewrite cont_low, Z.shiftr_div_pow2, lor_0xC0 by first
    [lia | unfold r; split; [apply Z.div_pos | apply Z.div_lt_upper_bound]; lia].
  replace (0xC0 + r / 2 ^ 6) with (byte_val c0)
    by (unfold r; change (2 ^ 6) with 64; Z.div_mod_to_equations; lia).
  replace (0x80 + r mod 64) with (byte_val c1)
    by (unfold r; Z.div_mod_to_equations; lia).
  rewrite !chr_byte_val. reflexivity.
Qed.

Lemma encode_rune3 (c0 c1 c2 : ascii) :
  utf8.between 0xE0 0xEF (byte_val c0) = true ->
  utf8.between (utf8.second_lo (byte_val c0)) (utf8.second_hi (byte_val c0)) (byte_val c1) = true ->
  utf8.cont (byte_val c2) = true ->
  utf8.EncodeRune (utf8.rune3 (byte_val c0) (byte_val c1) (byte_val c2))
  = String c0 (String c1 (str1 c2)).
Proof.
  intros H0 H1 H2. apply between_spec in H0, H2.
  apply second_range in H1 as (H1 & HE0 & HED & _ & _).
  rewrite rune3_val by lia.
  set (r := (byte_val c0 - 0xE0) * 4096 + (byte_val c1 - 0x80) * 64 + (byte_val c2 - 0x80)).
  assert (Hr : 0x800 <= r <= 0xFFFF /\ ~ 0xD800 <= r <= 0xDFFF) by (unfold r; lia).
  unfold utf8.EncodeRune.
  rewrite (between_false 0 0x7F), (between_false 0 0x7FF),
    (between_false 0xD800 0xDFFF) by lia.
  rewrite (proj2 (Z.ltb_ge r 0)), (proj2 (Z.ltb_ge 0x10FFFF r)),
    (proj2 (Z.leb_le r 0xFFFF)) by lia.
  cbn [orb]. unfold utf8.enc3.
  rewrite cont_mid, cont_low, Z.shiftr_div_pow2, lor_0xE0 by first
    [lia | unfold r; split; [apply Z.div_pos | apply Z.div_lt_upper_bound]; lia].
  replace (0xE0 + r / 2 ^ 12) with (byte_val c0)
    by (unfold r; change (2 ^ 12) with 4096; Z.div_mod_to_equations; lia).
  replace (0x80 + (r / 2 ^ 6) mod 64) with (byte_val c1)
    by (unfold r; change (2 ^ 6) with 64; Z.div_mod_to_equations; lia).
  replace (0x80 + r mod 64) with (byte_val c2)
    by (unfold r; Z.div_mod_to_equations; lia).
  rewrite !chr_byte_val. reflexivity.
Qed.

Lemma encode_rune4 (c0 c1 c2 c3 : ascii) :
  utf8.between 0xF0 0xF4 (byte_val c0) = true ->
  utf8.between (utf8.second_lo (byte_val c0)) (utf8.second_hi (byte_val c0)) (byte_val c1) = true ->
  utf8.cont (byte_val c2) = true ->
  utf8.cont (byte_val c3) = true ->
  utf8.EncodeRune (utf8.rune4 (byte_val c0) (byte_val c1) (byte_val c2) (byte_val c3))
  = String c0 (String c1 (String c2 (str1 c3))).
Proof.
  intros H0 H1 H2 H3. apply between_spec in H0, H2, H3.
  apply second_range in H1 as (H1 & _ & _ & HF0 & HF4).
  rewrite rune4_val by lia.
  set (r := (byte_val c0 - 0xF0) * 262144 + (byte_val c1 - 0x80) * 4096
            + (byte_val c2 - 0x80) * 64 + (byte_val c3 - 0x80)).
  assert (Hr : 0x10000 <= r <= 0x10FFFF) by (unfold r; lia).
  unfold utf8.EncodeRune.
  rewrite (between_false 0 0x7F), (between_false 0 0x7FF),
    (between_false 0xD800 0xDFFF) by lia.
  rewrite (proj2 (Z.ltb_ge r 0)), (proj2 (Z.ltb_ge 0x10FFFF r)),
    (proj2 (Z.leb_gt r 0xFFFF)) by lia.
  cbn [orb].
  rewrite !cont_mid, cont_low, Z.shiftr_div_pow2, lor_0xF0 by first
    [lia | unfold r; split; [apply Z.div_pos | apply Z.div_lt_upper_bound]; lia].
  replace (0xF0 + r / 2 ^ 18) with (byte_val c0)
    by (unfold r; change (2 ^ 18) with 262144; Z.div_mod_to_equations; lia).
  replace (0x80 + (r / 2 ^ 12) mod 64) with (byte_val c1)
    by (unfold r; change (2 ^ 12) with 4096; Z.div_mod_to_equations; lia).
  replace (0x80 + (r / 2 ^ 6) mod 64) with (byte_val c2)
    by (unfold r; change (2 ^ 6) with 64; Z.div_mod_to_equations; lia).
  replace (0x80 + r mod 64) with (byte_val c3)
    by (unfold r; Z.div_mod_to_equations; lia).
  rewrite !chr_byte_val. reflexivity.
Qed.

Lemma append_assoc (a b c : string) : (a +:+ b) +:+ c = a +:+ (b +:+ c).
Proof. induction a as [|x a IH]; cbn; [reflexivity | rewrite IH; reflexivity]. Qed.

Lemma append_nil_r (a : string) : a +:+ EmptyString = a.
Proof. induction a as [|x a IH]; cbn; [reflexivity | rewrite IH; reflexivity]. Qed.

Lemma substring_0_0 (a : string) : substring 0 0 a = EmptyString.
Proof. destruct a; reflexivity. Qed.

Lemma substring_prefix (a b : string) : substring 0 (String.length a) (a +:+ b) = a.
Proof. induction a as [|x a IH]; cbn; [destruct b; reflexivity | rewrite IH; reflexivity]. Qed.

Lemma substring_all (a : string) : substring 0 (String.length a) a = a.
Proof. rewrite <- (append_nil_r a) at 2. apply substring_prefix. Qed.

Lemma DecodeRune_decoded (c0 : ascii) (rest : string) :
  0x80 <= byte_val c0 ->
  decoded (String c0 rest) (utf8.DecodeRune (String c0 rest)).
Proof.
  intros Hc0. unfold utf8.DecodeRune.
  destruct (Z.ltb_spec (byte_val c0) utf8.RuneSelf) as [Hlt|_];
    [unfold utf8.RuneSelf in Hlt; lia|].
  destruct (utf8.between 0xC2 0xDF (byte_val c0)) eqn:H2.
  { destruct rest as [|c1 rest1]; [constructor|].
    destruct (utf8.cont (byte_val c1)) eqn:Hc1; [|constructor].
    apply (decoded_rune _ _ (String c0 (str1 c1)) rest1);
      [reflexivity | cbn; lia | apply encode_rune2; assumption |].
    intros Y. cbn. destruct (Z.ltb_spec (byte_val c0) utf8.RuneSelf) as [Hlt|_];
      [unfold utf8.RuneSelf in Hlt; lia|].
    rewrite H2, Hc1. reflexivity. }
  destruct (utf8.between 0xE0 0xEF (byte_val c0)) eqn:H3.
  { destruct rest as [|c1 [|c2 rest2]]; [constructor | constructor |].
    destruct (utf8.between _ _ (byte_val c1) && utf8.cont (byte_val c2)) eqn:Hc;
      [|constructor].
    apply andb_true_iff in Hc as [Hc1 Hc2].
    apply (decoded_rune _ _ (String c0 (String c1 (str1 c2))) rest2);
      [reflexivity | cbn; lia | apply encode_rune3; assumption |].
    intros Y. cbn. destruct (Z.ltb_spec (byte_val c0) utf8.RuneSelf) as [Hlt|_];
      [unfold utf8.RuneSelf in Hlt; lia|].
    rewrite H2, H3, Hc1, Hc2. reflexivity. }
  destruct (utf8.between 0xF0 0xF4 (byte_val c0)) eqn:H4; [|constructor].
  destruct rest as [|c1 [|c2 [|c3 rest3]]]; [constructor | constructor | constructor |].
  destruct (utf8.between _ _ (byte_val c1) && utf8.cont (byte_val c2)
            && utf8.cont (byte_val c3)) eqn:Hc; [|constructor].
  apply andb_true_iff in Hc as [Hc Hc3]. apply andb_true_iff in Hc as [Hc1 Hc2].
  apply (decoded_rune _ _ (String c0 (String c1 (String c2 (str1 c3)))) rest3);
    [reflexivity | cbn; lia | apply encode_rune4; assumption |].
  intros Y. cbn. destruct (Z.ltb_spec (byte_val c0) utf8.RuneSelf) as [Hlt|_];
    [unfold utf8.RuneSelf in Hlt; lia|].
  rewrite H2, H3, H4, Hc1, Hc2, Hc3. reflexivity.
Qed.

(** ** JSON string literals *)

Lemma unquote_skip (p Y : string) :
  json.unquote_body (String.length p) (p +:+ Y) = json.unquote_body 0 Y.
Proof. induction p as [|x p IH]; [reflexivity | exact IH]. Qed.

Lemma decodes_to_step (written out : string) :
  match written with
  | String h _ =>
      Ascii.eqb h quote = false
      /\ forall Y, json.unquote_step (written +:+ Y) = Some (out, String.length written)
  | EmptyString => False
  end ->
  decodes_to written out.
Proof.
  destruct written as [|h w]; [intros []|]. intros [Hq Hstep] Y.
  specialize (Hstep Y). cbn [String.append json.unquote_body] in *.
  rewrite Hq, Hstep. cbn [mbind option_bind String.length].
  rewrite Nat.sub_succ, Nat.sub_0_r, unquote_skip. reflexivity.
Qed.

Lemma unquote_ascii (c : ascii) :
  byte_val c < 0x80 -> decodes_to (json.escape_ascii c) (str1 c).
Proof.
  intros Hc. apply decodes_to_step.
  destruct c as [[] [] [] [] [] [] [] []];
    try (exfalso; vm_compute in Hc; discriminate Hc);
    vm_compute; (split; [reflexivity | intros Y; reflexivity]).
Qed.

Lemma unquote_invalid :
  decodes_to (String backslash "ufffd") (utf8.enc3 utf8.RuneError).
Proof.
  apply decodes_to_step. vm_compute. split; [reflexivity | intros Y; reflexivity].
Qed.

Lemma unquote_line_separator (r : Z) :
  r = 0x2028 \/ r = 0x2029 ->
  decodes_to (String backslash "u202" +:+ str1 (json.hex_digit (Z.land r 0xF)))
    (utf8.EncodeRune r).
Proof.
  intros [-> | ->]; apply decodes_to_step; vm_compute;
    (split; [reflexivity | intros Y; reflexivity]).
Qed.

Lemma unquote_raw (r : Z) (c0 : ascii) (chunk' : string) :
  0x80 <= byte_val c0 ->
  (forall Y, utf8.DecodeRune (String c0 chunk' +:+ Y) = (r, S (String.length chunk'))) ->
  decodes_to (String c0 chunk') (utf8.EncodeRune r).
Proof.
  intros Hc0 Hdec. apply decodes_to_step. split.
  { apply Ascii.eqb_neq. intros ->. vm_compute in Hc0. apply Hc0. reflexivity. }
  intros Y. cbn [String.append String.length]. unfold json.unquote_step.
  destruct (Z.eqb_spec (byte_val c0) 92) as [|_]; [lia|].
  destruct (Z.eqb_spec (byte_val c0) 34) as [|_]; [lia|].
  destruct (Z.ltb_spec (byte_val c0) 32) as [|_]; [lia|].
  destruct (Z.ltb_spec (byte_val c0) utf8.RuneSelf) as [Hlt|_];
    [unfold utf8.RuneSelf in Hlt; lia|].
  cbn [orb]. specialize (Hdec Y). cbn [String.append] in Hdec. rewrite Hdec.
  reflexivity.
Qed.

(** A string literal written by [Marshal] is read back as the coerced
    string, whatever follows the literal. *)
Lemma string_roundtrip (s : string) :
  forall (k : nat) (tl : string),
    json.unquote_body 0 (json.appendString k s +:+ String quote tl)
    = Some (json.coerced k s, tl).
Proof.
  induction s as [|c rest IH]; intros k tl; [reflexivity|].
  destruct k as [|k]; [|apply IH].
  cbn [json.appendString json.coerced].
  destruct (Z.ltb_spec (byte_val c) utf8.RuneSelf) as [Hascii|Hmulti].
  - unfold utf8.DecodeRune.
    destruct (Z.ltb_spec (byte_val c) utf8.RuneSelf) as [_|Hge]; [|lia].
    destruct (Z.eqb_spec (byte_val c) utf8.RuneError) as [He|_];
      [unfold utf8.RuneSelf, utf8.RuneError in *; lia|].
    cbn [andb]. rewrite append_assoc, (unquote_ascii c Hascii), IH. cbn.
    rewrite substring_0_0. reflexivity.
  - pose proof (DecodeRune_decoded c rest Hmulti) as Hd.
    destruct (utf8.DecodeRune (String c rest)) as [r size].
    inversion Hd as [[Hr Hsize] | r' chunk tail Hs Hlen Henc Hdec [Hr Hsize]]; clear Hd.
    + rewrite Z.eqb_refl. cbn [Nat.eqb andb].
      rewrite append_assoc, unquote_invalid, IH. cbn. reflexivity.
    + destruct chunk as [|c0 chunk']; [cbn in Hlen; lia|].
      cbn [String.append] in Hs. injection Hs as Hc Hrest. subst c rest.
      cbn [String.length] in *.
      replace ((r =? utf8.RuneError) && (S (String.length chunk') =? 1)%nat) with false
        by (destruct (String.length chunk'); [lia | rewrite andb_false_r; reflexivity]).
      change (String c0 (chunk' +:+ tail)) with (String c0 chunk' +:+ tail).
      rewrite (substring_prefix (String c0 chunk') tail : substring 0 (S (String.length chunk')) _ = _).
      rewrite Nat.sub_succ, Nat.sub_0_r.
      destruct ((r =? 0x2028) || (r =? 0x2029)) eqn:Hsep.
      * assert (Hr' : r = 0x2028 \/ r = 0x2029)
          by (apply orb_true_iff in Hsep as [?%Z.eqb_eq | ?%Z.eqb_eq]; auto).
        pose proof (unquote_line_separator r Hr'
                      (json.appendString (String.length chunk') (chunk' +:+ tail)
                       +:+ String quote tl)) as Hl.
        unfold str1 in Hl. cbn [String.append] in Hl |- *.
        rewrite Hl, IH, Henc. cbn. reflexivity.
      * rewrite append_assoc, (unquote_raw r c0 chunk' Hmulti Hdec), IH, Henc. cbn. reflexivity.
Qed.

Lemma substring_split (s : string) :
  forall n : nat, substring 0 n s +:+ substring n (String.length s - n) s = s.
Proof.
  induction s as [|x s IH]; intros [|n]; cbn; try reflexivity.
  - rewrite substring_all. reflexivity.
  - rewrite IH. reflexivity.
Qed.

Lemma DecodeRune_size (c : ascii) (rest : string) :
  (1 <= (utf8.DecodeRune (String c rest)).2)%nat.
Proof.
  unfold utf8.DecodeRune.
  repeat (match goal with
          | |- context [match ?x with _ => _ end] => destruct x
          end; try (cbn; lia)).
Qed.

Lemma coerced_valid (s : string) :
  forall k : nat,
    utf8.valid_from k s = true ->
    json.coerced k s = substring k (String.length s - k) s.
Proof.
  induction s as [|c rest IH]; intros k Hv; [destruct k; reflexivity|].
  destruct k as [|k]; [|apply IH, Hv].
  cbn [utf8.valid_from json.coerced] in *.
  pose proof (DecodeRune_size c rest) as Hsize.
  destruct (utf8.DecodeRune (String c rest)) as [r size].
  destruct ((r =? utf8.RuneError) && (size =? 1)%nat); [discriminate|].
  rewrite (IH _ Hv). cbn [snd] in Hsize.
  destruct size as [|n]; [lia|].
  rewrite Nat.sub_succ, !Nat.sub_0_r, substring_all.
  cbn [substring String.append]. rewrite substring_split. reflexivity.
Qed.

(** A valid UTF-8 string is read back unchanged. *)
Lemma string_roundtrip_valid (s tl : string) :
  utf8.ValidString s = true ->
  json.decodeString (json.encodeString s +:+ tl) = Some (s, tl).
Proof.
  intros Hv. unfold json.decodeString, json.encodeString.
  cbn [String.append]. change (Ascii.eqb quote quote) with true. cbn iota.
  unfold str1. rewrite append_assoc. cbn [String.append].
  rewrite string_roundtrip, (coerced_valid s 0 Hv), Nat.sub_0_r, substring_all.
  reflexivity.
Qed.

(** ** JSON numbers *)

Lemma string_of_uint_chars (u : Decimal.uint) :
  all_chars json.is_int_char (NilEmpty.string_of_uint u) = true.
Proof. induction u; cbn [NilEmpty.string_of_uint all_chars]; try rewrite IHu; reflexivity. Qed.

Lemma encodeInt_chars (n : Z) : all_chars json.is_int_char (json.encodeInt n) = true.
Proof.
  unfold json.encodeInt. destruct n as [|p|p]; cbn [Z.to_int NilZero.string_of_int];
    [reflexivity | |]; unfold NilZero.string_of_uint;
    pose proof (string_of_uint_chars (Pos.to_uint p)) as Hu;
    destruct (Pos.to_uint p); try reflexivity; cbn [all_chars]; rewrite ?Hu; reflexivity.
Qed.

Lemma span_int_app (ds : string) (c : ascii) (X : string) :
  all_chars json.is_int_char ds = true ->
  json.is_int_char c = false ->
  json.span_int (ds +:+ String c X) = (ds, String c X).
Proof.
  intros Hds Hc. induction ds as [|d ds IH]; cbn [String.append json.span_int].
  - rewrite Hc. reflexivity.
  - cbn [all_chars] in Hds. apply andb_true_iff in Hds as [Hd Hds].
    rewrite Hd, (IH Hds). reflexivity.
Qed.

Lemma int_of_string_encodeInt (n : Z) :
  NilZero.int_of_string (json.encodeInt n) = Some (Z.to_int n).
Proof.
  unfold json.encodeInt. apply NilZero.isi.
  - destruct n as [|p|p]; cbn; try discriminate.
    intros [= Hp]. exact (Unsigned.to_uint_nonnil p Hp).
  - destruct n as [|p|p]; cbn; try discriminate.
    intros [= Hp]. exact (Unsigned.to_uint_nonnil p Hp).
Qed.

(** A retry count within [int64] is read back, up to the separator that
    follows it. *)
Lemma int_roundtrip (n : Z) (c : ascii) (X : string) :
  backoff.min_int64 <= n <= backoff.max_int64 ->
  json.is_int_char c = false ->
  json.decodeInt (json.encodeInt n +:+ String c X) = Some (n, String c X).
Proof.
  intros Hn Hc. unfold json.decodeInt.
  rewrite (span_int_app _ _ _ (encodeInt_chars n) Hc), int_of_string_encodeInt.
  cbn [mbind option_bind]. rewrite DecimalZ.of_to.
  destruct (Z.leb_spec backoff.min_int64 n); [|lia].
  destruct (Z.leb_spec n backoff.max_int64); [|lia].
  reflexivity.
Qed.

(** ** Calendar *)

Lemma doe_table : all_between 0 146096 check_doe = true.
Proof. vm_compute. reflexivity. Qed.

Lemma isLeap_period (y k : Z) : time.isLeap (y + k * 400) = time.isLeap y.
Proof.
  unfold time.isLeap.
  replace ((y + k * 400) mod 4) with (y mod 4)
    by (replace (k * 400) with (k * 100 * 4) by lia; rewrite Z.mod_add by lia; reflexivity).
  replace ((y + k * 400) mod 100) with (y mod 100)
    by (replace (k * 400) with (k * 4 * 100) by lia; rewrite Z.mod_add by lia; reflexivity).
  rewrite Z.mod_add by lia. reflexivity.
Qed.

(** A day number has a valid date, from which it is recovered. *)
Lemma civil_roundtrip (days : Z) :
  let '(y, m, d) := time.civil_from_days days in
  1 <= m <= 12 /\ 1 <= d <= time.daysIn m y /\ time.days_from_civil y m d = days.
Proof.
  unfold time.civil_from_days.
  set (z := days + 719468). set (era := z / 146097). set (doe := z - era * 146097).
  assert (Hdoe : 0 <= doe <= 146096) by (subst doe era; Z.div_mod_to_equations; lia).
  pose proof (all_between_spec _ _ _ doe_table doe Hdoe) as Hc. unfold check_doe in Hc.
  destruct (time.civil_of_doe doe) as [[y m] d].
  repeat (apply andb_true_iff in Hc as [Hc ?]).
  repeat match goal with
         | H : (_ <=? _) = true |- _ => apply Z.leb_le in H
         | H : (_ =? _) = true |- _ => apply Z.eqb_eq in H
         end.
  split; [lia|]. split.
  { unfold time.daysIn in *. rewrite isLeap_period. lia. }
  unfold time.days_from_civil.
  set (yoe := if m <=? 2 then y - 1 else y) in *.
  replace (if m <=? 2 then y + era * 400 - 1 else y + era * 400) with (yoe + era * 400)
    by (subst yoe; destruct (m <=? 2); lia).
  rewrite Z.div_add, (Z.div_small yoe 400) by lia.
  replace (yoe + era * 400 - (0 + era) * 400) with yoe by lia.
  subst doe z. lia.
Qed.

(** ** Decimal fields *)

Lemma digit_val_digit (d : Z) : 0 <= d <= 9 -> time.digit_val (time.digit d) = Some d.
Proof.
  intros Hd. unfold time.digit_val, time.digit. rewrite byte_val_chr by lia.
  destruct (Z.leb_spec 48 (48 + d)); [|lia]. destruct (Z.leb_spec (48 + d) 57); [|lia].
  cbn [andb]. f_equal. lia.
Qed.

Lemma parseUint_from_app (a b : string) :
  forall acc, time.parseUint_from acc (a +:+ b)
              = time.parseUint_from acc a ≫= fun v => time.parseUint_from v b.
Proof.
  induction a as [|c a IH]; intros acc; cbn [String.append time.parseUint_from];
    [reflexivity|].
  destruct (time.digit_val c) as [d|]; cbn [mbind option_bind]; [apply IH | reflexivity].
Qed.

Lemma parseUint_from_digits (w : nat) :
  forall n acc, 0 <= n < 10 ^ Z.of_nat w ->
    time.parseUint_from acc (time.digits w n) = Some (acc * 10 ^ Z.of_nat w + n).
Proof.
  induction w as [|w IH]; intros n acc Hn.
  - cbn. f_equal. change (10 ^ Z.of_nat 0) with 1 in Hn. lia.
  - rewrite Nat2Z.inj_succ, Z.pow_succ_r in * by lia.
    cbn [time.digits]. rewrite parseUint_from_app, IH by (Z.div_mod_to_equations; lia).
    cbn [mbind option_bind]. unfold str1. cbn [time.parseUint_from].
    rewrite digit_val_digit by (Z.div_mod_to_equations; lia).
    cbn [mbind option_bind]. f_equal. Z.div_mod_to_equations. lia.
Qed.

Lemma parseUint_digits (w : nat) (n lo hi : Z) :
  0 <= n < 10 ^ Z.of_nat w -> lo <= n <= hi ->
  time.parseUint (time.digits w n) lo hi = Some n.
Proof.
  intros Hn Hr. unfold time.parseUint. rewrite parseUint_from_digits by exact Hn.
  cbn [mbind option_bind]. rewrite Z.mul_0_l, Z.add_0_l.
  destruct (Z.leb_spec lo n); [|lia]. destruct (Z.leb_spec n hi); [|lia]. reflexivity.
Qed.

Lemma digits_length (w : nat) : forall n, String.length (time.digits w n) = w.
Proof.
  induction w as [|w IH]; intros n; [reflexivity|]. cbn [time.digits].
  assert (Happ : forall a b, String.length (a +:+ b) = (String.length a + String.length b)%nat).
  { intros a b. induction a as [|x a IHa]; cbn; [reflexivity | rewrite IHa; reflexivity]. }
  rewrite Happ, IH. cbn. lia.
Qed.

(** ** Fractional seconds *)

Lemma length_append (a b : string) :
  String.length (a +:+ b) = (String.length a + String.length b)%nat.
Proof. induction a as [|x a IH]; cbn; [reflexivity | rewrite IH; reflexivity]. Qed.

Lemma all_chars_app (P : ascii -> bool) (a b : string) :
  all_chars P (a +:+ b) = all_chars P a && all_chars P b.
Proof.
  induction a as [|x a IH]; cbn [String.append all_chars]; [reflexivity|].
  rewrite IH, andb_assoc. reflexivity.
Qed.

Lemma is_digit_digit (d : Z) : 0 <= d <= 9 -> is_digit (time.digit d) = true.
Proof.
  intros Hd. unfold is_digit, time.digit. rewrite byte_val_chr by lia.
  apply between_spec. lia.
Qed.

Lemma digits_all_digit (w : nat) : forall n, all_chars is_digit (time.digits w n) = true.
Proof.
  induction w as [|w IH]; intros n; [reflexivity|].
  cbn [time.digits]. rewrite all_chars_app, IH. unfold str1. cbn [all_chars andb].
  rewrite is_digit_digit by (Z.div_mod_to_equations; lia). reflexivity.
Qed.

Lemma trim_zeros_spec (s : string) : exists k, s = time.trim_zeros s +:+ zeros k.
Proof.
  induction s as [|c r [k IH]]; [exists 0%nat; reflexivity|].
  cbn [time.trim_zeros]. destruct (time.trim_zeros r) as [|x r'] eqn:Hr.
  - cbn [String.append] in IH. destruct (Ascii.eqb_spec c "0") as [->|_].
    + exists (S k). rewrite IH. reflexivity.
    + exists k. rewrite IH. reflexivity.
  - exists k. rewrite IH at 1. reflexivity.
Qed.

Lemma parseUint_from_zeros (k : nat) :
  forall v, time.parseUint_from v (zeros k) = Some (v * 10 ^ Z.of_nat k).
Proof.
  induction k as [|k IH]; intros v.
  - cbn. f_equal. change (10 ^ Z.of_nat 0) with 1. lia.
  - cbn [zeros time.parseUint_from]. change (time.digit_val "0") with (Some 0).
    cbn [mbind option_bind]. rewrite IH, Nat2Z.inj_succ, Z.pow_succ_r by lia. f_equal. lia.
Qed.

Lemma substring_short (s : string) :
  forall n, (String.length s <= n)%nat -> substring 0 n s = s.
Proof.
  induction s as [|x s IH]; intros [|n] Hn; cbn in *; try reflexivity; [lia|].
  rewrite IH by lia. reflexivity.
Qed.

Lemma take_digits_app (ds : string) (c : ascii) (X : string) :
  all_chars is_digit ds = true ->
  time.digit_val c = None ->
  time.take_digits (ds +:+ String c X) = (ds, String c X).
Proof.
  intros Hds Hc. induction ds as [|d ds IH]; cbn [String.append time.take_digits].
  - rewrite Hc. reflexivity.
  - cbn [all_chars] in Hds. apply andb_true_iff in Hds as [Hd Hds].
    unfold is_digit in Hd. unfold time.digit_val at 1.
    unfold utf8.between in Hd. rewrite Hd, (IH Hds). reflexivity.
Qed.

Lemma parse_fraction_frac (nsec : Z) :
  0 <= nsec < 1000000000 ->
  time.parse_fraction (time.frac nsec +:+ "Z") = Some (nsec, "Z").
Proof.
  intros Hn. unfold time.frac.
  destruct (trim_zeros_spec (time.digits 9 nsec)) as [k Hk].
  pose proof (parseUint_from_digits 9 nsec 0 Hn) as Hv.
  pose proof (digits_all_digit 9 nsec) as Hd.
  pose proof (digits_length 9 nsec) as Hl.
  rewrite Hk in Hv, Hd, Hl. rewrite parseUint_from_app in Hv.
  rewrite all_chars_app in Hd. apply andb_true_iff in Hd as [Hd _].
  rewrite length_append in Hl.
  assert (Hzl : String.length (zeros k) = k) by (clear; induction k; cbn; congruence).
  rewrite Hzl in Hl.
  destruct (time.trim_zeros (time.digits 9 nsec)) as [|x f] eqn:Hf.
  - cbn in Hv. rewrite parseUint_from_zeros in Hv. injection Hv as Hv.
    cbn. f_equal. f_equal. lia.
  - cbn [String.append time.parse_fraction].
    change (String x (f +:+ "Z")) with (String x f +:+ "Z").
    rewrite (take_digits_app (String x f) "Z" EmptyString Hd eq_refl).
    unfold time.parseNanoseconds. rewrite substring_short by lia.
    destruct (time.parseUint_from 0 (String x f)) as [v|]; [|discriminate].
    cbn [mbind option_bind] in *. rewrite parseUint_from_zeros in Hv.
    injection Hv as Hv. f_equal. f_equal.
    replace (9 - Z.of_nat (String.length (String x f))) with (Z.of_nat k) by lia.
    lia.
Qed.

Lemma frac_plain (nsec : Z) : all_chars is_plain (time.frac nsec) = true.
Proof.
  assert (Hdp : forall s, all_chars is_digit s = true -> all_chars is_plain s = true).
  { induction s as [|c s IH]; [reflexivity|]. cbn [all_chars].
    intros [Hc Hs]%andb_true_iff. rewrite (IH Hs), andb_true_r.
    unfold is_digit in Hc. apply between_spec in Hc. unfold is_plain.
    destruct (Z.leb_spec 32 (byte_val c)); [|lia].
    destruct (Z.eqb_spec (byte_val c) 34); [lia|].
    destruct (Z.eqb_spec (byte_val c) 92); [lia|]. reflexivity. }
  unfold time.frac. destruct (trim_zeros_spec (time.digits 9 nsec)) as [k Hk].
  pose proof (digits_all_digit 9 nsec) as Hd. rewrite Hk, all_chars_app in Hd.
  apply andb_true_iff in Hd as [Hd _].
  destruct (time.trim_zeros (time.digits 9 nsec)); [reflexivity|].
  pose proof (Hdp _ Hd) as Hp. cbn [all_chars] in *. rewrite Hp. reflexivity.
Qed.

(** ** Timestamps *)

Lemma parseUint_4 (n lo hi : Z) :
  0 <= n < 10000 -> lo <= n <= hi ->
  time.parseUint
    (String (time.digit (n / 10 / 10 / 10 mod 10))
       (String (time.digit (n / 10 / 10 mod 10))
          (String (time.digit (n / 10 mod 10)) (String (time.digit (n mod 10)) EmptyString))))
    lo hi = Some n.
Proof. intros Hn Hr. exact (parseUint_digits 4 n lo hi Hn Hr). Qed.

Lemma parseUint_2 (n lo hi : Z) :
  0 <= n < 100 -> lo <= n <= hi ->
  time.parseUint (String (time.digit (n / 10 mod 10)) (String (time.digit (n mod 10)) EmptyString))
    lo hi = Some n.
Proof. intros Hn Hr. exact (parseUint_digits 2 n lo hi Hn Hr). Qed.

(** The text written for an instant is parsed back to that instant. *)
Lemma time_roundtrip (t : time.Time) (body : string) :
  time.appendStrictRFC3339 t = Some body -> time.parseRFC3339 body = Some t.
Proof.
  unfold time.appendStrictRFC3339.
  pose proof (civil_roundtrip (t / 1000000000 / 86400)) as Hcivil.
  destruct (time.civil_from_days (t / 1000000000 / 86400)) as [[y m] d].
  destruct Hcivil as (Hm & Hd & Hdays).
  destruct ((y <? 0) || (9999 <? y)) eqn:Hy; [discriminate|].
  apply orb_false_iff in Hy as [Hy0 Hy1]. apply Z.ltb_ge in Hy0, Hy1.
  intros [= <-].
  set (sec := t / 1000000000) in *. set (rem := sec mod 86400).
  assert (Hrem : 0 <= rem < 86400) by (subst rem; apply Z.mod_pos_bound; lia).
  assert (Hdim : time.daysIn m y <= 31).
  { unfold time.daysIn. repeat destruct (_ =? _); cbn; try destruct (time.isLeap y); lia. }
  unfold time.parseRFC3339.
  cbn [time.digits str1 String.append String.length Nat.ltb Nat.leb substring Nat.sub].
  rewrite substring_0_0, Nat.sub_0_r, substring_all, !String.eqb_refl.
  cbn [andb negb].
  rewrite (parseUint_4 y 0 9999) by lia. cbn [mbind option_bind].
  rewrite (parseUint_2 m 1 12) by lia. cbn [mbind option_bind].
  rewrite (parseUint_2 d 1 (time.daysIn m y)) by lia. cbn [mbind option_bind].
  rewrite (parseUint_2 (rem / 3600) 0 23) by (Z.div_mod_to_equations; lia).
  cbn [mbind option_bind].
  rewrite (parseUint_2 (rem mod 3600 / 60) 0 59) by (Z.div_mod_to_equations; lia).
  cbn [mbind option_bind].
  rewrite (parseUint_2 (rem mod 60) 0 59) by (Z.div_mod_to_equations; lia).
  cbn [mbind option_bind].
  rewrite parse_fraction_frac by (apply Z.mod_pos_bound; lia).
  cbn [mbind option_bind time.parse_zone]. f_equal. rewrite Hdays.
  subst rem sec. Z.div_mod_to_equations. lia.
Qed.

Lemma appendStrictRFC3339_plain (t : time.Time) (body : string) :
  time.appendStrictRFC3339 t = Some body -> all_chars is_plain body = true.
Proof.
  assert (Hdp : forall w n, all_chars is_plain (time.digits w n) = true).
  { intros w n. pose proof (digits_all_digit w n) as Hd.
    induction (time.digits w n) as [|c s IH]; [reflexivity|]. cbn [all_chars] in *.
    apply andb_true_iff in Hd as [Hc Hs]. rewrite (IH Hs), andb_true_r.
    unfold is_digit in Hc. apply between_spec in Hc. unfold is_plain.
    destruct (Z.leb_spec 32 (byte_val c)); [|lia].
    destruct (Z.eqb_spec (byte_val c) 34); [lia|].
    destruct (Z.eqb_spec (byte_val c) 92); [lia|]. reflexivity. }
  unfold time.appendStrictRFC3339.
  destruct (time.civil_from_days _) as [[y m] d].
  destruct (_ || _); [discriminate|]. intros Heq. apply (inj Some) in Heq. subst body.
  rewrite !all_chars_app, !Hdp, frac_plain. reflexivity.
Qed.

Lemma raw_body_plain (body tl : string) :
  all_chars is_plain body = true ->
  json.raw_body false (body +:+ String quote tl) = Some (body, tl).
Proof.
  induction body as [|c body IH]; intros Hp.
  - cbn. reflexivity.
  - cbn [all_chars] in Hp. apply andb_true_iff in Hp as [Hc Hp].
    unfold is_plain in Hc. apply andb_true_iff in Hc as [Hc H92].
    apply andb_true_iff in Hc as [H32 H34].
    apply Z.leb_le in H32. apply negb_true_iff, Z.eqb_neq in H34, H92.
    cbn [String.append json.raw_body].
    assert (Hq : Ascii.eqb c quote = false)
      by (apply Ascii.eqb_neq; intros ->; apply H34; reflexivity).
    assert (Hb : Ascii.eqb c backslash = false)
      by (apply Ascii.eqb_neq; intros ->; apply H92; reflexivity).
    rewrite Hq, Hb. destruct (Z.ltb_spec (byte_val c) 32); [lia|].
    rewrite (IH Hp). reflexivity.
Qed.

Lemma expect_app (lit X : string) : json.expect lit (lit +:+ X) = Some X.
Proof.
  induction lit as [|a lit IH]; [destruct X; reflexivity|].
  cbn [String.append json.expect]. rewrite Ascii.eqb_refl. exact IH.
Qed.

Lemma decodeString_encodeString (s tl : string) :
  json.decodeString (json.encodeString s +:+ tl) = Some (json.coerced 0 s, tl).
Proof.
  unfold json.decodeString, json.encodeString. cbn [String.append].
  rewrite Ascii.eqb_refl, append_assoc. apply string_roundtrip.
Qed.

(** ** Serialized tasks *)

(** What [Marshal] writes for a task whose retry count is an [int64],
    [Unmarshal] reads back as that task, its payload coerced to valid
    UTF-8. *)
Lemma Unmarshal_Marshal (task : queue.Task) (data : string) :
  queue.Marshal task = Some data ->
  backoff.min_int64 <= queue.RetryCount task <= backoff.max_int64 ->
  queue.Unmarshal data
  = Some {| queue.Payload := json.coerced 0 (queue.Payload task);
            queue.RetryCount := queue.RetryCount task;
            queue.CreatedAt := queue.CreatedAt task |}.
Proof.
  unfold queue.Marshal, time.MarshalJSON. intros Hdata Hn.
  destruct (time.appendStrictRFC3339 (queue.CreatedAt task)) as [body|] eqn:Hbody;
    [|discriminate].
  cbn [mbind option_bind] in Hdata. apply (inj Some) in Hdata. subst data.
  unfold queue.Unmarshal.
  rewrite <- (append_assoc "{"), expect_app. cbn [mbind option_bind].
  rewrite decodeString_encodeString. cbn [mbind option_bind].
  rewrite <- (append_assoc ","), expect_app. cbn [mbind option_bind].
  change ("," +:+ ?X) with (String "," X).
  rewrite (int_roundtrip _ "," _ Hn eq_refl). cbn [mbind option_bind].
  change (String "," (json.key "created_at" +:+ ?X)) with (("," +:+ json.key "created_at") +:+ X).
  rewrite expect_app. cbn [mbind option_bind].
  unfold json.rawString. cbn [String.append]. rewrite Ascii.eqb_refl.
  rewrite append_assoc. unfold str1. cbn [String.append].
  rewrite (raw_body_plain _ _ (appendStrictRFC3339_plain _ _ Hbody)).
  cbn [mbind option_bind]. rewrite (time_roundtrip _ _ Hbody). reflexivity.
Qed.

(** ** Task broker: round trip *)

Lemma Dequeue_single (data : string) (c : redis.Client) :
  redis.faults c = [] ->
  redis.webhook_queue (redis.db c) = [data] ->
  queue.Dequeue false 0 c
  = (received data, redis.with_db c (redis.set_queue (redis.db c) [])).
Proof.
  intros Hf Hq. unfold queue.Dequeue, redis.BRPop, redis.next_fault, received.
  rewrite Hf, Hq. cbn [last removelast].
  destruct (queue.Unmarshal data); reflexivity.
Qed.

(** C6: a task whose retry count is an [int64] and whose timestamp can be
    written, enqueued on an idle broker and dequeued: the retry count is the
    original one, and the payload is the original one coerced to valid
    UTF-8, hence the original one when that was valid UTF-8. *)
Theorem enqueue_dequeue_roundtrip (now : time.Time) (task : queue.Task) (c : redis.Client)
    (data : string) :
  backoff.min_int64 <= queue.RetryCount task <= backoff.max_int64 ->
  wire (now, task) = Some data ->
  redis.faults c = [] ->
  redis.webhook_queue (redis.db c) = [] ->
  exists task' c',
    (queue.Enqueue now task c).1 = None
    /\ queue.Dequeue false 0 (queue.Enqueue now task c).2 = (Ok task', c')
    /\ queue.RetryCount task' = queue.RetryCount task
    /\ queue.Payload task' = json.coerced 0 (queue.Payload task)
    /\ (utf8.ValidString (queue.Payload task) = true ->
        queue.Payload task' = queue.Payload task).
Proof.
  intros Hn Hwire Hf Hq.
  assert (Hun : exists task',
             queue.Unmarshal data = Some task'
             /\ queue.RetryCount task' = queue.RetryCount task
             /\ queue.Payload task' = json.coerced 0 (queue.Payload task)).
  { unfold wire in Hwire. destruct (time.IsZero (queue.CreatedAt task));
      (eexists; split; [apply (Unmarshal_Marshal _ _ Hwire); exact Hn |]);
      split; reflexivity. }
  destruct Hun as (task' & Hun & Hrc & Hp).
  assert (Henq : queue.Enqueue now task c
                 = (None, redis.with_db c (redis.set_queue (redis.db c) [data]))).
  { unfold queue.Enqueue. unfold wire in Hwire. rewrite Hwire.
    unfold redis.LPush, redis.next_fault. rewrite Hf, Hq. destruct c; reflexivity. }
  rewrite Henq. cbn [fst snd].
  rewrite (Dequeue_single data) by (try exact Hf; reflexivity).
  unfold received. rewrite Hun.
  eexists _, _. repeat split; try assumption.
  intros Hv. rewrite Hp, (coerced_valid _ 0 Hv), Nat.sub_0_r, substring_all. reflexivity.
Qed.

Lemma enqueue_dequeue_roundtrip_witness :
  exists task' c',
    queue.Dequeue false 0
      (queue.Enqueue (1700000000 * Second)
         {| queue.Payload := "order 42"; queue.RetryCount := 3; queue.CreatedAt := time.zero |}
         (redis.healthy empty_store)).2 = (Ok task', c')
    /\ queue.RetryCount task' = 3
    /\ queue.Payload task' = "order 42".
Proof.
  destruct (enqueue_dequeue_roundtrip (1700000000 * Second)
              {| queue.Payload := "order 42"; queue.RetryCount := 3;
                 queue.CreatedAt := time.zero |}
              (redis.healthy empty_store) _
              ltac:(vm_compute; split; discriminate) ltac:(vm_compute; reflexivity)
              eq_refl eq_refl)
    as (task' & c' & _ & Hdeq & Hrc & _ & Hp).
  exists task', c'. split; [exact Hdeq|]. split; [exact Hrc|].
  apply Hp. vm_compute. reflexivity.
Defined.

(** C6, as stated, fails on a payload that is not valid UTF-8: the byte
    0xFF comes back as the three bytes of U+FFFD. *)
Lemma enqueue_dequeue_coerces_payload :
  let task := {| queue.Payload := String (chr 0xFF) EmptyString; queue.RetryCount := 0;
                 queue.CreatedAt := 1700000000 * Second |} in
  exists task' c',
    queue.Dequeue false 0 (queue.Enqueue (1700000000 * Second) task
                             (redis.healthy empty_store)).2 = (Ok task', c')
    /\ queue.Payload task' = String (chr 0xEF) (String (chr 0xBF) (String (chr 0xBD) EmptyString))
    /\ queue.Payload task' <> queue.Payload task.
Proof.
  eexists _, _. split; [vm_compute; reflexivity|]. split; [reflexivity|].
  vm_compute. discriminate.
Qed.

(** ** Retry scheduler *)

(** One promotion on a healthy client: the member leaves the schedule and
    the task rebuilt from it, when it can be written, is pushed. *)
Lemma promote_healthy (now : time.Time) (c : redis.Client) (member : string) :
  redis.faults c = [] ->
  redis.faults (cmd_worker.promote now c member) = []
  /\ redis.retry_schedule (redis.db (cmd_worker.promote now c member))
     = redis.zremove member (redis.retry_schedule (redis.db c))
  /\ redis.webhook_queue (redis.db (cmd_worker.promote now c member))
     = match wire (now, default cmd_worker.zero_task (queue.Unmarshal member)) with
       | Some data => data :: redis.webhook_queue (redis.db c)
       | None => redis.webhook_queue (redis.db c)
       end.
Proof.
  intros Hf. unfold cmd_worker.promote.
  rewrite (Enqueue_healthy now (default cmd_worker.zero_task (queue.Unmarshal member)) c Hf).
  destruct c as [[cs q z] f]. cbn [redis.faults] in Hf. subst f.
  unfold redis.ZRem, redis.next_fault, redis.with_db, redis.set_queue, redis.set_schedule.
  destruct (wire _) as [data|];
    cbn [redis.db redis.faults redis.counters redis.webhook_queue redis.retry_schedule snd];
    repeat split.
Qed.

Lemma poll_tick_healthy (now : time.Time) (c : redis.Client) :
  redis.faults c = [] ->
  cmd_worker.poll_tick now c
  = fold_left (cmd_worker.promote now)
      (List.map snd (List.filter (fun e => e.1 <=? time.Unix now)
                       (redis.retry_schedule (redis.db c)))) c.
Proof.
  intros Hf. unfold cmd_worker.poll_tick, redis.ZRangeByScore, redis.next_fault.
  rewrite Hf. reflexivity.
Qed.

Lemma zremove_In (member : string) (e : Z * string) (l : list (Z * string)) :
  In e (redis.zremove member l) <-> In e l /\ e.2 <> member.
Proof.
  unfold redis.zremove. rewrite filter_In, negb_true_iff, String.eqb_neq. reflexivity.
Qed.

Lemma zinsert_In (e x : Z * string) (l : list (Z * string)) :
  In x (redis.zinsert e l) <-> x = e \/ In x l.
Proof.
  induction l as [|y l IH]; cbn [redis.zinsert].
  - cbn. intuition.
  - destruct (redis.zlt e y); cbn [In]; [intuition | rewrite IH; intuition].
Qed.

Lemma fold_left_nil {A B : Type} (f : A -> B -> A) (a : A) : fold_left f [] a = a.
Proof. reflexivity. Qed.

Lemma fold_left_cons {A B : Type} (f : A -> B -> A) (x : B) (l : list B) (a : A) :
  fold_left f (x :: l) a = fold_left f l (f a x).
Proof. reflexivity. Qed.

(** While the client is healthy, promoting members does not disturb the
    entries of the other members, removes the entries of the promoted ones
    and leaves on the broker whatever it pushes. *)
Lemma fold_promote_faults (now : time.Time) (l : list string) :
  forall c : redis.Client,
    redis.faults c = [] -> redis.faults (fold_left (cmd_worker.promote now) l c) = [].
Proof.
  induction l as [|m l IH]; intros c Hf; [exact Hf|].
  rewrite fold_left_cons. apply IH. exact (proj1 (promote_healthy now c m Hf)).
Qed.

Lemma fold_promote_schedule (now : time.Time) (l : list string) :
  forall (c : redis.Client) (e : Z * string),
    redis.faults c = [] ->
    In e (redis.retry_schedule (redis.db (fold_left (cmd_worker.promote now) l c)))
    <-> In e (redis.retry_schedule (redis.db c)) /\ ~ In e.2 l.
Proof.
  induction l as [|m l IH]; intros c e Hf.
  - rewrite fold_left_nil. cbn [In]. tauto.
  - rewrite fold_left_cons.
    destruct (promote_healthy now c m Hf) as (Hf1 & Hs1 & _).
    rewrite (IH _ e Hf1), Hs1, zremove_In. cbn [In].
    split; [intros [[He Hne] Hnl]; split; [exact He | intros [Hm | Hl]; auto]
           | intros [He Hn]; split; [split; [exact He | intros Hm; apply Hn; left; auto]
                                    | intros Hl; apply Hn; right; exact Hl]].
Qed.

Lemma fold_promote_queue (now : time.Time) (l : list string) :
  forall (c : redis.Client) (d : string),
    redis.faults c = [] ->
    In d (redis.webhook_queue (redis.db c))
    \/ (exists m, In m l
                  /\ wire (now, default cmd_worker.zero_task (queue.Unmarshal m)) = Some d) ->
    In d (redis.webhook_queue (redis.db (fold_left (cmd_worker.promote now) l c))).
Proof.
  induction l as [|m l IH]; intros c d Hf Hd.
  - rewrite fold_left_nil. destruct Hd as [Hd | (m & [] & _)]. exact Hd.
  - rewrite fold_left_cons.
    destruct (promote_healthy now c m Hf) as (Hf1 & _ & Hq1).
    apply (IH _ d Hf1). rewrite Hq1.
    destruct Hd as [Hd | (m' & [<- | Hm'] & Hw)].
    + left. destruct (wire _); [right|]; exact Hd.
    + left. rewrite Hw. left. reflexivity.
    + right. exists m'. split; assumption.
Qed.

Lemma scheduleRetry_state (now : time.Time) (task : queue.Task) (delay : Z)
    (c : redis.Client) (data : string) :
  queue.Marshal task = Some data ->
  redis.faults c = [] ->
  redis.faults (worker.scheduleRetry now task delay c) = []
  /\ redis.webhook_queue (redis.db (worker.scheduleRetry now task delay c))
     = redis.webhook_queue (redis.db c)
  /\ redis.retry_schedule (redis.db (worker.scheduleRetry now task delay c))
     = redis.zinsert (time.Unix (time.Add now delay), data)
         (redis.zremove data (redis.retry_schedule (redis.db c))).
Proof.
  intros Hdata Hf. rewrite (scheduleRetry_healthy _ _ _ _ _ Hdata Hf).
  destruct c as [[cs q z] f]. repeat split. exact Hf.
Qed.

Lemma due_members (max : Z) (m : string) (l : list (Z * string)) :
  In m (List.map snd (List.filter (fun e => e.1 <=? max) l))
  <-> exists s, In (s, m) l /\ s <= max.
Proof.
  rewrite in_map_iff. split.
  - intros ([s m'] & Hm & [Hin Hle]%filter_In). cbn in Hm, Hle. subst m'.
    exists s. split; [exact Hin | apply Z.leb_le, Hle].
  - intros (s & Hin & Hle). exists (s, m). split; [reflexivity|].
    apply filter_In. split; [exact Hin | apply Z.leb_le, Hle].
Qed.

(** C7: a retry scheduled at [now] with delay [d] is stored at the whole
    second [execute_at] that contains [now + d]; a tick of the poller before
    that second leaves the entry in the schedule; a tick in or after that
    second, hence any tick at or after [now + d], removes the entry and
    pushes the task rebuilt from it on the broker; and a ticker that fires
    every second fires within one second after [now + d]. *)
Theorem retry_promotion_window (now d T : Z) (task : queue.Task) (data : string)
    (c : redis.Client) :
  queue.Marshal task = Some data ->
  redis.faults c = [] ->
  let execute_at := time.Unix (time.Add now d) in
  let c1 := worker.scheduleRetry now task d c in
  execute_at * Second <= now + d < (execute_at + 1) * Second
  /\ In (execute_at, data) (redis.retry_schedule (redis.db c1))
  /\ (T < execute_at * Second ->
      In (execute_at, data) (redis.retry_schedule (redis.db (cmd_worker.poll_tick T c1))))
  /\ (execute_at * Second <= T ->
      ~ In data (List.map snd (redis.retry_schedule (redis.db (cmd_worker.poll_tick T c1))))
      /\ forall pushed,
           wire (T, default cmd_worker.zero_task (queue.Unmarshal data)) = Some pushed ->
           In pushed (redis.webhook_queue (redis.db (cmd_worker.poll_tick T c1))))
  /\ (forall t0, t0 <= now + d ->
      exists k, 0 <= k /\ now + d <= cmd_worker.tick t0 k < now + d + Second).
Proof.
  intros Hdata Hf execute_at c1.
  destruct (scheduleRetry_state now task d c data Hdata Hf) as (Hf1 & _ & Hs1).
  fold c1 in Hf1, Hs1. fold execute_at in Hs1.
  assert (Hin : In (execute_at, data) (redis.retry_schedule (redis.db c1)))
    by (rewrite Hs1; apply zinsert_In; left; reflexivity).
  assert (Hown : forall s, In (s, data) (redis.retry_schedule (redis.db c1)) -> s = execute_at).
  { intros s. rewrite Hs1, zinsert_In, zremove_In. cbn [snd].
    intros [[= ->] | [_ Hne]]; [reflexivity | contradiction]. }
  assert (Hunix : forall x, time.Unix x * Second <= x < (time.Unix x + 1) * Second)
    by (intros x; unfold time.Unix, Second; Z.div_mod_to_equations; lia).
  split; [apply Hunix|]. split; [exact Hin|].
  rewrite (poll_tick_healthy T c1 Hf1). split; [|split].
  - intros Hearly. apply fold_promote_schedule; [exact Hf1|]. split; [exact Hin|].
    cbn [snd]. rewrite due_members. intros (s & Hs & Hle).
    apply Hown in Hs. subst s. pose proof (Hunix T). unfold Second in *. lia.
  - intros Hdue.
    assert (Hmem : In data (List.map snd (List.filter (fun e => e.1 <=? time.Unix T)
                                            (redis.retry_schedule (redis.db c1))))).
    { apply due_members. exists execute_at. split; [exact Hin|].
      pose proof (Hunix T). unfold Second in *. lia. }
    split.
    + rewrite in_map_iff. intros ([s m] & Hm & He). cbn [snd] in Hm. subst m.
      apply (fold_promote_schedule T _ c1 (s, data) Hf1) in He. destruct He as [_ He].
      apply He, Hmem.
    + intros pushed Hw. apply fold_promote_queue; [exact Hf1|].
      right. exists data. split; [exact Hmem | exact Hw].
  - intros t0 Ht0. exists ((now + d - t0 + (Second - 1)) / Second).
    unfold cmd_worker.tick, Second. split; Z.div_mod_to_equations; lia.
Qed.

(** ** Worker: the life of a task that keeps failing *)

Lemma Marshal_some (task : queue.Task) (body : string) :
  time.appendStrictRFC3339 (queue.CreatedAt task) = Some body ->
  exists data, queue.Marshal task = Some data.
Proof.
  intros Hbody. unfold queue.Marshal, time.MarshalJSON. rewrite Hbody.
  eexists. reflexivity.
Qed.

Lemma zremove_single (s : Z) (data : string) : redis.zremove data [(s, data)] = [].
Proof. unfold redis.zremove. cbn [List.filter snd]. rewrite String.eqb_refl. reflexivity. Qed.

Lemma Process_failed {S : Type} `{backoff.Strategy S} (strategy : S) (now : time.Time)
    (task : queue.Task) (c : redis.Client) :
  worker.Process strategy now false task c = worker.handleFailure strategy now task c.
Proof. reflexivity. Qed.

Lemma fail_then_redeliver_eq {S : Type} `{backoff.Strategy S} (strategy : S)
    (now : time.Time) (task : queue.Task) (c : redis.Client) :
  fail_then_redeliver strategy now task c
  = match queue.Dequeue false 0
            (cmd_worker.poll_tick (now + 2 * Hour) (worker.Process strategy now false task c))
    with
    | (Ok task', c') => (Some task', c')
    | (_, c') => (None, c')
    end.
Proof. reflexivity. Qed.

(** A tick of the poller on a healthy client whose schedule holds one entry,
    due, and whose broker is empty. *)
Lemma poll_tick_single (T : time.Time) (c : redis.Client) (s : Z) (data : string) :
  redis.faults c = [] ->
  redis.webhook_queue (redis.db c) = [] ->
  redis.retry_schedule (redis.db c) = [(s, data)] ->
  s <= time.Unix T ->
  redis.faults (cmd_worker.poll_tick T c) = []
  /\ redis.retry_schedule (redis.db (cmd_worker.poll_tick T c)) = []
  /\ redis.webhook_queue (redis.db (cmd_worker.poll_tick T c))
     = match wire (T, default cmd_worker.zero_task (queue.Unmarshal data)) with
       | Some pushed => [pushed]
       | None => []
       end.
Proof.
  intros Hf Hq Hs Hdue. rewrite (poll_tick_healthy T c Hf), Hs.
  cbn [List.filter List.map fst snd].
  destruct (Z.leb_spec s (time.Unix T)) as [_|Hlt]; [|lia].
  cbn [List.map snd]. rewrite fold_left_cons, fold_left_nil.
  destruct (promote_healthy T c data Hf) as (Hf2 & Hs2 & Hq2).
  rewrite Hs, zremove_single in Hs2. rewrite Hq in Hq2. auto.
Qed.

(** A failed delivery of a task that has failed fewer than five times, on
    an idle service: the schedule holds the task with one more retry. *)
Lemma handleFailure_schedules (arch : backoff.Arch) (now : time.Time) (task : queue.Task)
    (c : redis.Client) (body : string) :
  0 <= queue.RetryCount task < 5 ->
  time.appendStrictRFC3339 (queue.CreatedAt task) = Some body ->
  idle c ->
  exists s data c1,
    worker.handleFailure (H := backoff.exponential_strategy arch) retryStrategy now task c = c1
    /\ queue.Marshal {| queue.Payload := queue.Payload task;
                        queue.RetryCount := queue.RetryCount task + 1;
                        queue.CreatedAt := queue.CreatedAt task |} = Some data
    /\ s <= time.Unix (now + 2 * Hour)
    /\ redis.faults c1 = []
    /\ redis.webhook_queue (redis.db c1) = []
    /\ redis.retry_schedule (redis.db c1) = [(s, data)].
Proof.
  intros Hrc Hbody (Hf & Hq & Hs).
  rewrite (proj2 (handleFailure_cases (H := backoff.exponential_strategy arch)
                    retryStrategy now task c)) by lia.
  destruct (Marshal_some {| queue.Payload := queue.Payload task;
                            queue.RetryCount := queue.RetryCount task + 1;
                            queue.CreatedAt := queue.CreatedAt task |} body Hbody)
    as [data Hdata].
  destruct (scheduleRetry_state now _
              (@backoff.GetNextInterval _ (backoff.exponential_strategy arch) retryStrategy
                 (queue.RetryCount task)) c data Hdata Hf) as (Hf1 & Hq1 & Hs1).
  rewrite Hs in Hs1. rewrite Hq in Hq1.
  eexists _, data, _. split; [reflexivity|]. split; [exact Hdata|].
  split; [|split; [exact Hf1 | split; [exact Hq1 | exact Hs1]]].
  pose proof (GetNextInterval_exact arch (queue.RetryCount task) ltac:(lia)) as Hd.
  change (backoff.exponential_GetNextInterval arch retryStrategy (queue.RetryCount task))
    with (@backoff.GetNextInterval _ (backoff.exponential_strategy arch) retryStrategy
            (queue.RetryCount task)) in Hd.
  rewrite Hd. unfold time.Unix, time.Add, Hour, Second.
  apply Z.div_le_mono; lia.
Qed.

Section KeepsFailing.

Variable arch : backoff.Arch.

(** One failed delivery of a task that has failed fewer than five times,
    on an idle service: two hours later the task is delivered again, with
    one more retry on its count. *)
Lemma fail_then_redeliver_retries (now : time.Time) (task : queue.Task) (c : redis.Client)
    (body : string) :
  0 <= queue.RetryCount task < 5 ->
  time.IsZero (queue.CreatedAt task) = false ->
  time.appendStrictRFC3339 (queue.CreatedAt task) = Some body ->
  idle c ->
  exists payload c',
    fail_then_redeliver (H := backoff.exponential_strategy arch) retryStrategy now task c
    = (Some {| queue.Payload := payload; queue.RetryCount := queue.RetryCount task + 1;
               queue.CreatedAt := queue.CreatedAt task |}, c')
    /\ idle c'.
Proof.
  intros Hrc Hzero Hbody Hidle.
  rewrite fail_then_redeliver_eq, Process_failed.
  destruct (handleFailure_schedules arch now task c body Hrc Hbody Hidle)
    as (s & data & c1 & -> & Hdata & Hdue & Hf1 & Hq1 & Hs1).
  destruct (poll_tick_single (now + 2 * Hour) c1 s data Hf1 Hq1 Hs1 Hdue)
    as (Hf2 & Hs2 & Hq2).
  rewrite (Unmarshal_Marshal _ data Hdata) in Hq2
    by (cbn [queue.RetryCount]; unfold backoff.min_int64, backoff.max_int64; lia).
  unfold default in Hq2. cbn [from_option id queue.Payload queue.RetryCount queue.CreatedAt] in Hq2.
  destruct (Marshal_some {| queue.Payload := json.coerced 0 (queue.Payload task);
                            queue.RetryCount := queue.RetryCount task + 1;
                            queue.CreatedAt := queue.CreatedAt task |} body Hbody)
    as [data2 Hdata2].
  unfold wire in Hq2. cbn [queue.Payload queue.RetryCount queue.CreatedAt] in Hq2.
  rewrite Hzero, Hdata2 in Hq2.
  rewrite (Dequeue_single data2 _ Hf2 Hq2). unfold received.
  rewrite (Unmarshal_Marshal _ data2 Hdata2)
    by (cbn [queue.RetryCount]; unfold backoff.min_int64, backoff.max_int64; lia).
  eexists _, _. split; [reflexivity|].
  unfold idle, redis.with_db, redis.set_queue.
  cbn [redis.faults redis.db redis.webhook_queue redis.retry_schedule].
  repeat split; [exact Hf2 | exact Hs2].
Qed.

(** A failed delivery of a task that has failed five times already: the
    task is not seen again. *)
Lemma fail_then_redeliver_drops (now : time.Time) (task : queue.Task) (c : redis.Client) :
  5 <= queue.RetryCount task ->
  idle c ->
  fail_then_redeliver (H := backoff.exponential_strategy arch) retryStrategy now task c = (None, c).
Proof.
  intros Hrc (Hf & Hq & Hs). rewrite fail_then_redeliver_eq, Process_failed.
  rewrite (proj1 (handleFailure_cases (H := backoff.exponential_strategy arch) retryStrategy now task c)) by lia.
  rewrite (poll_tick_healthy _ c Hf), Hs. cbn [List.filter List.map]. rewrite fold_left_nil.
  unfold queue.Dequeue, redis.BRPop, redis.next_fault. rewrite Hf, Hq. reflexivity.
Qed.

Lemma failures_retried (n : nat) :
  forall (now : time.Time) (task : queue.Task) (c : redis.Client) (body : string),
    0 <= queue.RetryCount task ->
    queue.RetryCount task + Z.of_nat n <= 5 ->
    time.IsZero (queue.CreatedAt task) = false ->
    time.appendStrictRFC3339 (queue.CreatedAt task) = Some body ->
    idle c ->
    exists payload c',
      failures (H := backoff.exponential_strategy arch) retryStrategy n now task c
      = (Some {| queue.Payload := payload;
                 queue.RetryCount := queue.RetryCount task + Z.of_nat n;
                 queue.CreatedAt := queue.CreatedAt task |}, c')
      /\ idle c'.
Proof.
  induction n as [|n IH]; intros now task c body Hrc Hmax Hzero Hbody Hidle.
  - exists (queue.Payload task), c. split; [|exact Hidle].
    cbn [failures]. rewrite Z.add_0_r. destruct task; reflexivity.
  - assert (Hlt : 0 <= queue.RetryCount task < 5) by lia.
    destruct (fail_then_redeliver_retries now task c body Hlt Hzero Hbody Hidle)
      as (p1 & c1 & Hstep & Hidle1).
    cbn [failures]. rewrite Hstep.
    destruct (IH (now + 2 * Hour)
                {| queue.Payload := p1; queue.RetryCount := queue.RetryCount task + 1;
                   queue.CreatedAt := queue.CreatedAt task |} c1 body)
      as (p2 & c2 & Hrun & Hidle2); cbn [queue.RetryCount queue.CreatedAt];
      try assumption; try lia.
    exists p2, c2. split; [|exact Hidle2]. rewrite Hrun.
    cbn [queue.RetryCount queue.CreatedAt].
    replace (queue.RetryCount task + Z.of_nat (S n))
      with (queue.RetryCount task + 1 + Z.of_nat n) by lia.
    reflexivity.
Qed.

End KeepsFailing.

Lemma failures_then_dropped (arch : backoff.Arch) (n : nat) :
  forall (now : time.Time) (task : queue.Task) (c : redis.Client) (body : string),
    0 <= queue.RetryCount task ->
    queue.RetryCount task + Z.of_nat n = 5 ->
    time.IsZero (queue.CreatedAt task) = false ->
    time.appendStrictRFC3339 (queue.CreatedAt task) = Some body ->
    idle c ->
    exists c',
      failures (H := backoff.exponential_strategy arch) retryStrategy (S n) now task c
      = (None, c')
      /\ idle c'.
Proof.
  induction n as [|n IH]; intros now task c body Hrc Hmax Hzero Hbody Hidle.
  - exists c. split; [|exact Hidle]. cbn [failures].
    rewrite (fail_then_redeliver_drops arch now task c) by (try lia; exact Hidle).
    reflexivity.
  - assert (Hlt : 0 <= queue.RetryCount task < 5) by lia.
    destruct (fail_then_redeliver_retries arch now task c body Hlt Hzero Hbody Hidle)
      as (p1 & c1 & Hstep & Hidle1).
    destruct (IH (now + 2 * Hour)
                {| queue.Payload := p1; queue.RetryCount := queue.RetryCount task + 1;
                   queue.CreatedAt := queue.CreatedAt task |} c1 body)
      as (c2 & Hrun & Hidle2); cbn [queue.RetryCount queue.CreatedAt];
      try assumption; try lia.
    exists c2. split; [|exact Hidle2].
    change (failures retryStrategy (S (S n)) now task c)
      with (match fail_then_redeliver (H := backoff.exponential_strategy arch)
                    retryStrategy now task c with
            | (Some task', c') =>
                failures (H := backoff.exponential_strategy arch) retryStrategy (S n)
                  (now + 2 * Hour) task' c'
            | (None, c') => (None, c')
            end).
    rewrite Hstep. exact Hrun.
Qed.

(** C1: the failure branch schedules a retry exactly when the retry count
    is below five and otherwise leaves the store as it is; so a task that
    enters an idle service with a count of zero and fails every delivery
    comes back after each of its first five failures, with the counts 1 to
    5, and is gone after the sixth. *)
Theorem failing_task_dropped_at_sixth_failure (arch : backoff.Arch) (now : time.Time)
    (task : queue.Task) (c : redis.Client) (body : string) :
  queue.RetryCount task = 0 ->
  time.IsZero (queue.CreatedAt task) = false ->
  time.appendStrictRFC3339 (queue.CreatedAt task) = Some body ->
  idle c ->
  (forall now' t c',
      (5 <= queue.RetryCount t ->
       worker.handleFailure (H := backoff.exponential_strategy arch) retryStrategy now' t c' = c')
      /\ (queue.RetryCount t < 5 ->
          worker.handleFailure (H := backoff.exponential_strategy arch) retryStrategy now' t c'
          = worker.scheduleRetry now'
              {| queue.Payload := queue.Payload t;
                 queue.RetryCount := queue.RetryCount t + 1;
                 queue.CreatedAt := queue.CreatedAt t |}
              (backoff.exponential_GetNextInterval arch retryStrategy (queue.RetryCount t)) c'))
  /\ (forall n, (n <= 5)%nat ->
      exists payload c',
        failures (H := backoff.exponential_strategy arch) retryStrategy n now task c
        = (Some {| queue.Payload := payload; queue.RetryCount := Z.of_nat n;
                   queue.CreatedAt := queue.CreatedAt task |}, c')
        /\ idle c')
  /\ (exists c',
        failures (H := backoff.exponential_strategy arch) retryStrategy 6 now task c = (None, c')
        /\ idle c').
Proof.
  intros Hrc Hzero Hbody Hidle. split; [|split].
  - intros now' t c'.
    exact (handleFailure_cases (H := backoff.exponential_strategy arch) retryStrategy now' t c').
  - intros n Hn.
    destruct (failures_retried arch n now task c body) as (p & c' & Hrun & Hidle');
      try assumption; try lia.
    exists p, c'. split; [|exact Hidle']. rewrite Hrun, Hrc. reflexivity.
  - apply (failures_then_dropped arch 5 now task c body); try assumption; lia.
Qed.

Lemma failing_task_dropped_at_sixth_failure_witness :
  exists c',
    failures (H := backoff.exponential_strategy backoff.amd64) retryStrategy 6
      (1700000000 * Second)
      {| queue.Payload := "order 42"; queue.RetryCount := 0;
         queue.CreatedAt := 1700000000 * Second |}
      (redis.healthy empty_store) = (None, c')
    /\ idle c'.
Proof.
  exact (proj2 (proj2 (failing_task_dropped_at_sixth_failure backoff.amd64
                         (1700000000 * Second)
                         {| queue.Payload := "order 42"; queue.RetryCount := 0;
                            queue.CreatedAt := 1700000000 * Second |}
                         (redis.healthy empty_store) _
                         eq_refl ltac:(vm_compute; reflexivity)
                         ltac:(vm_compute; reflexivity)
                         ltac:(repeat split)))).
Defined.

(** C1, as stated, fails: after the fifth consecutive failure of a task that
    entered with a count of zero, the task is in the retry schedule again,
    and it is delivered a sixth time, with a count of five. *)
Lemma fifth_failure_is_retried :
  let task := {| queue.Payload := "order 42"; queue.RetryCount := 0;
                 queue.CreatedAt := 1700000000 * Second |} in
  exists t4 c4 t5 c5,
    failures (H := backoff.exponential_strategy backoff.amd64) retryStrategy 4
      (1700000000 * Second) task (redis.healthy empty_store) = (Some t4, c4)
    /\ queue.RetryCount t4 = 4
    /\ List.map fst
         (redis.retry_schedule
            (redis.db (worker.Process (H := backoff.exponential_strategy backoff.amd64)
                         retryStrategy (1700028800 * Second) false t4 c4)))
       = [1700028816]
    /\ failures (H := backoff.exponential_strategy backoff.amd64) retryStrategy 5
         (1700000000 * Second) task (redis.healthy empty_store) = (Some t5, c5)
    /\ queue.RetryCount t5 = 5.
Proof.
  eexists _, _, _, _.
  split; [vm_compute; reflexivity|]. split; [reflexivity|].
  split; [vm_compute; reflexivity|]. split; [vm_compute; reflexivity|]. reflexivity.
Qed.

(** C4: a due entry, a tick whose range query succeeds, whose push on the
    broker fails and whose removal succeeds: the entry has left the schedule
    and the broker holds nothing. *)
Theorem poll_tick_loses_task_on_enqueue_error :
  let task := {| queue.Payload := "order 42"; queue.RetryCount := 1;
                 queue.CreatedAt := 1700000000 * Second |} in
  let scheduled := worker.scheduleRetry (1700000000 * Second) task Second
                     (redis.healthy empty_store) in
  let c := {| redis.db := redis.db scheduled; redis.faults := [false; true; false] |} in
  List.map fst (redis.retry_schedule (redis.db c)) = [1700000001]
  /\ redis.webhook_queue (redis.db (cmd_worker.poll_tick (1700000002 * Second) c)) = []
  /\ redis.retry_schedule (redis.db (cmd_worker.poll_tick (1700000002 * Second) c)) = [].
Proof. vm_compute. repeat split. Qed.

Lemma retry_promotion_window_witness :
  let now := 1700000001 * Second in
  let d := 2 * Second in
  let task := {| queue.Payload := "order 42"; queue.RetryCount := 1;
                 queue.CreatedAt := 1700000000 * Second |} in
  let c1 := worker.scheduleRetry now task d (redis.healthy empty_store) in
  exists data,
    queue.Marshal task = Some data
    /\ In (time.Unix (time.Add now d), data)
         (redis.retry_schedule (redis.db (cmd_worker.poll_tick (1700000002 * Second) c1)))
    /\ ~ In data
         (List.map snd
            (redis.retry_schedule (redis.db (cmd_worker.poll_tick (1700000003 * Second) c1)))).
Proof.
  intros now d task c1.
  assert (Hdata : exists data, queue.Marshal task = Some data)
    by (eexists; vm_compute; reflexivity).
  destruct Hdata as [data Hdata]. exists data. split; [exact Hdata|]. split.
  - refine (proj1 (proj2 (proj2
              (retry_promotion_window now d (1700000002 * Second) task data
                 (redis.healthy empty_store) Hdata eq_refl))) _).
    vm_compute. reflexivity.
  - refine (proj1 (proj1 (proj2 (proj2 (proj2
              (retry_promotion_window now d (1700000003 * Second) task data
                 (redis.healthy empty_store) Hdata eq_refl)))) _)).
    vm_compute. discriminate.
Defined.

(** C7, as stated, fails: a retry scheduled at 0.9 s past a second with a
    delay of one second is stored at the next whole second and promoted by a
    tick 0.1 s after it was scheduled, 0.9 s before [now + d]. *)
Lemma retry_promoted_before_delay_elapsed :
  let now := 1700000000900000000 in
  let T := now + 100000000 in
  let task := {| queue.Payload := "order 42"; queue.RetryCount := 1;
                 queue.CreatedAt := 1700000000 * Second |} in
  let c1 := worker.scheduleRetry now task Second (redis.healthy empty_store) in
  T < now + Second
  /\ List.map fst (redis.retry_schedule (redis.db c1)) = [1700000001]
  /\ 1700000001 * Second <> now + Second
  /\ redis.retry_schedule (redis.db (cmd_worker.poll_tick T c1)) = []
  /\ List.map received (redis.webhook_queue (redis.db (cmd_worker.poll_tick T c1)))
     = [Ok {| queue.Payload := "order 42"; queue.RetryCount := 1;
              queue.CreatedAt := 1700000000 * Second |}].
Proof. vm_compute. repeat split; discriminate. Qed.

Lemma broker_is_fifo_witness :
  (dequeue_n 2
     (enqueue_all
        [(1700000000 * Second,
          {| queue.Payload := "first"; queue.RetryCount := 0; queue.CreatedAt := time.zero |});
         (1700000001 * Second,
          {| queue.Payload := "second"; queue.RetryCount := 0; queue.CreatedAt := time.zero |})]
        (redis.healthy empty_store))).1
  = [Ok {| queue.Payload := "first"; queue.RetryCount := 0;
           queue.CreatedAt := 1700000000 * Second |};
     Ok {| queue.Payload := "second"; queue.RetryCount := 0;
           queue.CreatedAt := 1700000001 * Second |}].
Proof.
  pose proof (broker_is_fifo
                [(1700000000 * Second,
                  {| queue.Payload := "first"; queue.RetryCount := 0;
                     queue.CreatedAt := time.zero |});
                 (1700000001 * Second,
                  {| queue.Payload := "second"; queue.RetryCount := 0;
                     queue.CreatedAt := time.zero |})]
                (redis.healthy empty_store) eq_refl) as Hfifo.
  vm_compute in Hfifo. vm_compute. exact Hfifo.
Defined.

Lemma retry_delay_uses_prior_count_witness :
  exists data,
    redis.retry_schedule
      (redis.db (worker.handleFailure (H := backoff.exponential_strategy backoff.amd64)
                   retryStrategy (1700000000 * Second)
                   {| queue.Payload := "order 42"; queue.RetryCount := 0;
                      queue.CreatedAt := 1700000000 * Second |}
                   (redis.healthy empty_store)))
    = [(1700000001, data)].
Proof.
  eexists.
  pose proof (proj2 (proj2 (proj2
                (retry_delay_uses_prior_count backoff.amd64 (1700000000 * Second)
                   {| queue.Payload := "order 42"; queue.RetryCount := 0;
                      queue.CreatedAt := 1700000000 * Second |}
                   (redis.healthy empty_store) _
                   ltac:(vm_compute; reflexivity) eq_refl
                   ltac:(vm_compute; reflexivity))))) as Hs.
  vm_compute in Hs. vm_compute. exact Hs.
Defined.

(** * Further properties of the code *)

(** ** Backoff policy *)

(** X1: with the strategy that the worker installs, on every architecture,
    the interval for a retry count from 0 to 33 is [2^n] seconds capped at
    one hour; over that range the intervals are positive, non-decreasing and
    never above the cap. *)
Theorem GetNextInterval_doubles_up_to_cap (arch : backoff.Arch) (m n : Z) :
  0 <= m <= n -> n <= 33 ->
  backoff.exponential_GetNextInterval arch retryStrategy n = Z.min (2 ^ n * Second) Hour
  /\ 0 < backoff.exponential_GetNextInterval arch retryStrategy m
     <= backoff.exponential_GetNextInterval arch retryStrategy n
  /\ backoff.exponential_GetNextInterval arch retryStrategy n <= backoff.Max retryStrategy.
Proof.
  intros Hm Hn. rewrite !GetNextInterval_exact by lia.
  assert (Hpos : 0 < 2 ^ m) by (apply Z.pow_pos_nonneg; lia).
  assert (Hle : 2 ^ m <= 2 ^ n) by (apply Z.pow_le_mono_r; lia).
  change (backoff.Max retryStrategy) with (1 * Hour).
  unfold Hour, Second. repeat split; lia.
Qed.

Lemma GetNextInterval_doubles_up_to_cap_witness :
  backoff.exponential_GetNextInterval backoff.arm64 retryStrategy 12 = Hour
  /\ 0 < backoff.exponential_GetNextInterval backoff.arm64 retryStrategy 11
     <= backoff.exponential_GetNextInterval backoff.arm64 retryStrategy 12.
Proof.
  destruct (GetNextInterval_doubles_up_to_cap backoff.arm64 11 12 ltac:(lia) ltac:(lia))
    as (Hv & Hm & _).
  split; [rewrite Hv; reflexivity | exact Hm].
Defined.

Lemma GetNextInterval_le_Max (arch : backoff.Arch) (s : backoff.ExponentialStrategy) (n : Z) :
  backoff.exponential_GetNextInterval arch s n <= backoff.Max s.
Proof.
  unfold backoff.exponential_GetNextInterval.
  destruct (Z.ltb_spec (backoff.Max s)
              (backoff.int64_of_float arch
                 (PrimFloat.mul (backoff.float64_of_int (backoff.Base s))
                    (backoff.Pow (backoff.Factor s) n)))); lia.
Qed.

(** X2: whatever the base, the factor and the cap of the strategy, and on
    every architecture, a failed task that is retried is stored once, at a
    score that is not later than the second of [now + Max]. *)
Theorem retry_due_no_later_than_cap (arch : backoff.Arch) (s : backoff.ExponentialStrategy)
    (now : time.Time) (task : queue.Task) (c : redis.Client) (data : string) :
  queue.RetryCount task < 5 ->
  redis.faults c = [] ->
  queue.Marshal {| queue.Payload := queue.Payload task;
                   queue.RetryCount := queue.RetryCount task + 1;
                   queue.CreatedAt := queue.CreatedAt task |} = Some data ->
  exists score,
    score <= time.Unix (time.Add now (backoff.Max s))
    /\ forall score',
         In (score', data)
            (redis.retry_schedule
               (redis.db (worker.handleFailure (H := backoff.exponential_strategy arch)
                            s now task c)))
         <-> score' = score.
Proof.
  intros Hn Hf Hdata.
  rewrite (proj2 (handleFailure_cases (H := backoff.exponential_strategy arch) s now task c) Hn).
  destruct (scheduleRetry_state now _
              (@backoff.GetNextInterval _ (backoff.exponential_strategy arch) s
                 (queue.RetryCount task)) c data Hdata Hf) as (_ & _ & Hs).
  rewrite Hs.
  exists (time.Unix (time.Add now
            (backoff.exponential_GetNextInterval arch s (queue.RetryCount task)))).
  split; [|intros score'; rewrite zinsert_In, zremove_In; cbn [snd]; split].
  - pose proof (GetNextInterval_le_Max arch s (queue.RetryCount task)) as Hle.
    unfold time.Unix, time.Add. apply Z.div_le_mono; lia.
  - intros [[= ->] | [_ Hne]]; [reflexivity | contradiction].
  - intros ->. left. reflexivity.
Qed.

Lemma retry_due_no_later_than_cap_witness :
  let task := {| queue.Payload := "order 42"; queue.RetryCount := 0;
                 queue.CreatedAt := 1700000000 * Second |} in
  exists score data,
    queue.Marshal {| queue.Payload := queue.Payload task;
                     queue.RetryCount := queue.RetryCount task + 1;
                     queue.CreatedAt := queue.CreatedAt task |} = Some data
    /\ score <= time.Unix (time.Add (1700000000 * Second) (backoff.Max retryStrategy))
    /\ In (score, data)
          (redis.retry_schedule
             (redis.db (worker.handleFailure (H := backoff.exponential_strategy backoff.amd64)
                          retryStrategy (1700000000 * Second) task
                          (redis.healthy empty_store)))).
Proof.
  intros task.
  assert (Hdata : exists data,
             queue.Marshal {| queue.Payload := queue.Payload task;
                              queue.RetryCount := queue.RetryCount task + 1;
                              queue.CreatedAt := queue.CreatedAt task |} = Some data)
    by (eexists; vm_compute; reflexivity).
  destruct Hdata as [data Hdata].
  destruct (retry_due_no_later_than_cap backoff.amd64 retryStrategy (1700000000 * Second)
              task (redis.healthy empty_store) data
              ltac:(vm_compute; reflexivity) eq_refl Hdata)
    as (score & Hle & Hin).
  exists score, data. split; [exact Hdata|]. split; [exact Hle | exact (proj2 (Hin score) eq_refl)].
Defined.

(** ** Admission controller *)

(** X3: the first request at or after the expiry of a caller's window is
    counted as the first of a new window, which expires one window later:
    it is allowed as soon as the limit is at least one, however many requests
    the caller made in the window before. *)
Theorem fixed_window_resets_after_expiry (l : ratelimit.FixedWindowLimiter) (now : Z)
    (userID : string) (c : redis.Client) (n e : Z) :
  window_open c (rate_key userID) n e ->
  e <= now ->
  exists c',
    ratelimit.fixed_Allow l now userID c = ((1 <=? ratelimit.limit l, None), c')
    /\ window_open c' (rate_key userID) 1 (now + ratelimit.window l).
Proof.
  intros [Hf Hk] Hdead. unfold ratelimit.fixed_Allow, redis.Incr, redis.next_fault.
  fold (rate_key userID). rewrite Hf, Hk. cbn. unfold redis.live. cbn.
  destruct (Z.ltb_spec now e) as [|_]; [lia|].
  unfold redis.Expire, redis.next_fault. cbn. rewrite Hf. cbn.
  rewrite lookup_insert_eq. cbn.
  eexists. split.
  - rewrite Z.leb_antisym. destruct (ratelimit.limit l <? 1); reflexivity.
  - split; [exact Hf|]. cbn. rewrite insert_insert_eq. apply lookup_insert_eq.
Qed.

Lemma fixed_window_resets_after_expiry_witness :
  let c := redis.healthy
             {| redis.counters :=
                  {[ rate_key "u1" := {| redis.count := 6; redis.expiry := Some (60 * Second) |} ]};
                redis.webhook_queue := []; redis.retry_schedule := [] |} in
  exists c',
    ratelimit.fixed_Allow cmd_api.limiter (60 * Second) "u1" c = ((true, None), c')
    /\ window_open c' (rate_key "u1") 1 (120 * Second).
Proof.
  intros c.
  exact (fixed_window_resets_after_expiry cmd_api.limiter (60 * Second) "u1" c
           6 (60 * Second) ltac:(split; vm_compute; reflexivity)
           ltac:(vm_compute; discriminate)).
Defined.

Lemma allow_without_expiry (l : ratelimit.FixedWindowLimiter) (now : Z) (userID : string)
    (c : redis.Client) (n : Z) :
  redis.faults c = [] ->
  redis.counters (redis.db c) !! rate_key userID
  = Some {| redis.count := n; redis.expiry := None |} ->
  1 <= n < backoff.max_int64 ->
  redis.faults (ratelimit.fixed_Allow l now userID c).2 = []
  /\ (ratelimit.fixed_Allow l now userID c).1 = (n + 1 <=? ratelimit.limit l, None)
  /\ redis.counters (redis.db (ratelimit.fixed_Allow l now userID c).2) !! rate_key userID
     = Some {| redis.count := n + 1; redis.expiry := None |}.
Proof.
  intros Hf Hk Hn. unfold ratelimit.fixed_Allow, redis.Incr, redis.next_fault.
  fold (rate_key userID). rewrite Hf, Hk. cbn. unfold redis.live. cbn.
  destruct (Z.eqb_spec n backoff.max_int64) as [|_]; [lia|].
  destruct (Z.eqb_spec (n + 1) 1) as [|_]; [lia|].
  rewrite Z.leb_antisym.
  destruct (ratelimit.limit l <? n + 1); cbn; rewrite lookup_insert_eq; auto.
Qed.

Lemma allow_all_without_expiry (l : ratelimit.FixedWindowLimiter) (userID : string)
    (times : list Z) :
  forall (c : redis.Client) (n : nat),
    redis.faults c = [] ->
    redis.counters (redis.db c) !! rate_key userID
    = Some {| redis.count := Z.of_nat n; redis.expiry := None |} ->
    (1 <= n)%nat -> Z.of_nat (n + length times) <= backoff.max_int64 ->
    (allow_all l userID times c).1
    = List.map (fun k => (Z.of_nat k <=? ratelimit.limit l, None)) (seq (S n) (length times))
    /\ redis.counters (redis.db (allow_all l userID times c).2) !! rate_key userID
       = Some {| redis.count := Z.of_nat (n + length times); redis.expiry := None |}.
Proof.
  induction times as [|t times IH]; intros c n Hf Hk Hn Hmax.
  - cbn. rewrite Nat.add_0_r. auto.
  - cbn [length] in Hmax.
    destruct (allow_without_expiry l t userID c (Z.of_nat n) Hf Hk) as (Hf' & Hcall & Hk').
    { lia. }
    replace (Z.of_nat n + 1) with (Z.of_nat (S n)) in Hcall, Hk' by lia.
    cbn [allow_all length seq List.map].
    destruct (ratelimit.fixed_Allow l t userID c) as [r c'] eqn:Hstep. cbn [fst snd] in *.
    destruct (IH c' (S n) Hf' Hk') as [Hres Hend]; [lia | lia |].
    destruct (allow_all l userID times c') as [rs c''] eqn:Hrest. cbn [fst snd] in *.
    rewrite Hres, Hcall.
    replace (n + S (length times))%nat with (S n + length times)%nat by lia.
    auto.
Qed.

(** X4: when the EXPIRE that follows the first INCR of a caller fails, the
    failure is not noticed and the counter is left without expiry: whenever
    the later requests come, the Nth one is allowed exactly when N is at most
    the limit, and the window never ends. *)
Theorem failed_expire_never_reopens_window (l : ratelimit.FixedWindowLimiter)
    (userID : string) (t0 : Z) (times : list Z) (c : redis.Client) :
  redis.faults c = [false; true] ->
  redis.counters (redis.db c) !! rate_key userID = None ->
  Z.of_nat (S (length times)) <= backoff.max_int64 ->
  (allow_all l userID (t0 :: times) c).1
  = List.map (fun n => (Z.of_nat n <=? ratelimit.limit l, None)) (seq 1 (S (length times)))
  /\ redis.counters (redis.db (allow_all l userID (t0 :: times) c).2) !! rate_key userID
     = Some {| redis.count := Z.of_nat (S (length times)); redis.expiry := None |}.
Proof.
  intros Hf Hk Hmax.
  assert (Hfirst : exists c',
             ratelimit.fixed_Allow l t0 userID c = ((1 <=? ratelimit.limit l, None), c')
             /\ redis.faults c' = []
             /\ redis.counters (redis.db c') !! rate_key userID
                = Some {| redis.count := 1; redis.expiry := None |}).
  { destruct c as [st f]. cbn [redis.faults redis.db] in Hf, Hk. subst f.
    unfold ratelimit.fixed_Allow, redis.Incr, redis.next_fault.
    fold (rate_key userID). cbn [redis.faults redis.db]. rewrite Hk. cbn.
    unfold redis.Expire, redis.next_fault. cbn.
    eexists. split.
    - rewrite Z.leb_antisym. destruct (ratelimit.limit l <? 1); reflexivity.
    - split; [reflexivity | cbn; apply lookup_insert_eq]. }
  destruct Hfirst as (c' & Hcall & Hf' & Hk').
  destruct (allow_all_without_expiry l userID times c' 1 Hf' Hk') as [Hres Hend];
    [lia | lia |].
  cbn [allow_all seq List.map]. rewrite Hcall.
  destruct (allow_all l userID times c') as [rs c''] eqn:Hrest. cbn [fst snd] in *.
  rewrite Hres. auto.
Qed.

Lemma failed_expire_never_reopens_window_witness :
  (allow_all (ratelimit.NewFixedWindowLimiter 2 (60 * Second)) "u1"
     [0; 3600 * Second; 86400 * Second]
     {| redis.db := empty_store; redis.faults := [false; true] |}).1
  = [(true, None); (true, None); (false, None)].
Proof.
  exact (proj1 (failed_expire_never_reopens_window
                  (ratelimit.NewFixedWindowLimiter 2 (60 * Second)) "u1" 0
                  [3600 * Second; 86400 * Second]
                  {| redis.db := empty_store; redis.faults := [false; true] |}
                  eq_refl eq_refl ltac:(vm_compute; discriminate))).
Defined.

Lemma rate_key_inj (a b : string) : rate_key a = rate_key b -> a = b.
Proof. unfold rate_key. cbn [String.append]. intros [= H]. exact H. Qed.

Lemma Incr_other_key (now : Z) (key other : string) (c : redis.Client) :
  key <> other ->
  redis.counters (redis.db (redis.Incr now key c).2) !! other
  = redis.counters (redis.db c) !! other
  /\ redis.retry_schedule (redis.db (redis.Incr now key c).2)
     = redis.retry_schedule (redis.db c).
Proof.
  intros Hne. unfold redis.Incr, redis.next_fault.
  destruct (redis.faults c) as [|[] f]; cbn; auto;
    (destruct (_ !! key) as [k|]; [destruct (redis.live now k); [destruct (_ =? _)|]|]);
    cbn; rewrite ?lookup_insert_ne by exact Hne; auto.
Qed.

Lemma Expire_other_key (now : Z) (key other : string) (ttl : Z) (c : redis.Client) :
  key <> other ->
  redis.counters (redis.db (redis.Expire now key ttl c).2) !! other
  = redis.counters (redis.db c) !! other
  /\ redis.retry_schedule (redis.db (redis.Expire now key ttl c).2)
     = redis.retry_schedule (redis.db c).
Proof.
  intros Hne. unfold redis.Expire, redis.next_fault.
  destruct (redis.faults c) as [|[] f]; cbn; auto;
    (destruct (_ !! key) as [k|]; [destruct (redis.live now k)|]);
    cbn; rewrite ?lookup_insert_ne by exact Hne; auto.
Qed.

Lemma fixed_Allow_other_key (l : ratelimit.FixedWindowLimiter) (now : Z)
    (userID other : string) (c : redis.Client) :
  rate_key userID <> other ->
  redis.counters (redis.db (ratelimit.fixed_Allow l now userID c).2) !! other
  = redis.counters (redis.db c) !! other
  /\ redis.retry_schedule (redis.db (ratelimit.fixed_Allow l now userID c).2)
     = redis.retry_schedule (redis.db c).
Proof.
  intros Hk. unfold ratelimit.fixed_Allow. fold (rate_key userID).
  pose proof (Incr_other_key now _ _ c Hk) as HI.
  destruct (redis.Incr now (rate_key userID) c) as [[n|e] c1]; cbn [snd] in *;
    [|exact HI].
  pose proof (Expire_other_key now _ _ (ratelimit.window l) c1 Hk) as HE.
  destruct HI as [HI1 HI2]. destruct HE as [HE1 HE2].
  destruct (n =? 1); destruct (_ <? _); cbn [snd]; rewrite ?HE1, ?HE2; auto.
Qed.

Lemma fixed_Allow_schedule (l : ratelimit.FixedWindowLimiter) (now : Z) (userID : string)
    (c : redis.Client) :
  redis.retry_schedule (redis.db (ratelimit.fixed_Allow l now userID c).2)
  = redis.retry_schedule (redis.db c).
Proof.
  apply (fixed_Allow_other_key l now userID EmptyString c). discriminate.
Qed.

(** X5: a request of one caller, whether it is allowed, denied or fails,
    leaves the counter of every other caller, the broker and the retry
    schedule as they were. *)
Theorem Allow_leaves_other_callers (l : ratelimit.FixedWindowLimiter) (now : Z)
    (userID other : string) (c : redis.Client) :
  userID <> other ->
  redis.counters (redis.db (ratelimit.fixed_Allow l now userID c).2) !! rate_key other
  = redis.counters (redis.db c) !! rate_key other
  /\ redis.webhook_queue (redis.db (ratelimit.fixed_Allow l now userID c).2)
     = redis.webhook_queue (redis.db c)
  /\ redis.retry_schedule (redis.db (ratelimit.fixed_Allow l now userID c).2)
     = redis.retry_schedule (redis.db c).
Proof.
  intros Hne. split; [|split; [apply fixed_Allow_queue | apply fixed_Allow_schedule]].
  apply fixed_Allow_other_key. intros Heq. apply Hne, rate_key_inj, Heq.
Qed.

Lemma Allow_leaves_other_callers_witness :
  redis.counters
    (redis.db (ratelimit.fixed_Allow cmd_api.limiter 2 "u1" (redis.healthy empty_store)).2)
    !! rate_key "u2"
  = redis.counters empty_store !! rate_key "u2".
Proof.
  exact (proj1 (Allow_leaves_other_callers cmd_api.limiter 2 "u1" "u2"
                  (redis.healthy empty_store) ltac:(discriminate))).
Defined.

(** ** Task broker: what can and cannot be written *)

(** The year of a valid date is within [0, 9999] exactly for the days from
    0000-01-01 to 9999-12-31. *)
Lemma days_from_civil_year (y m d : Z) :
  1 <= m <= 12 -> 1 <= d <= 31 ->
  0 <= y <= 9999 <-> -719528 <= time.days_from_civil y m d < 2932897.
Proof.
  intros Hm Hd. unfold time.days_from_civil, time.doe_of_civil.
  destruct (Z.leb_spec m 2); destruct (Z.ltb_spec 2 m); try lia;
    Z.div_mod_to_equations; lia.
Qed.

Lemma daysIn_le_31 (m y : Z) : time.daysIn m y <= 31.
Proof.
  unfold time.daysIn. repeat destruct (_ =? _); cbn; try destruct (time.isLeap y); lia.
Qed.

(** An instant has no RFC 3339 text exactly when it lies before the year 0
    or after the year 9999. *)
Lemma appendStrictRFC3339_None (t : time.Time) :
  time.appendStrictRFC3339 t = None
  <-> t < -62167219200 * Second \/ 253402300800 * Second <= t.
Proof.
  unfold time.appendStrictRFC3339.
  pose proof (civil_roundtrip (t / 1000000000 / 86400)) as Hcivil.
  destruct (time.civil_from_days (t / 1000000000 / 86400)) as [[y m] d].
  destruct Hcivil as (Hm & Hd & Hdays).
  pose proof (daysIn_le_31 m y) as H31.
  pose proof (days_from_civil_year y m d Hm ltac:(lia)) as Hy.
  rewrite Hdays in Hy.
  assert (Hrange : -719528 <= t / 1000000000 / 86400 < 2932897
                   <-> -62167219200 * Second <= t < 253402300800 * Second)
    by (unfold Second; Z.div_mod_to_equations; lia).
  destruct (Z.ltb_spec y 0); destruct (Z.ltb_spec 9999 y); cbn [orb];
    (split; [intros Hnone | intros Hout]); try discriminate; try reflexivity; lia.
Qed.

Lemma Marshal_None (task : queue.Task) :
  queue.Marshal task = None <-> time.appendStrictRFC3339 (queue.CreatedAt task) = None.
Proof.
  unfold queue.Marshal, time.MarshalJSON.
  destruct (time.appendStrictRFC3339 (queue.CreatedAt task)); cbn; split; congruence.
Qed.


Lemma wire_eq (now : time.Time) (task : queue.Task) :
  wire (now, task)
  = queue.Marshal
      (if time.IsZero (queue.CreatedAt task)
       then {| queue.Payload := queue.Payload task; queue.RetryCount := queue.RetryCount task;
               queue.CreatedAt := now |}
       else task).
Proof. reflexivity. Qed.

Lemma Enqueue_wire (now : time.Time) (task : queue.Task) (c : redis.Client) (data : string) :
  wire (now, task) = Some data -> queue.Enqueue now task c = redis.LPush data c.
Proof.
  intros Hw. rewrite wire_eq in Hw. unfold queue.Enqueue. cbv zeta. rewrite Hw. reflexivity.
Qed.

Lemma Enqueue_outcome (now : time.Time) (task : queue.Task) (c : redis.Client) :
  match (queue.Enqueue now task c).1 with
  | Some _ => redis.db (queue.Enqueue now task c).2 = redis.db c
  | None =>
      exists data,
        wire (now, task) = Some data
        /\ redis.db (queue.Enqueue now task c).2
           = redis.set_queue (redis.db c) (data :: redis.webhook_queue (redis.db c))
  end.
Proof.
  destruct (wire (now, task)) as [data|] eqn:Hw.
  - rewrite (Enqueue_wire now task c data Hw). unfold redis.LPush, redis.next_fault.
    destruct (redis.faults c) as [|[] f]; cbn [fst snd redis.db redis.with_db];
      try reflexivity; exists data; split; reflexivity.
  - rewrite wire_eq in Hw. unfold queue.Enqueue. cbv zeta. rewrite Hw. reflexivity.
Qed.

(** X7: [Enqueue] either reports an error and leaves the store as it was,
    or reports none and has pushed exactly one element, the serialization of
    the task, at the head of the broker's list; this holds whether or not the
    store answers. *)
Theorem Enqueue_all_or_nothing (now : time.Time) (task : queue.Task) (c : redis.Client) :
  match (queue.Enqueue now task c).1 with
  | Some _ => redis.db (queue.Enqueue now task c).2 = redis.db c
  | None =>
      exists data,
        wire (now, task) = Some data
        /\ redis.db (queue.Enqueue now task c).2
           = redis.set_queue (redis.db c) (data :: redis.webhook_queue (redis.db c))
  end.
Proof. apply Enqueue_outcome. Qed.

(** ** Task broker: creation time *)

(** What [Enqueue] writes for a task is read back as that task, stamped
    with the time of the call when it carried the zero time, its payload
    coerced to valid UTF-8. *)
Lemma wire_Unmarshal (now : time.Time) (task : queue.Task) (data : string) :
  wire (now, task) = Some data ->
  backoff.min_int64 <= queue.RetryCount task <= backoff.max_int64 ->
  queue.Unmarshal data
  = Some {| queue.Payload := json.coerced 0 (queue.Payload task);
            queue.RetryCount := queue.RetryCount task;
            queue.CreatedAt := if time.IsZero (queue.CreatedAt task) then now
                               else queue.CreatedAt task |}.
Proof.
  intros Hwire Hn. rewrite wire_eq in Hwire.
  destruct (time.IsZero (queue.CreatedAt task));
    rewrite (Unmarshal_Marshal _ _ Hwire Hn); reflexivity.
Qed.

(** X8: a task enqueued on an idle broker and dequeued carries the creation
    time it was enqueued with, to the nanosecond, or the time of the enqueue
    when it was enqueued with the zero time. *)
Theorem enqueue_dequeue_keeps_creation_time (now : time.Time) (task : queue.Task)
    (c : redis.Client) (data : string) :
  backoff.min_int64 <= queue.RetryCount task <= backoff.max_int64 ->
  wire (now, task) = Some data ->
  redis.faults c = [] ->
  redis.webhook_queue (redis.db c) = [] ->
  exists task' c',
    queue.Dequeue false 0 (queue.Enqueue now task c).2 = (Ok task', c')
    /\ queue.CreatedAt task'
       = if time.IsZero (queue.CreatedAt task) then now else queue.CreatedAt task.
Proof.
  intros Hn Hwire Hf Hq.
  rewrite (Enqueue_healthy now task c Hf), Hwire, Hq.
  rewrite (Dequeue_single data) by (try exact Hf; reflexivity).
  unfold received. rewrite (wire_Unmarshal now task data Hwire Hn).
  eexists _, _. split; reflexivity.
Qed.

Lemma enqueue_dequeue_keeps_creation_time_witness :
  let task := {| queue.Payload := "order 42"; queue.RetryCount := 0;
                 queue.CreatedAt := time.zero |} in
  exists task' c',
    queue.Dequeue false 0
      (queue.Enqueue 1700000000123456789 task (redis.healthy empty_store)).2 = (Ok task', c')
    /\ queue.CreatedAt task' = 1700000000123456789.
Proof.
  intros task.
  exact (enqueue_dequeue_keeps_creation_time 1700000000123456789 task
           (redis.healthy empty_store) _
           ltac:(vm_compute; split; discriminate) ltac:(vm_compute; reflexivity)
           eq_refl eq_refl).
Defined.

(** ** Task broker: elements that cannot be read *)

(** X9: [Dequeue] pops the oldest element of the broker before it decodes
    it: when the store answers, the call returns a task or the unmarshal
    error, and in both cases the element has left the list, the elements
    behind it untouched; an element that cannot be decoded is lost. *)
Theorem Dequeue_pops_before_decoding (waited : Z) (q : list string) (data : string)
    (c : redis.Client) :
  redis.faults c = [] ->
  redis.webhook_queue (redis.db c) = q ++ [data] ->
  ((exists task, (queue.Dequeue false waited c).1 = Ok task)
   \/ (queue.Dequeue false waited c).1 = Fail ErrUnmarshal)
  /\ redis.webhook_queue (redis.db (queue.Dequeue false waited c).2) = q.
Proof.
  intros Hf Hq. unfold queue.Dequeue, redis.BRPop, redis.next_fault.
  rewrite Hf, Hq, last_snoc, removelast_last.
  destruct (queue.Unmarshal data) as [task|]; (split; [|reflexivity]).
  - left. exists task. reflexivity.
  - right. reflexivity.
Qed.

Lemma Dequeue_pops_before_decoding_witness :
  let c := redis.healthy (redis.set_queue empty_store ["second"; "not a task"]) in
  ((exists task, (queue.Dequeue false 0 c).1 = Ok task)
   \/ (queue.Dequeue false 0 c).1 = Fail ErrUnmarshal)
  /\ redis.webhook_queue (redis.db (queue.Dequeue false 0 c).2) = ["second"].
Proof.
  intros c.
  exact (Dequeue_pops_before_decoding 0 ["second"] "not a task" c eq_refl eq_refl).
Defined.

(** ** Worker: what a failure writes *)

(** X10: when the store does not take the ZADD of a retry, the error is
    only logged: the failed task is neither in the retry schedule nor on
    the broker afterwards, the store is as it was. *)
Theorem handleFailure_store_error_loses_task {S : Type} `{backoff.Strategy S} (strategy : S)
    (now : time.Time) (task : queue.Task) (c : redis.Client) (f : list bool) :
  redis.faults c = true :: f ->
  redis.db (worker.Process strategy now false task c) = redis.db c.
Proof.
  intros Hf. unfold worker.Process, worker.handleFailure, worker.scheduleRetry.
  destruct (5 <=? queue.RetryCount task); [reflexivity|].
  destruct (queue.Marshal _) as [data|]; [|reflexivity].
  unfold redis.ZAdd, redis.next_fault. rewrite Hf. reflexivity.
Qed.

Lemma handleFailure_store_error_loses_task_witness :
  let c := {| redis.db := empty_store; redis.faults := [true] |} in
  redis.db (worker.Process (H := backoff.exponential_strategy backoff.amd64) retryStrategy
              (1700000000 * Second) false
              {| queue.Payload := "order 42"; queue.RetryCount := 0;
                 queue.CreatedAt := 1700000000 * Second |} c)
  = empty_store.
Proof.
  intros c.
  exact (handleFailure_store_error_loses_task (H := backoff.exponential_strategy backoff.amd64)
           retryStrategy (1700000000 * Second)
           {| queue.Payload := "order 42"; queue.RetryCount := 0;
              queue.CreatedAt := 1700000000 * Second |} c [] eq_refl).
Defined.

Lemma zremove_zinsert (s : Z) (m : string) (l : list (Z * string)) :
  redis.zremove m (redis.zinsert (s, m) l) = redis.zremove m l.
Proof.
  unfold redis.zremove. induction l as [|x l IH]; cbn [redis.zinsert List.filter snd].
  - rewrite String.eqb_refl. reflexivity.
  - destruct (redis.zlt (s, m) x); cbn [List.filter snd].
    + rewrite String.eqb_refl. reflexivity.
    + rewrite IH. reflexivity.
Qed.

Lemma zremove_idem (m : string) (l : list (Z * string)) :
  redis.zremove m (redis.zremove m l) = redis.zremove m l.
Proof.
  unfold redis.zremove. induction l as [|x l IH]; cbn [List.filter]; [reflexivity|].
  destruct (negb (String.eqb x.2 m)) eqn:E; cbn [List.filter]; rewrite ?E, IH; reflexivity.
Qed.

Lemma member_zinsert_fresh (s : Z) (m : string) (l : list (Z * string)) :
  Forall (fun e => e.2 <> m) l ->
  List.filter (fun e => String.eqb e.2 m) (redis.zinsert (s, m) l) = [(s, m)].
Proof.
  assert (Hnone : forall l', Forall (fun e : Z * string => e.2 <> m) l' ->
                    List.filter (fun e : Z * string => String.eqb e.2 m) l' = []).
  { induction l' as [|x l' IH]; intros Hl'; [reflexivity|].
    apply Forall_cons in Hl' as [Hx Hl']. cbn [List.filter].
    apply String.eqb_neq in Hx. rewrite Hx. apply IH, Hl'. }
  induction l as [|x l IH]; intros Hl; cbn [redis.zinsert List.filter snd].
  - rewrite String.eqb_refl. reflexivity.
  - destruct (redis.zlt (s, m) x); cbn [List.filter snd].
    + rewrite String.eqb_refl. f_equal. exact (Hnone (x :: l) Hl).
    + apply Forall_cons in Hl as [Hx Hl]. apply String.eqb_neq in Hx.
      rewrite Hx. apply IH, Hl.
Qed.

Lemma zremove_fresh (m : string) (l : list (Z * string)) :
  Forall (fun e => e.2 <> m) (redis.zremove m l).
Proof.
  apply List.Forall_forall. intros e He. apply zremove_In in He. apply He.
Qed.

(** X11: the retry schedule holds a serialized task once: when the same
    task is scheduled a second time, its entry moves to the new score, and
    the entries of the other tasks stay as they were. *)
Theorem retry_schedule_holds_a_task_once (now1 now2 d1 d2 : Z) (task : queue.Task)
    (data : string) (c : redis.Client) :
  queue.Marshal task = Some data ->
  redis.faults c = [] ->
  let c2 := worker.scheduleRetry now2 task d2 (worker.scheduleRetry now1 task d1 c) in
  List.filter (fun e => String.eqb e.2 data) (redis.retry_schedule (redis.db c2))
  = [(time.Unix (time.Add now2 d2), data)]
  /\ redis.zremove data (redis.retry_schedule (redis.db c2))
     = redis.zremove data (redis.retry_schedule (redis.db c)).
Proof.
  intros Hdata Hf c2.
  destruct (scheduleRetry_state now1 task d1 c data Hdata Hf) as (Hf1 & _ & Hs1).
  destruct (scheduleRetry_state now2 task d2 _ data Hdata Hf1) as (_ & _ & Hs2).
  fold c2 in Hs2. rewrite Hs2, Hs1. split.
  - apply member_zinsert_fresh, zremove_fresh.
  - rewrite !zremove_zinsert, !zremove_idem. reflexivity.
Qed.

Lemma retry_schedule_holds_a_task_once_witness :
  let task := {| queue.Payload := "order 42"; queue.RetryCount := 1;
                 queue.CreatedAt := 1700000000 * Second |} in
  let c2 := worker.scheduleRetry (1700000005 * Second) task (2 * Second)
              (worker.scheduleRetry (1700000000 * Second) task Second
                 (redis.healthy empty_store)) in
  exists data,
    queue.Marshal task = Some data
    /\ List.filter (fun e => String.eqb e.2 data) (redis.retry_schedule (redis.db c2))
       = [(time.Unix (time.Add (1700000005 * Second) (2 * Second)), data)].
Proof.
  intros task c2.
  assert (Hdata : exists data, queue.Marshal task = Some data)
    by (eexists; vm_compute; reflexivity).
  destruct Hdata as [data Hdata]. exists data. split; [exact Hdata|].
  exact (proj1 (retry_schedule_holds_a_task_once (1700000000 * Second) (1700000005 * Second)
                  Second (2 * Second) task data (redis.healthy empty_store) Hdata eq_refl)).
Defined.

Lemma Process_keeps_broker {S : Type} `{backoff.Strategy S} (strategy : S)
    (now : time.Time) (success : bool) (task : queue.Task) (c : redis.Client) :
  redis.webhook_queue (redis.db (worker.Process strategy now success task c))
  = redis.webhook_queue (redis.db c)
  /\ redis.counters (redis.db (worker.Process strategy now success task c))
     = redis.counters (redis.db c).
Proof.
  unfold worker.Process, worker.handleFailure, worker.scheduleRetry.
  destruct success; [split; reflexivity|].
  destruct (5 <=? queue.RetryCount task); [split; reflexivity|].
  destruct (queue.Marshal _) as [data|]; [|split; reflexivity].
  unfold redis.ZAdd, redis.next_fault.
  destruct (redis.faults c) as [|[] f]; split; reflexivity.
Qed.

(** X12: processing a task, whether the delivery succeeds or fails, whether
    or not the store answers, writes neither to the broker's list nor to the
    rate-limit counters: a retry goes through the schedule only. *)
Theorem Process_never_writes_broker {S : Type} `{backoff.Strategy S} (strategy : S)
    (now : time.Time) (success : bool) (task : queue.Task) (c : redis.Client) :
  redis.webhook_queue (redis.db (worker.Process strategy now success task c))
  = redis.webhook_queue (redis.db c)
  /\ redis.counters (redis.db (worker.Process strategy now success task c))
     = redis.counters (redis.db c).
Proof. apply Process_keeps_broker. Qed.

(** ** Retry scheduler: what a tick moves *)

Lemma poll_tick_schedule_In (T : time.Time) (c : redis.Client) (e : Z * string) :
  redis.faults c = [] ->
  In e (redis.retry_schedule (redis.db (cmd_worker.poll_tick T c)))
  <-> In e (redis.retry_schedule (redis.db c))
      /\ ~ exists s, In (s, e.2) (redis.retry_schedule (redis.db c)) /\ s <= time.Unix T.
Proof.
  intros Hf. rewrite (poll_tick_healthy T c Hf).
  rewrite (fold_promote_schedule T _ c e Hf), due_members. reflexivity.
Qed.

Lemma poll_tick_faults (T : time.Time) (c : redis.Client) :
  redis.faults c = [] -> redis.faults (cmd_worker.poll_tick T c) = [].
Proof.
  intros Hf. rewrite (poll_tick_healthy T c Hf). apply fold_promote_faults, Hf.
Qed.

(** X13: when the store answers, a tick of the poller leaves in the
    schedule exactly the entries whose member was not due: every entry with
    a score up to the tick's second is removed, and no entry of a task that
    is not due is. *)
Theorem poll_tick_removes_the_due_entries (T : time.Time) (c : redis.Client)
    (e : Z * string) :
  redis.faults c = [] ->
  In e (redis.retry_schedule (redis.db (cmd_worker.poll_tick T c)))
  <-> In e (redis.retry_schedule (redis.db c))
      /\ ~ exists s, In (s, e.2) (redis.retry_schedule (redis.db c)) /\ s <= time.Unix T.
Proof. apply poll_tick_schedule_In. Qed.

Lemma poll_tick_removes_the_due_entries_witness :
  let c := redis.healthy (redis.set_schedule empty_store [(5, "a"); (9, "b")]) in
  ~ In (5, "a") (redis.retry_schedule (redis.db (cmd_worker.poll_tick (7 * Second) c)))
  /\ In (9, "b") (redis.retry_schedule (redis.db (cmd_worker.poll_tick (7 * Second) c))).
Proof.
  intros c. split.
  - intros Hin.
    apply (proj1 (poll_tick_removes_the_due_entries (7 * Second) c (5, "a") eq_refl)) in Hin.
    destruct Hin as [_ Hnot]. apply Hnot. exists 5. split; [left; reflexivity|].
    vm_compute. discriminate.
  - apply (proj2 (poll_tick_removes_the_due_entries (7 * Second) c (9, "b") eq_refl)).
    split; [right; left; reflexivity|].
    intros (s & [[= <-] | [[= <-] | []]] & Hle); vm_compute in Hle; apply Hle; reflexivity.
Defined.

Lemma filter_none {A : Type} (P : A -> bool) (l : list A) :
  (forall x, In x l -> P x = false) -> List.filter P l = [].
Proof.
  induction l as [|x l IH]; intros Hl; [reflexivity|].
  cbn [List.filter]. rewrite (Hl x (or_introl eq_refl)).
  apply IH. intros y Hy. apply Hl. right. exact Hy.
Qed.

(** X14: promotion is a move, not a copy: when the store answers, a second
    tick in the same second, or in an earlier one, finds nothing due and
    changes nothing. *)
Theorem poll_tick_promotes_once (T T' : time.Time) (c : redis.Client) :
  redis.faults c = [] ->
  time.Unix T' <= time.Unix T ->
  cmd_worker.poll_tick T' (cmd_worker.poll_tick T c) = cmd_worker.poll_tick T c.
Proof.
  intros Hf HT.
  rewrite (poll_tick_healthy T' _ (poll_tick_faults T c Hf)).
  rewrite filter_none; [reflexivity|].
  intros [s m] Hin. apply (poll_tick_schedule_In T c (s, m) Hf) in Hin.
  destruct Hin as [Hin Hnot]. cbn [fst snd] in *. apply Z.leb_gt.
  destruct (Z.le_gt_cases s (time.Unix T)) as [Hle|Hgt]; [|lia].
  exfalso. apply Hnot. exists s. split; assumption.
Qed.

Lemma poll_tick_promotes_once_witness :
  let c := redis.healthy (redis.set_schedule empty_store [(5, "a"); (9, "b")]) in
  cmd_worker.poll_tick (7 * Second) (cmd_worker.poll_tick (7 * Second + 1) c)
  = cmd_worker.poll_tick (7 * Second + 1) c.
Proof.
  intros c.
  exact (poll_tick_promotes_once (7 * Second + 1) (7 * Second) c eq_refl
           ltac:(vm_compute; discriminate)).
Defined.

(** ** Retry scheduler: a removal that fails *)

(** One promotion, whatever the store does with the push and with the
    removal. *)
Lemma promote_faults (now : time.Time) (c : redis.Client) (member pushed : string)
    (b1 b2 : bool) (f : list bool) :
  redis.faults c = b1 :: b2 :: f ->
  wire (now, default cmd_worker.zero_task (queue.Unmarshal member)) = Some pushed ->
  redis.faults (cmd_worker.promote now c member) = f
  /\ redis.webhook_queue (redis.db (cmd_worker.promote now c member))
     = (if b1 then redis.webhook_queue (redis.db c)
        else pushed :: redis.webhook_queue (redis.db c))
  /\ redis.retry_schedule (redis.db (cmd_worker.promote now c member))
     = (if b2 then redis.retry_schedule (redis.db c)
        else redis.zremove member (redis.retry_schedule (redis.db c))).
Proof.
  intros Hf Hw. unfold cmd_worker.promote. cbv zeta.
  rewrite (Enqueue_wire _ _ c _ Hw).
  destruct c as [[cs q z] fl]. cbn [redis.faults] in Hf. subst fl.
  unfold redis.LPush, redis.ZRem, redis.next_fault, redis.with_db, redis.set_queue,
    redis.set_schedule.
  destruct b1, b2;
    cbn [redis.db redis.faults redis.counters redis.webhook_queue redis.retry_schedule snd];
    repeat split.
Qed.

Lemma poll_tick_query (T : time.Time) (c : redis.Client) (f : list bool) :
  redis.faults c = false :: f ->
  cmd_worker.poll_tick T c
  = fold_left (cmd_worker.promote T)
      (List.map snd (List.filter (fun e => e.1 <=? time.Unix T)
                       (redis.retry_schedule (redis.db c))))
      {| redis.db := redis.db c; redis.faults := f |}.
Proof.
  intros Hf. unfold cmd_worker.poll_tick, redis.ZRangeByScore, redis.next_fault.
  rewrite Hf. reflexivity.
Qed.

Lemma Marshal_Some_inv (task : queue.Task) (data : string) :
  queue.Marshal task = Some data ->
  exists body, time.appendStrictRFC3339 (queue.CreatedAt task) = Some body.
Proof.
  intros Hdata.
  destruct (time.appendStrictRFC3339 (queue.CreatedAt task)) as [body|] eqn:Hbody;
    [exists body; reflexivity|].
  apply Marshal_None in Hbody. congruence.
Qed.

(** What the poller pushes for a member that [scheduleRetry] wrote for a
    task with a creation time: the serialization of the task read back from
    the member. *)
Lemma promoted_wire (T : time.Time) (task : queue.Task) (data : string) :
  queue.Marshal task = Some data ->
  backoff.min_int64 <= queue.RetryCount task <= backoff.max_int64 ->
  time.IsZero (queue.CreatedAt task) = false ->
  exists pushed,
    queue.Marshal {| queue.Payload := json.coerced 0 (queue.Payload task);
                     queue.RetryCount := queue.RetryCount task;
                     queue.CreatedAt := queue.CreatedAt task |} = Some pushed
    /\ wire (T, default cmd_worker.zero_task (queue.Unmarshal data)) = Some pushed.
Proof.
  intros Hdata Hn Hzero.
  destruct (Marshal_Some_inv task data Hdata) as [body Hbody].
  destruct (Marshal_some {| queue.Payload := json.coerced 0 (queue.Payload task);
                            queue.RetryCount := queue.RetryCount task;
                            queue.CreatedAt := queue.CreatedAt task |} body Hbody)
    as [pushed Hpushed].
  exists pushed. split; [exact Hpushed|].
  rewrite (Unmarshal_Marshal task data Hdata Hn). unfold default. cbn [from_option id].
  rewrite wire_eq. cbn [queue.CreatedAt queue.Payload queue.RetryCount].
  rewrite Hzero. exact Hpushed.
Qed.

(** X15: when the removal from the schedule fails after the push on the
    broker succeeded, the failure is not noticed: the task is on the broker
    and still in the schedule, and the next tick pushes it a second time. *)
Theorem failed_removal_promotes_twice (T T2 : time.Time) (task : queue.Task)
    (data : string) (s : Z) (c : redis.Client) :
  queue.Marshal task = Some data ->
  backoff.min_int64 <= queue.RetryCount task <= backoff.max_int64 ->
  time.IsZero (queue.CreatedAt task) = false ->
  redis.faults c = [false; false; true] ->
  redis.retry_schedule (redis.db c) = [(s, data)] ->
  s <= time.Unix T -> time.Unix T <= time.Unix T2 ->
  exists pushed,
    queue.Marshal {| queue.Payload := json.coerced 0 (queue.Payload task);
                     queue.RetryCount := queue.RetryCount task;
                     queue.CreatedAt := queue.CreatedAt task |} = Some pushed
    /\ redis.retry_schedule (redis.db (cmd_worker.poll_tick T c)) = [(s, data)]
    /\ redis.webhook_queue (redis.db (cmd_worker.poll_tick T c))
       = pushed :: redis.webhook_queue (redis.db c)
    /\ redis.retry_schedule (redis.db (cmd_worker.poll_tick T2 (cmd_worker.poll_tick T c)))
       = []
    /\ redis.webhook_queue (redis.db (cmd_worker.poll_tick T2 (cmd_worker.poll_tick T c)))
       = pushed :: pushed :: redis.webhook_queue (redis.db c).
Proof.
  intros Hdata Hn Hzero Hf Hs Hdue HT2.
  destruct (promoted_wire T task data Hdata Hn Hzero) as (pushed & Hpushed & Hw1).
  destruct (promoted_wire T2 task data Hdata Hn Hzero) as (pushed2 & Hpushed2 & Hw2).
  assert (pushed2 = pushed) by congruence. subst pushed2.
  exists pushed. split; [exact Hpushed|].
  assert (Hfirst : redis.faults (cmd_worker.poll_tick T c) = []
                   /\ redis.webhook_queue (redis.db (cmd_worker.poll_tick T c))
                      = pushed :: redis.webhook_queue (redis.db c)
                   /\ redis.retry_schedule (redis.db (cmd_worker.poll_tick T c))
                      = [(s, data)]).
  { rewrite (poll_tick_query T c _ Hf), Hs. cbn [List.filter fst].
    destruct (Z.leb_spec s (time.Unix T)) as [_|Hlt]; [|lia].
    cbn [List.map snd]. rewrite fold_left_cons, fold_left_nil.
    destruct (promote_faults T {| redis.db := redis.db c; redis.faults := [false; true] |}
                data pushed false true [] eq_refl Hw1) as (Hf1 & Hq1 & Hs1).
    cbn [redis.db] in Hq1, Hs1. rewrite Hs in Hs1. auto. }
  destruct Hfirst as (Hf1 & Hq1 & Hs1).
  split; [exact Hs1|]. split; [exact Hq1|].
  rewrite (poll_tick_healthy T2 _ Hf1), Hs1. cbn [List.filter fst].
  destruct (Z.leb_spec s (time.Unix T2)) as [_|Hlt]; [|lia].
  cbn [List.map snd]. rewrite fold_left_cons, fold_left_nil.
  destruct (promote_healthy T2 (cmd_worker.poll_tick T c) data Hf1) as (_ & Hs2 & Hq2).
  rewrite Hs1, zremove_single in Hs2. rewrite Hw2, Hq1 in Hq2. auto.
Qed.

Lemma failed_removal_promotes_twice_witness :
  let task := {| queue.Payload := "order 42"; queue.RetryCount := 1;
                 queue.CreatedAt := 1700000000 * Second |} in
  exists data pushed,
    queue.Marshal task = Some data
    /\ redis.webhook_queue
         (redis.db (cmd_worker.poll_tick (1700000003 * Second)
                      (cmd_worker.poll_tick (1700000002 * Second)
                         {| redis.db := redis.set_schedule empty_store [(1700000001, data)];
                            redis.faults := [false; false; true] |})))
       = [pushed; pushed].
Proof.
  intros task.
  assert (Hdata : exists data, queue.Marshal task = Some data)
    by (eexists; vm_compute; reflexivity).
  destruct Hdata as [data Hdata].
  destruct (failed_removal_promotes_twice (1700000002 * Second) (1700000003 * Second) task
              data 1700000001
              {| redis.db := redis.set_schedule empty_store [(1700000001, data)];
                 redis.faults := [false; false; true] |}
              Hdata ltac:(vm_compute; split; discriminate) ltac:(vm_compute; reflexivity)
              eq_refl eq_refl ltac:(vm_compute; discriminate) ltac:(vm_compute; discriminate))
    as (pushed & _ & _ & _ & _ & Hq).
  exists data, pushed. split; [exact Hdata | exact Hq].
Defined.

(** ** Retry scheduler: order of promotion *)

(** X16: retries that are due at the same tick are pushed on the broker in
    the order of their scores, whatever the order in which they were
    scheduled: the task with the smaller score lies nearer to the tail of
    the list, from which the consumers pop, and is delivered first. *)
Theorem due_retries_are_promoted_in_score_order (T now1 now2 dl1 dl2 : Z)
    (t1 t2 : queue.Task) (d1 d2 : string) (c : redis.Client) :
  queue.Marshal t1 = Some d1 -> queue.Marshal t2 = Some d2 -> d1 <> d2 ->
  backoff.min_int64 <= queue.RetryCount t1 <= backoff.max_int64 ->
  backoff.min_int64 <= queue.RetryCount t2 <= backoff.max_int64 ->
  time.IsZero (queue.CreatedAt t1) = false ->
  time.IsZero (queue.CreatedAt t2) = false ->
  redis.faults c = [] ->
  redis.retry_schedule (redis.db c) = [] ->
  time.Unix (time.Add now1 dl1) < time.Unix (time.Add now2 dl2) ->
  time.Unix (time.Add now2 dl2) <= time.Unix T ->
  exists p1 p2,
    queue.Marshal {| queue.Payload := json.coerced 0 (queue.Payload t1);
                     queue.RetryCount := queue.RetryCount t1;
                     queue.CreatedAt := queue.CreatedAt t1 |} = Some p1
    /\ queue.Marshal {| queue.Payload := json.coerced 0 (queue.Payload t2);
                        queue.RetryCount := queue.RetryCount t2;
                        queue.CreatedAt := queue.CreatedAt t2 |} = Some p2
    /\ redis.webhook_queue
         (redis.db (cmd_worker.poll_tick T
                      (worker.scheduleRetry now1 t1 dl1 (worker.scheduleRetry now2 t2 dl2 c))))
       = p2 :: p1 :: redis.webhook_queue (redis.db c)
    /\ redis.retry_schedule
         (redis.db (cmd_worker.poll_tick T
                      (worker.scheduleRetry now1 t1 dl1 (worker.scheduleRetry now2 t2 dl2 c))))
       = [].
Proof.
  intros Hd1 Hd2 Hne Hn1 Hn2 Hz1 Hz2 Hf Hs Hlt Hdue.
  destruct (promoted_wire T t1 d1 Hd1 Hn1 Hz1) as (p1 & Hp1 & Hw1).
  destruct (promoted_wire T t2 d2 Hd2 Hn2 Hz2) as (p2 & Hp2 & Hw2).
  exists p1, p2. split; [exact Hp1|]. split; [exact Hp2|].
  destruct (scheduleRetry_state now2 t2 dl2 c d2 Hd2 Hf) as (Hfa & Hqa & Hsa).
  rewrite Hs in Hsa. change (redis.zremove d2 []) with (@nil (Z * string)) in Hsa.
  cbn [redis.zinsert] in Hsa.
  destruct (scheduleRetry_state now1 t1 dl1 _ d1 Hd1 Hfa) as (Hfb & Hqb & Hsb).
  rewrite Hsa in Hsb. rewrite Hqa in Hqb.
  assert (Hkeep : redis.zremove d1 [(time.Unix (time.Add now2 dl2), d2)]
                  = [(time.Unix (time.Add now2 dl2), d2)]).
  { unfold redis.zremove. cbn [List.filter snd].
    apply String.eqb_neq in Hne. rewrite String.eqb_sym, Hne. reflexivity. }
  rewrite Hkeep in Hsb. cbn [redis.zinsert] in Hsb. unfold redis.zlt in Hsb.
  cbn [fst snd] in Hsb.
  destruct (Z.ltb_spec (time.Unix (time.Add now1 dl1)) (time.Unix (time.Add now2 dl2)))
    as [_|Hge]; [|lia].
  cbn [orb] in Hsb.
  set (c2 := worker.scheduleRetry now1 t1 dl1 (worker.scheduleRetry now2 t2 dl2 c)) in *.
  rewrite (poll_tick_healthy T c2 Hfb), Hsb. cbn [List.filter fst].
  destruct (Z.leb_spec (time.Unix (time.Add now1 dl1)) (time.Unix T)) as [_|Hgt]; [|lia].
  destruct (Z.leb_spec (time.Unix (time.Add now2 dl2)) (time.Unix T)) as [_|Hgt]; [|lia].
  cbn [List.map snd]. rewrite !fold_left_cons, fold_left_nil.
  destruct (promote_healthy T c2 d1 Hfb) as (Hf3 & Hs3 & Hq3).
  rewrite Hsb in Hs3. rewrite Hw1, Hqb in Hq3.
  assert (Hrm1 : redis.zremove d1 [(time.Unix (time.Add now1 dl1), d1);
                                   (time.Unix (time.Add now2 dl2), d2)]
                 = [(time.Unix (time.Add now2 dl2), d2)]).
  { unfold redis.zremove. cbn [List.filter snd].
    apply String.eqb_neq in Hne. rewrite String.eqb_refl, String.eqb_sym, Hne. reflexivity. }
  rewrite Hrm1 in Hs3.
  destruct (promote_healthy T (cmd_worker.promote T c2 d1) d2 Hf3) as (_ & Hs4 & Hq4).
  rewrite Hs3, zremove_single in Hs4. rewrite Hw2, Hq3 in Hq4. auto.
Qed.

Lemma due_retries_are_promoted_in_score_order_witness :
  let t1 := {| queue.Payload := "first"; queue.RetryCount := 1;
               queue.CreatedAt := 1700000000 * Second |} in
  let t2 := {| queue.Payload := "second"; queue.RetryCount := 3;
               queue.CreatedAt := 1700000000 * Second |} in
  exists p1 p2,
    queue.Marshal t1 = Some p1 /\ queue.Marshal t2 = Some p2
    /\ redis.webhook_queue
         (redis.db (cmd_worker.poll_tick (1700000010 * Second)
                      (worker.scheduleRetry (1700000000 * Second) t1 Second
                         (worker.scheduleRetry (1700000000 * Second) t2 (4 * Second)
                            (redis.healthy empty_store)))))
       = [p2; p1].
Proof.
  intros t1 t2.
  assert (Hd1 : exists d1, queue.Marshal t1 = Some d1) by (eexists; vm_compute; reflexivity).
  assert (Hd2 : exists d2, queue.Marshal t2 = Some d2) by (eexists; vm_compute; reflexivity).
  destruct Hd1 as [d1 Hd1]. destruct Hd2 as [d2 Hd2].
  assert (Hne : d1 <> d2).
  { intros Heq. subst d2.
    assert (Hx : queue.Marshal t1 = queue.Marshal t2) by (rewrite Hd1, Hd2; reflexivity).
    vm_compute in Hx. discriminate Hx. }
  destruct (due_retries_are_promoted_in_score_order (1700000010 * Second)
              (1700000000 * Second) (1700000000 * Second) Second (4 * Second)
              t1 t2 d1 d2 (redis.healthy empty_store) Hd1 Hd2 Hne
              ltac:(vm_compute; split; discriminate) ltac:(vm_compute; split; discriminate)
              ltac:(vm_compute; reflexivity) ltac:(vm_compute; reflexivity)
              eq_refl eq_refl ltac:(vm_compute; reflexivity) ltac:(vm_compute; discriminate))
    as (p1 & p2 & Hp1 & Hp2 & Hq & _).
  exists p1, p2.
  assert (Hc1 : json.coerced 0 (queue.Payload t1) = queue.Payload t1)
    by (vm_compute; reflexivity).
  assert (Hc2 : json.coerced 0 (queue.Payload t2) = queue.Payload t2)
    by (vm_compute; reflexivity).
  rewrite Hc1 in Hp1. rewrite Hc2 in Hp2.
  split; [exact Hp1|]. split; [exact Hp2 | exact Hq].
Defined.

(** ** Worker loop *)

Lemma Dequeue_healthy (waited : Z) (q : list string) (data : string) (c : redis.Client) :
  redis.faults c = [] ->
  redis.webhook_queue (redis.db c) = q ++ [data] ->
  queue.Dequeue false waited c
  = (received data, redis.with_db c (redis.set_queue (redis.db c) q)).
Proof.
  intros Hf Hq. unfold queue.Dequeue, redis.BRPop, redis.next_fault, received.
  rewrite Hf, Hq, last_snoc, removelast_last.
  destruct (queue.Unmarshal data); reflexivity.
Qed.

(** X17: a worker leaves its loop exactly when its context is cancelled,
    at the check before the pop or during the pop; a store error, an
    unreadable element or an empty broker never stops it.  When it stops it
    has taken nothing from the store. *)
Theorem consumer_stops_only_when_cancelled {S : Type} `{backoff.Strategy S} (strategy : S)
    (now : time.Time) (done cancelled : bool) (waited : Z) (success : bool)
    (c : redis.Client) :
  ((cmd_worker.consumer_iteration strategy now done cancelled waited success c).1
   = cmd_worker.Stopped
   <-> done = true \/ cancelled = true)
  /\ (done = true \/ cancelled = true ->
      (cmd_worker.consumer_iteration strategy now done cancelled waited success c).2 = c).
Proof.
  unfold cmd_worker.consumer_iteration, queue.Dequeue, redis.BRPop, redis.next_fault.
  destruct done; [split; [split; auto | reflexivity]|].
  destruct cancelled; [split; [split; auto | reflexivity]|].
  assert (Hno : false = true \/ false = true -> False) by (intros [|]; discriminate).
  destruct (redis.faults c) as [|[] f];
    [destruct (last _) as [data|]; [destruct (queue.Unmarshal data)|]
    | | destruct (last _) as [data|]; [destruct (queue.Unmarshal data)|]];
    cbn [fst snd]; (split; [split; [discriminate | intros Hx; destruct (Hno Hx)]
                           | intros Hx; destruct (Hno Hx)]).
Qed.

(** X18: one turn of a worker, the store answering, on a broker whose oldest
    element is a serialized task: the element leaves the broker; when the
    delivery succeeds, or fails with five retries already counted, nothing
    else is written and the task is gone; when it fails with fewer, the task
    enters the retry schedule with one more retry, at the second of
    [now] plus the interval of the count it carried. *)
Theorem worker_turn {S : Type} `{backoff.Strategy S} (strategy : S) (now : time.Time)
    (waited : Z) (success : bool) (q : list string) (task : queue.Task) (data : string)
    (c : redis.Client) :
  queue.Marshal task = Some data ->
  backoff.min_int64 <= queue.RetryCount task <= backoff.max_int64 ->
  redis.faults c = [] ->
  redis.webhook_queue (redis.db c) = q ++ [data] ->
  (cmd_worker.consumer_iteration strategy now false false waited success c).1
  = cmd_worker.Again
  /\ redis.webhook_queue
       (redis.db (cmd_worker.consumer_iteration strategy now false false waited success c).2)
     = q
  /\ (success = true \/ 5 <= queue.RetryCount task ->
      redis.retry_schedule
        (redis.db (cmd_worker.consumer_iteration strategy now false false waited success c).2)
      = redis.retry_schedule (redis.db c))
  /\ (success = false -> queue.RetryCount task < 5 ->
      forall retry,
        queue.Marshal {| queue.Payload := json.coerced 0 (queue.Payload task);
                         queue.RetryCount := queue.RetryCount task + 1;
                         queue.CreatedAt := queue.CreatedAt task |} = Some retry ->
        redis.retry_schedule
          (redis.db (cmd_worker.consumer_iteration strategy now false false waited success c).2)
        = redis.zinsert
            (time.Unix (time.Add now (backoff.GetNextInterval strategy (queue.RetryCount task))),
             retry)
            (redis.zremove retry (redis.retry_schedule (redis.db c)))).
Proof.
  intros Hdata Hn Hf Hq.
  assert (Hturn : cmd_worker.consumer_iteration strategy now false false waited success c
                  = (cmd_worker.Again,
                     worker.Process strategy now success
                       {| queue.Payload := json.coerced 0 (queue.Payload task);
                          queue.RetryCount := queue.RetryCount task;
                          queue.CreatedAt := queue.CreatedAt task |}
                       (redis.with_db c (redis.set_queue (redis.db c) q)))).
  { unfold cmd_worker.consumer_iteration.
    rewrite (Dequeue_healthy waited q data c Hf Hq). unfold received.
    rewrite (Unmarshal_Marshal task data Hdata Hn). reflexivity. }
  rewrite Hturn. cbn [fst snd].
  set (task' := {| queue.Payload := json.coerced 0 (queue.Payload task);
                   queue.RetryCount := queue.RetryCount task;
                   queue.CreatedAt := queue.CreatedAt task |}).
  set (c1 := redis.with_db c (redis.set_queue (redis.db c) q)).
  assert (Hf1 : redis.faults c1 = []) by exact Hf.
  assert (Hq1 : redis.webhook_queue (redis.db c1) = q) by reflexivity.
  assert (Hs1 : redis.retry_schedule (redis.db c1) = redis.retry_schedule (redis.db c))
    by reflexivity.
  split; [reflexivity|]. split; [|split].
  - rewrite (proj1 (Process_keeps_broker strategy now success task' c1)). exact Hq1.
  - intros [-> | Hge]; [exact Hs1|]. destruct success; [exact Hs1|].
    rewrite Process_failed, (proj1 (handleFailure_cases strategy now task' c1) Hge).
    exact Hs1.
  - intros -> Hlt retry Hretry.
    rewrite Process_failed, (proj2 (handleFailure_cases strategy now task' c1) Hlt).
    subst task'. cbn [queue.Payload queue.RetryCount queue.CreatedAt].
    destruct (scheduleRetry_state now _
                (backoff.GetNextInterval strategy (queue.RetryCount task)) c1 retry
                Hretry Hf1) as (_ & _ & Hs2).
    rewrite Hs2, Hs1. reflexivity.
Qed.

Lemma worker_turn_witness :
  let task := {| queue.Payload := "order 42"; queue.RetryCount := 5;
                 queue.CreatedAt := 1700000000 * Second |} in
  exists data,
    queue.Marshal task = Some data
    /\ redis.webhook_queue
         (redis.db (cmd_worker.consumer_iteration
                      (H := backoff.exponential_strategy backoff.amd64) retryStrategy
                      (1700000100 * Second) false false 0 false
                      (redis.healthy (redis.set_queue empty_store ([] ++ [data])))).2)
       = []
    /\ redis.retry_schedule
         (redis.db (cmd_worker.consumer_iteration
                      (H := backoff.exponential_strategy backoff.amd64) retryStrategy
                      (1700000100 * Second) false false 0 false
                      (redis.healthy (redis.set_queue empty_store ([] ++ [data])))).2)
       = [].
Proof.
  intros task.
  assert (Hdata : exists data, queue.Marshal task = Some data)
    by (eexists; vm_compute; reflexivity).
  destruct Hdata as [data Hdata]. exists data. split; [exact Hdata|].
  destruct (worker_turn (H := backoff.exponential_strategy backoff.amd64) retryStrategy
              (1700000100 * Second) 0 false [] task data
              (redis.healthy (redis.set_queue empty_store ([] ++ [data])))
              Hdata ltac:(vm_compute; split; discriminate) eq_refl eq_refl)
    as (_ & Hq & Hs & _).
  split; [exact Hq|]. apply Hs. right. vm_compute. discriminate.
Defined.

(** ** HTTP entry point: answers *)

(** X19: a request that is not a POST is answered 405, and a POST whose
    body cannot be decoded or names no caller is answered 400; in both cases
    nothing is asked of the limiter or of the store, so the request does not
    count against any caller's limit. *)
Theorem send_rejects_before_the_limiter {L : Type} `{ratelimit.Limiter L} (limiter : L)
    (now : time.Time) (r : cmd_api.Request) (c : redis.Client) :
  cmd_api.Method r <> "POST"
  \/ cmd_api.Body r = None
  \/ (exists req, cmd_api.Body r = Some req /\ cmd_api.UserID req = EmptyString) ->
  cmd_api.send limiter now r c
  = (if String.eqb (cmd_api.Method r) "POST" then cmd_api.StatusBadRequest
     else cmd_api.StatusMethodNotAllowed, c).
Proof.
  intros Hbad. unfold cmd_api.send.
  destruct (String.eqb_spec (cmd_api.Method r) "POST") as [Hpost|Hother];
    cbn [negb]; [|reflexivity].
  destruct Hbad as [Hm | [Hb | (req & Hb & Hu)]]; [contradiction | |]; rewrite Hb;
    [reflexivity|].
  rewrite Hu. reflexivity.
Qed.

Lemma send_rejects_before_the_limiter_witness :
  cmd_api.send (H := ratelimit.fixed_window_limiter) cmd_api.limiter 0
    {| cmd_api.Method := "GET";
       cmd_api.Body := Some {| cmd_api.UserID := "u1"; cmd_api.Data := "x" |} |}
    (redis.healthy empty_store)
  = (cmd_api.StatusMethodNotAllowed, redis.healthy empty_store).
Proof.
  assert (Hget : cmd_api.Method
                   {| cmd_api.Method := "GET";
                      cmd_api.Body := Some {| cmd_api.UserID := "u1"; cmd_api.Data := "x" |} |}
                 <> "POST") by discriminate.
  rewrite (send_rejects_before_the_limiter (H := ratelimit.fixed_window_limiter)
             cmd_api.limiter 0 _ (redis.healthy empty_store) (or_introl Hget)).
  reflexivity.
Defined.

(** X20: unless the handler answers 202, the broker and the retry schedule
    are as they were before the request: no task is queued behind an error
    answer or a 429, whatever the store does. *)
Theorem send_queues_only_when_accepted (l : ratelimit.FixedWindowLimiter) (now : time.Time)
    (r : cmd_api.Request) (c : redis.Client) :
  (cmd_api.send (H := ratelimit.fixed_window_limiter) l now r c).1 <> cmd_api.StatusAccepted ->
  redis.webhook_queue
    (redis.db (cmd_api.send (H := ratelimit.fixed_window_limiter) l now r c).2)
  = redis.webhook_queue (redis.db c)
  /\ redis.retry_schedule
       (redis.db (cmd_api.send (H := ratelimit.fixed_window_limiter) l now r c).2)
     = redis.retry_schedule (redis.db c).
Proof.
  unfold cmd_api.send.
  destruct (negb _); [split; reflexivity|].
  destruct (cmd_api.Body r) as [req|]; [|split; reflexivity].
  destruct (String.eqb _ _); [split; reflexivity|].
  pose proof (fixed_Allow_queue l now (cmd_api.UserID req) c) as Hq.
  pose proof (fixed_Allow_schedule l now (cmd_api.UserID req) c) as Hs.
  cbn [ratelimit.Allow ratelimit.fixed_window_limiter].
  destruct (ratelimit.fixed_Allow l now (cmd_api.UserID req) c) as [[allowed [e|]] c1];
    cbn [snd] in Hq, Hs; [destruct allowed; split; assumption|].
  destruct allowed; [|split; assumption].
  pose proof (Enqueue_outcome now
                {| queue.Payload := cmd_api.Data req; queue.RetryCount := 0;
                   queue.CreatedAt := time.zero |} c1) as He.
  destruct (queue.Enqueue now _ c1) as [[err|] c2]; cbn [fst snd] in *.
  - intros _. rewrite He. split; assumption.
  - intros Hx. contradiction Hx. reflexivity.
Qed.

Lemma send_queues_only_when_accepted_witness :
  let c := {| redis.db := empty_store; redis.faults := [true] |} in
  redis.webhook_queue
    (redis.db (cmd_api.send (H := ratelimit.fixed_window_limiter) cmd_api.limiter
                 (1700000000 * Second)
                 {| cmd_api.Method := "POST";
                    cmd_api.Body := Some {| cmd_api.UserID := "u1"; cmd_api.Data := "x" |} |}
                 c).2)
  = [].
Proof.
  intros c.
  exact (proj1 (send_queues_only_when_accepted cmd_api.limiter (1700000000 * Second)
                  {| cmd_api.Method := "POST";
                     cmd_api.Body := Some {| cmd_api.UserID := "u1"; cmd_api.Data := "x" |} |}
                  c ltac:(vm_compute; discriminate))).
Defined.

(** A POST of a caller, at an instant that can be written, once the limiter
    has answered and with the store answering: 202 when the limiter allowed
    it, 429 otherwise; the counters are as the limiter left them. *)
Lemma send_post (l : ratelimit.FixedWindowLimiter) (now : time.Time) (uid data : string)
    (c c1 : redis.Client) (allowed : bool) :
  uid <> EmptyString ->
  -62167219200 * Second <= now < 253402300800 * Second ->
  ratelimit.fixed_Allow l now uid c = ((allowed, None), c1) ->
  redis.faults c1 = [] ->
  exists c2,
    cmd_api.send (H := ratelimit.fixed_window_limiter) l now
      {| cmd_api.Method := "POST";
         cmd_api.Body := Some {| cmd_api.UserID := uid; cmd_api.Data := data |} |} c
    = (if allowed then cmd_api.StatusAccepted else cmd_api.StatusTooManyRequests, c2)
    /\ redis.faults c2 = []
    /\ redis.counters (redis.db c2) = redis.counters (redis.db c1).
Proof.
  intros Huid Hnow Hallow Hf1. unfold cmd_api.send.
  cbn [cmd_api.Method cmd_api.Body cmd_api.UserID cmd_api.Data].
  rewrite String.eqb_refl. cbn [negb].
  destruct (String.eqb_spec uid EmptyString) as [|_]; [contradiction|].
  cbn [ratelimit.Allow ratelimit.fixed_window_limiter]. rewrite Hallow.
  destruct allowed; [|exists c1; auto].
  destruct (wire (now, {| queue.Payload := data; queue.RetryCount := 0;
                          queue.CreatedAt := time.zero |})) as [pushed|] eqn:Hw.
  - rewrite (Enqueue_wire _ _ c1 pushed Hw). unfold redis.LPush, redis.next_fault.
    rewrite Hf1. eexists. split; [reflexivity|]. split; [exact Hf1 | reflexivity].
  - rewrite wire_eq in Hw. cbn [queue.CreatedAt queue.Payload queue.RetryCount] in Hw.
    change (time.IsZero time.zero) with true in Hw. cbn iota in Hw.
    apply Marshal_None, appendStrictRFC3339_None in Hw.
    cbn [queue.CreatedAt] in Hw. lia.
Qed.

Lemma send_all_in_window (l : ratelimit.FixedWindowLimiter) (uid : string) (e : Z)
    (posts : list (Z * string)) :
  uid <> EmptyString ->
  forall (c : redis.Client) (n : nat),
    window_open c (rate_key uid) (Z.of_nat n) e ->
    Forall (fun p => p.1 < e) posts ->
    Forall (fun p => -62167219200 * Second <= p.1 < 253402300800 * Second) posts ->
    (1 <= n)%nat -> Z.of_nat (n + length posts) <= backoff.max_int64 ->
    (send_all (H := ratelimit.fixed_window_limiter) l
       (List.map (fun p => (p.1, {| cmd_api.Method := "POST";
                                    cmd_api.Body := Some {| cmd_api.UserID := uid;
                                                            cmd_api.Data := p.2 |} |}))
          posts) c).1
    = List.map (fun k => if Z.of_nat k <=? ratelimit.limit l then cmd_api.StatusAccepted
                         else cmd_api.StatusTooManyRequests)
        (seq (S n) (length posts)).
Proof.
  intros Huid. induction posts as [|[t d] posts IH]; intros c n Hopen Hlive Hyears Hn Hmax;
    [reflexivity|].
  apply Forall_cons in Hlive as [Ht Hlive]. apply Forall_cons in Hyears as [Hy Hyears].
  cbn [fst snd length] in *.
  destruct (allow_in_window l t uid c (Z.of_nat n) e Hopen Ht) as (c1 & Hcall & Hopen1).
  { lia. }
  replace (Z.of_nat n + 1) with (Z.of_nat (S n)) in Hcall, Hopen1 by lia.
  destruct Hopen1 as [Hf1 Hk1].
  destruct (send_post l t uid d c c1 _ Huid Hy Hcall Hf1) as (c2 & Hsend & Hf2 & Hc2).
  cbn [List.map send_all seq fst snd]. rewrite Hsend.
  specialize (IH c2 (S n)).
  destruct (send_all (H := ratelimit.fixed_window_limiter) l _ c2) as [statuses c3]. cbn [fst] in *.
  rewrite IH; [reflexivity | | assumption | assumption | lia | lia].
  split; [exact Hf2 | rewrite Hc2; exact Hk1].
Qed.

(** X21: seen from the HTTP entry point, for a caller without a counter and
    a store that answers, the first POST at [t0] and the POSTs that follow
    before [t0 + window] are answered 202 up to the limit and 429 beyond it:
    with the installed limiter, five in a minute. *)
Theorem send_admits_limit_per_window (l : ratelimit.FixedWindowLimiter) (uid : string)
    (t0 : Z) (d0 : string) (posts : list (Z * string)) (c : redis.Client) :
  uid <> EmptyString ->
  redis.faults c = [] ->
  redis.counters (redis.db c) !! rate_key uid = None ->
  Forall (fun p => p.1 < t0 + ratelimit.window l) posts ->
  Forall (fun p => -62167219200 * Second <= p.1 < 253402300800 * Second)
    ((t0, d0) :: posts) ->
  Z.of_nat (S (length posts)) <= backoff.max_int64 ->
  (send_all (H := ratelimit.fixed_window_limiter) l
     (List.map (fun p => (p.1, {| cmd_api.Method := "POST";
                                  cmd_api.Body := Some {| cmd_api.UserID := uid;
                                                          cmd_api.Data := p.2 |} |}))
        ((t0, d0) :: posts)) c).1
  = List.map (fun k => if Z.of_nat k <=? ratelimit.limit l then cmd_api.StatusAccepted
                       else cmd_api.StatusTooManyRequests)
      (seq 1 (S (length posts))).
Proof.
  intros Huid Hf Hk Hlive Hyears Hmax.
  apply Forall_cons in Hyears as [Hy Hyears]. cbn [fst] in Hy.
  destruct (allow_first l t0 uid c Hf Hk) as (c1 & Hcall & Hopen1).
  pose proof Hopen1 as [Hf1 Hk1].
  destruct (send_post l t0 uid d0 c c1 _ Huid Hy Hcall Hf1) as (c2 & Hsend & Hf2 & Hc2).
  cbn [List.map send_all seq fst snd]. rewrite Hsend.
  pose proof (send_all_in_window l uid (t0 + ratelimit.window l) posts Huid c2 1) as Hrest.
  destruct (send_all (H := ratelimit.fixed_window_limiter) l _ c2) as [statuses c3]. cbn [fst] in *.
  rewrite Hrest; [reflexivity | | assumption | assumption | lia | lia].
  split; [exact Hf2 | rewrite Hc2; exact Hk1].
Qed.

Lemma send_admits_limit_per_window_witness :
  (send_all (H := ratelimit.fixed_window_limiter) cmd_api.limiter
     (List.map (fun p => (p.1, {| cmd_api.Method := "POST";
                                  cmd_api.Body := Some {| cmd_api.UserID := "u1";
                                                          cmd_api.Data := p.2 |} |}))
        [(1700000000 * Second, "a"); (1700000010 * Second, "b"); (1700000020 * Second, "c");
         (1700000030 * Second, "d"); (1700000040 * Second, "e"); (1700000050 * Second, "f")])
     (redis.healthy empty_store)).1
  = [202; 202; 202; 202; 202; 429].
Proof.
  exact (send_admits_limit_per_window cmd_api.limiter "u1" (1700000000 * Second) "a"
           [(1700000010 * Second, "b"); (1700000020 * Second, "c");
            (1700000030 * Second, "d"); (1700000040 * Second, "e");
            (1700000050 * Second, "f")]
           (redis.healthy empty_store)
           ltac:(discriminate) eq_refl eq_refl
           ltac:(repeat constructor) ltac:(repeat constructor; vm_compute; discriminate)
           ltac:(vm_compute; discriminate)).
Defined.

(** X22: with the no-op limiter in place of the fixed window, the handler
    never answers 429 and never touches a rate-limit counter. *)
Theorem send_without_limiter_never_limits (now : time.Time) (r : cmd_api.Request)
    (c : redis.Client) :
  (cmd_api.send (H := ratelimit.noop_limiter) ratelimit.NewNoOpLimiter now r c).1 <> cmd_api.StatusTooManyRequests
  /\ redis.counters (redis.db (cmd_api.send (H := ratelimit.noop_limiter) ratelimit.NewNoOpLimiter now r c).2)
     = redis.counters (redis.db c).
Proof.
  unfold cmd_api.send.
  destruct (negb _); [split; [discriminate | reflexivity]|].
  destruct (cmd_api.Body r) as [req|]; [|split; [discriminate | reflexivity]].
  destruct (String.eqb _ _); [split; [discriminate | reflexivity]|].
  cbn [ratelimit.Allow ratelimit.noop_limiter].
  pose proof (Enqueue_outcome now
                {| queue.Payload := cmd_api.Data req; queue.RetryCount := 0;
                   queue.CreatedAt := time.zero |} c) as He.
  destruct (queue.Enqueue now _ c) as [[err|] c2]; cbn [fst snd] in *.
  - split; [discriminate | rewrite He; reflexivity].
  - destruct He as (data & _ & ->). split; [discriminate | reflexivity].
Qed.

(** X23: a POST that the limiter has allowed and whose push on the broker
    the store does not take is answered 500, and the counter that the
    limiter incremented for it stays incremented: the failed request counts
    against the caller's limit. *)
Theorem failed_enqueue_still_counts (l : ratelimit.FixedWindowLimiter) (now : time.Time)
    (uid data : string) (c c1 : redis.Client) (f : list bool) :
  uid <> EmptyString ->
  -62167219200 * Second <= now < 253402300800 * Second ->
  ratelimit.fixed_Allow l now uid c = ((true, None), c1) ->
  redis.faults c1 = true :: f ->
  cmd_api.send (H := ratelimit.fixed_window_limiter) l now
    {| cmd_api.Method := "POST";
       cmd_api.Body := Some {| cmd_api.UserID := uid; cmd_api.Data := data |} |} c
  = (cmd_api.StatusInternalServerError, {| redis.db := redis.db c1; redis.faults := f |}).
Proof.
  intros Huid Hnow Hallow Hf1. unfold cmd_api.send.
  cbn [cmd_api.Method cmd_api.Body cmd_api.UserID cmd_api.Data].
  rewrite String.eqb_refl. cbn [negb].
  destruct (String.eqb_spec uid EmptyString) as [|_]; [contradiction|].
  cbn [ratelimit.Allow ratelimit.fixed_window_limiter]. rewrite Hallow.
  destruct (wire (now, {| queue.Payload := data; queue.RetryCount := 0;
                          queue.CreatedAt := time.zero |})) as [pushed|] eqn:Hw.
  - rewrite (Enqueue_wire _ _ c1 pushed Hw). unfold redis.LPush, redis.next_fault.
    rewrite Hf1. reflexivity.
  - rewrite wire_eq in Hw. cbn [queue.CreatedAt queue.Payload queue.RetryCount] in Hw.
    change (time.IsZero time.zero) with true in Hw. cbn iota in Hw.
    apply Marshal_None, appendStrictRFC3339_None in Hw.
    cbn [queue.CreatedAt] in Hw. lia.
Qed.

Lemma failed_enqueue_still_counts_witness :
  let c := {| redis.db := empty_store; redis.faults := [false; false; true] |} in
  exists c',
    cmd_api.send (H := ratelimit.fixed_window_limiter) cmd_api.limiter (1700000000 * Second)
      {| cmd_api.Method := "POST";
         cmd_api.Body := Some {| cmd_api.UserID := "u1"; cmd_api.Data := "x" |} |} c
    = (cmd_api.StatusInternalServerError, c')
    /\ redis.counters (redis.db c') !! rate_key "u1"
       = Some {| redis.count := 1; redis.expiry := Some (1700000060 * Second) |}.
Proof.
  intros c.
  assert (Hallow : exists c1,
             ratelimit.fixed_Allow cmd_api.limiter (1700000000 * Second) "u1" c
             = ((true, None), c1)
             /\ redis.faults c1 = [true]
             /\ redis.counters (redis.db c1) !! rate_key "u1"
                = Some {| redis.count := 1; redis.expiry := Some (1700000060 * Second) |})
    by (eexists; split; [vm_compute; reflexivity | split; vm_compute; reflexivity]).
  destruct Hallow as (c1 & Hallow & Hf1 & Hk1).
  assert (Hu : "u1" <> EmptyString) by discriminate.
  assert (Hy : -62167219200 * Second <= 1700000000 * Second < 253402300800 * Second)
    by (vm_compute; split; [discriminate | reflexivity]).
  eexists. split.
  - exact (failed_enqueue_still_counts cmd_api.limiter (1700000000 * Second) "u1" "x" c c1 []
             Hu Hy Hallow Hf1).
  - exact Hk1.
Defined.

(** ** Store connection *)

Lemma GetRedisClient_done (w : platform.World) (st : platform.Singleton) :
  platform.once st = true ->
  platform.GetRedisClient w st
  = (match platform.initErr st with
     | Some e => (None, Some e)
     | None => (platform.redisInstance st, None)
     end, st).
Proof.
  intros Hdone. unfold platform.GetRedisClient. rewrite Hdone.
  destruct (platform.initErr st); reflexivity.
Qed.

Lemma init_done (w : platform.World) (st : platform.Singleton) :
  platform.once (platform.init w st) = true.
Proof.
  unfold platform.init.
  destruct (if String.eqb _ _ then _ else _) as [db|]; [destruct (platform.ping w _)|];
    reflexivity.
Qed.

Lemma get_all_done (ws : list platform.World) (st : platform.Singleton) :
  platform.once st = true ->
  get_all ws st
  = (repeat (match platform.initErr st with
             | Some e => (None, Some e)
             | None => (platform.redisInstance st, None)
             end) (length ws), st).
Proof.
  intros Hdone. induction ws as [|w ws IH]; [reflexivity|].
  cbn [get_all length repeat]. rewrite (GetRedisClient_done w st Hdone), IH. reflexivity.
Qed.

(** X24: the connection is set up once per process: the first call decides,
    and every later call returns what the first one returned, a client or
    an error and never both or neither, whatever the environment and the
    server have become in the meantime; a failed set-up is never retried. *)
Theorem GetRedisClient_initializes_once (w : platform.World) (ws : list platform.World) :
  (get_all (w :: ws) platform.initial).1
  = repeat (platform.GetRedisClient w platform.initial).1 (S (length ws))
  /\ ((exists rdb, (platform.GetRedisClient w platform.initial).1 = (Some rdb, None))
      \/ (exists e, (platform.GetRedisClient w platform.initial).1 = (None, Some e))).
Proof.
  assert (Hfirst : platform.GetRedisClient w platform.initial
                   = (match platform.initErr (platform.init w platform.initial) with
                      | Some e => (None, Some e)
                      | None => (platform.redisInstance (platform.init w platform.initial), None)
                      end, platform.init w platform.initial)).
  { unfold platform.GetRedisClient. cbn [platform.once platform.initial].
    destruct (platform.initErr _); reflexivity. }
  split.
  - cbn [get_all]. rewrite Hfirst.
    rewrite (get_all_done ws _ (init_done w platform.initial)). reflexivity.
  - rewrite Hfirst. cbn [fst]. unfold platform.init.
    destruct (if String.eqb _ _ then _ else _) as [db|];
      [destruct (platform.ping w _)|];
      cbn [platform.initErr platform.redisInstance platform.initial]; eauto.
Qed.

(** ** Store connection: the database number *)

Lemma parseUint_from_uint_acc (u : Decimal.uint) :
  forall acc : positive,
    time.parseUint_from (Z.pos acc) (NilEmpty.string_of_uint u)
    = Some (Z.pos (Pos.of_uint_acc u acc)).
Proof.
  induction u as [|u IH|u IH|u IH|u IH|u IH|u IH|u IH|u IH|u IH|u IH]; intros acc;
    cbn [NilEmpty.string_of_uint time.parseUint_from Pos.of_uint_acc]; [reflexivity|..];
    match goal with
    | |- context [time.digit_val ?c] =>
        let v := eval vm_compute in (time.digit_val c) in change (time.digit_val c) with v
    end;
    cbn [mbind option_bind]; rewrite <- IH; f_equal; lia.
Qed.

Lemma parseUint_from_uint (u : Decimal.uint) :
  time.parseUint_from 0 (NilEmpty.string_of_uint u) = Some (Z.of_N (Pos.of_uint u)).
Proof.
  induction u as [|u IH|u IH|u IH|u IH|u IH|u IH|u IH|u IH|u IH|u IH];
    cbn [NilEmpty.string_of_uint time.parseUint_from Pos.of_uint]; [reflexivity|..];
    match goal with
    | |- context [time.digit_val ?c] =>
        let v := eval vm_compute in (time.digit_val c) in change (time.digit_val c) with v
    end;
    cbn [mbind option_bind]; [exact IH|..];
    match goal with
    | |- time.parseUint_from ?a _ = _ =>
        let v := eval vm_compute in a in change a with v
    end;
    rewrite parseUint_from_uint_acc; reflexivity.
Qed.

(** The decimal text of a positive number: not empty, and starting with a
    digit. *)
Lemma to_uint_text (p : positive) :
  exists c r,
    NilEmpty.string_of_uint (Pos.to_uint p) = String c r
    /\ Ascii.eqb c "-" = false /\ Ascii.eqb c "+" = false.
Proof.
  pose proof (Unsigned.to_uint_nonnil p) as Hnil.
  destruct (Pos.to_uint p); [contradiction | ..]; cbn [NilEmpty.string_of_uint];
    eexists _, _; repeat split.
Qed.

Lemma string_of_uint_nonnil (u : Decimal.uint) :
  u <> Decimal.Nil -> NilZero.string_of_uint u = NilEmpty.string_of_uint u.
Proof. destruct u; [contradiction | ..]; reflexivity. Qed.

(** [Atoi] reads back the decimal text of an [int]. *)
Lemma Atoi_encodeInt (n : Z) :
  backoff.min_int64 <= n <= backoff.max_int64 ->
  strconv.Atoi (json.encodeInt n) = Some n.
Proof.
  intros Hn. unfold json.encodeInt.
  destruct n as [|p|p]; cbn [Z.to_int NilZero.string_of_int]; [reflexivity | |];
    rewrite (string_of_uint_nonnil _ (Unsigned.to_uint_nonnil p));
    pose proof (parseUint_from_uint (Pos.to_uint p)) as Hparse;
    rewrite Unsigned.of_to in Hparse; cbn [Z.of_N] in Hparse;
    destruct (to_uint_text p) as (c & r & Htext & Hminus & Hplus);
    rewrite Htext in *; unfold strconv.Atoi.
  - rewrite Hminus, Hplus, Hparse. cbn [mbind option_bind].
    destruct (Z.leb_spec backoff.min_int64 (Z.pos p)); [|lia].
    destruct (Z.leb_spec (Z.pos p) backoff.max_int64); [|lia]. reflexivity.
  - rewrite Ascii.eqb_refl, Hparse. cbn [mbind option_bind].
    change (- Z.pos p) with (Z.neg p).
    destruct (Z.leb_spec backoff.min_int64 (Z.neg p)); [|lia].
    destruct (Z.leb_spec (Z.neg p) backoff.max_int64); [|lia]. reflexivity.
Qed.

Lemma encodeInt_nonempty (n : Z) : String.eqb (json.encodeInt n) EmptyString = false.
Proof.
  unfold json.encodeInt.
  destruct n as [|p|p]; cbn [Z.to_int NilZero.string_of_int]; [reflexivity | |];
    rewrite ?(string_of_uint_nonnil _ (Unsigned.to_uint_nonnil p));
    destruct (to_uint_text p) as (c & r & -> & _); reflexivity.
Qed.

(** X25: when VALKEY_DB holds the decimal text of an [int], the client is
    built for that database and for the address of VALKEY_ADDR, or
    localhost:6379 without one; it is returned when the server answers the
    PING and a connection error is returned otherwise. *)
Theorem VALKEY_DB_selects_the_database (w : platform.World) (n : Z) (addr : string) :
  backoff.min_int64 <= n <= backoff.max_int64 ->
  platform.Getenv (platform.Load w) "VALKEY_DB" = json.encodeInt n ->
  addr = (if String.eqb (platform.Getenv (platform.Load w) "VALKEY_ADDR") EmptyString
          then "localhost:6379" else platform.Getenv (platform.Load w) "VALKEY_ADDR") ->
  (platform.GetRedisClient w platform.initial).1
  = if platform.ping w {| platform.Addr := addr; platform.DB := n |}
    then (Some {| platform.Addr := addr; platform.DB := n |}, None)
    else (None, Some (platform.ErrConnect addr)).
Proof.
  intros Hn Hdb ->. unfold platform.GetRedisClient. cbn [platform.once platform.initial].
  unfold platform.init. rewrite Hdb, encodeInt_nonempty, (Atoi_encodeInt n Hn).
  destruct (platform.ping w _); reflexivity.
Qed.

Lemma VALKEY_DB_selects_the_database_witness :
  let w := {| platform.environ := {[ "VALKEY_DB" := "3" ]};
              platform.dotenv := {[ "VALKEY_DB" := "7"; "VALKEY_ADDR" := "valkey:6379" ]};
              platform.ping := fun _ => true |} in
  (platform.GetRedisClient w platform.initial).1
  = (Some {| platform.Addr := "valkey:6379"; platform.DB := 3 |}, None).
Proof.
  intros w.
  assert (Hdb : platform.Getenv (platform.Load w) "VALKEY_DB" = json.encodeInt 3)
    by (vm_compute; reflexivity).
  assert (Haddr : "valkey:6379"
                  = (if String.eqb (platform.Getenv (platform.Load w) "VALKEY_ADDR") EmptyString
                     then "localhost:6379"
                     else platform.Getenv (platform.Load w) "VALKEY_ADDR"))
    by (vm_compute; reflexivity).
  rewrite (VALKEY_DB_selects_the_database w 3 "valkey:6379"
             ltac:(vm_compute; split; discriminate) Hdb Haddr).
  reflexivity.
Defined.

Lemma parseUint_from_not_digits (s : string) :
  all_chars is_digit s = false -> forall acc, time.parseUint_from acc s = None.
Proof.
  induction s as [|c s IH]; intros Hs acc; [discriminate|].
  cbn [all_chars] in Hs. cbn [time.parseUint_from]. unfold time.digit_val.
  unfold is_digit, utf8.between in Hs.
  destruct ((48 <=? byte_val c) && (byte_val c <=? 57)); [|reflexivity].
  cbn [andb mbind option_bind] in *. apply IH, Hs.
Qed.

(** X26: when VALKEY_DB holds text that is not an optional sign followed by
    decimal digits, the set-up fails with the error of an invalid database
    number, whether or not the server could be reached: the client is not
    built and no PING decides the answer. *)
Theorem invalid_VALKEY_DB_fails_before_connecting (w : platform.World) (c : ascii)
    (r : string) :
  platform.Getenv (platform.Load w) "VALKEY_DB" = String c r ->
  all_chars is_digit r = false
  \/ (is_digit c = false /\ c <> "-"%char /\ c <> "+"%char) ->
  (platform.GetRedisClient w platform.initial).1 = (None, Some platform.ErrInvalidDB).
Proof.
  intros Hdb Hbad. unfold platform.GetRedisClient. cbn [platform.once platform.initial].
  unfold platform.init. rewrite Hdb.
  change (String.eqb (String c r) EmptyString) with false. cbn iota.
  assert (Hparse : strconv.Atoi (String c r) = None).
  { unfold strconv.Atoi.
    destruct (Ascii.eqb_spec c "-") as [->|Hminus];
      [|destruct (Ascii.eqb_spec c "+") as [->|Hplus]].
    - destruct Hbad as [Hr | (_ & Hc & _)]; [|contradiction].
      destruct r as [|c' r']; [discriminate|].
      rewrite (parseUint_from_not_digits _ Hr). reflexivity.
    - destruct Hbad as [Hr | (_ & _ & Hc)]; [|contradiction].
      destruct r as [|c' r']; [discriminate|].
      rewrite (parseUint_from_not_digits _ Hr). reflexivity.
    - rewrite parseUint_from_not_digits; [reflexivity|].
      cbn [all_chars]. destruct Hbad as [Hr | (Hc & _)].
      + rewrite Hr. apply andb_false_r.
      + rewrite Hc. reflexivity. }
  rewrite Hparse. reflexivity.
Qed.

Lemma invalid_VALKEY_DB_fails_before_connecting_witness :
  let w := {| platform.environ := {[ "VALKEY_DB" := "1_000" ]};
              platform.dotenv := ∅;
              platform.ping := fun _ => true |} in
  (platform.GetRedisClient w platform.initial).1 = (None, Some platform.ErrInvalidDB).
Proof.
  intros w.
  assert (Hdb : platform.Getenv (platform.Load w) "VALKEY_DB" = String "1" "_000")
    by (vm_compute; reflexivity).
  assert (Hbad : all_chars is_digit "_000" = false) by (vm_compute; reflexivity).
  exact (invalid_VALKEY_DB_fails_before_connecting w "1" "_000" Hdb (or_introl Hbad)).
Defined.

(** ** Store connection: defaults *)

Lemma Getenv_hidden (w : platform.World) (k : string) :
  platform.environ w !! k = Some EmptyString \/ platform.Load w !! k = None ->
  platform.Getenv (platform.Load w) k = EmptyString.
Proof.
  unfold platform.Getenv, platform.Load. intros [Henv | Hnone].
  - rewrite (lookup_union_Some_l _ _ _ _ Henv). reflexivity.
  - rewrite Hnone. reflexivity.
Qed.

(** X27: a variable that the environment sets to the empty string hides the
    value of the [.env] file and counts as unset: with VALKEY_ADDR and
    VALKEY_DB each unset or empty, the client is built for localhost:6379
    and database 0. *)
Theorem GetRedisClient_defaults (w : platform.World) :
  platform.environ w !! "VALKEY_ADDR" = Some EmptyString
  \/ platform.Load w !! "VALKEY_ADDR" = None ->
  platform.environ w !! "VALKEY_DB" = Some EmptyString
  \/ platform.Load w !! "VALKEY_DB" = None ->
  (platform.GetRedisClient w platform.initial).1
  = if platform.ping w {| platform.Addr := "localhost:6379"; platform.DB := 0 |}
    then (Some {| platform.Addr := "localhost:6379"; platform.DB := 0 |}, None)
    else (None, Some (platform.ErrConnect "localhost:6379")).
Proof.
  intros Haddr Hdb. unfold platform.GetRedisClient. cbn [platform.once platform.initial].
  unfold platform.init. rewrite (Getenv_hidden w _ Haddr), (Getenv_hidden w _ Hdb).
  cbn [String.eqb]. destruct (platform.ping w _); reflexivity.
Qed.

Lemma GetRedisClient_defaults_witness :
  let w := {| platform.environ := {[ "VALKEY_ADDR" := EmptyString ]};
              platform.dotenv := {[ "VALKEY_ADDR" := "valkey:6379" ]};
              platform.ping := fun _ => true |} in
  (platform.GetRedisClient w platform.initial).1
  = (Some {| platform.Addr := "localhost:6379"; platform.DB := 0 |}, None).
Proof.
  intros w.
  assert (Haddr : platform.environ w !! "VALKEY_ADDR" = Some EmptyString)
    by (vm_compute; reflexivity).
  assert (Hdb : platform.Load w !! "VALKEY_DB" = None) by (vm_compute; reflexivity).
  rewrite (GetRedisClient_defaults w (or_introl Haddr) (or_intror Hdb)).
  reflexivity.
Defined.

(** ** Task broker: what a consumer can rely on *)

Lemma valid_from_skip (a Y : string) :
  utf8.valid_from (String.length a) (a +:+ Y) = utf8.valid_from 0 Y.
Proof.
  induction a as [|x a IH]; [reflexivity|].
  cbn [String.length String.append utf8.valid_from]. exact IH.
Qed.

(** The bytes of one decoded rune are stepped over. *)
Lemma valid_from_chunk (r : Z) (chunk Y : string) :
  (2 <= String.length chunk)%nat ->
  utf8.DecodeRune (chunk +:+ Y) = (r, String.length chunk) ->
  utf8.valid_from 0 (chunk +:+ Y) = utf8.valid_from 0 Y.
Proof.
  intros Hlen Hdec. destruct chunk as [|c0 chunk']; [cbn in Hlen; lia|].
  cbn [String.length] in *. cbn [String.append utf8.valid_from].
  change (String c0 (chunk' +:+ Y)) with (String c0 chunk' +:+ Y). rewrite Hdec.
  replace ((r =? utf8.RuneError) && (S (String.length chunk') =? 1)%nat) with false
    by (destruct (String.length chunk'); [lia | rewrite andb_false_r; reflexivity]).
  rewrite Nat.sub_succ, Nat.sub_0_r. apply valid_from_skip.
Qed.

Lemma coerced_is_valid (s : string) :
  forall k : nat, utf8.valid_from 0 (json.coerced k s) = true.
Proof.
  induction s as [|c rest IH]; intros k; [destruct k; reflexivity|].
  destruct k as [|k]; [|apply IH].
  cbn [json.coerced].
  destruct (Z.ltb_spec (byte_val c) utf8.RuneSelf) as [Hascii|Hmulti].
  - unfold utf8.DecodeRune.
    destruct (Z.ltb_spec (byte_val c) utf8.RuneSelf) as [_|Hge]; [|lia].
    destruct (Z.eqb_spec (byte_val c) utf8.RuneError) as [He|Hne];
      [unfold utf8.RuneSelf, utf8.RuneError in *; lia|].
    cbn [andb substring String.append Nat.sub]. rewrite substring_0_0.
    cbn [String.append utf8.valid_from]. unfold utf8.DecodeRune.
    destruct (Z.ltb_spec (byte_val c) utf8.RuneSelf) as [_|Hge]; [|lia].
    destruct (Z.eqb_spec (byte_val c) utf8.RuneError) as [He|_]; [contradiction|].
    cbn [andb Nat.sub]. apply IH.
  - pose proof (DecodeRune_decoded c rest Hmulti) as Hd.
    destruct (utf8.DecodeRune (String c rest)) as [r size].
    inversion Hd as [[Hr Hsize] | r' chunk tail Hs Hlen Henc Hdec [Hr Hsize]]; clear Hd.
    + rewrite Z.eqb_refl. cbn [Nat.eqb andb].
      rewrite (valid_from_chunk utf8.RuneError (utf8.enc3 utf8.RuneError) _);
        [apply IH | cbn; lia | reflexivity].
    + destruct chunk as [|c0 chunk']; [cbn in Hlen; lia|].
      cbn [String.append] in Hs. injection Hs as Hc Hrest. subst c rest.
      cbn [String.length] in *.
      replace ((r =? utf8.RuneError) && (S (String.length chunk') =? 1)%nat) with false
        by (destruct (String.length chunk'); [lia | rewrite andb_false_r; reflexivity]).
      change (String c0 (chunk' +:+ tail)) with (String c0 chunk' +:+ tail).
      rewrite (substring_prefix (String c0 chunk') tail
               : substring 0 (S (String.length chunk')) _ = _).
      rewrite (valid_from_chunk r (String c0 chunk') _ Hlen (Hdec _)). apply IH.
Qed.

(** X28: whatever bytes the payload of a task holds when it is enqueued,
    the payload of the task that a consumer receives is valid UTF-8. *)
Theorem dequeued_payload_is_valid_utf8 (now : time.Time) (task : queue.Task)
    (c : redis.Client) (data : string) :
  backoff.min_int64 <= queue.RetryCount task <= backoff.max_int64 ->
  wire (now, task) = Some data ->
  redis.faults c = [] ->
  redis.webhook_queue (redis.db c) = [] ->
  exists task' c',
    queue.Dequeue false 0 (queue.Enqueue now task c).2 = (Ok task', c')
    /\ utf8.ValidString (queue.Payload task') = true.
Proof.
  intros Hn Hwire Hf Hq.
  rewrite (Enqueue_healthy now task c Hf), Hwire, Hq.
  rewrite (Dequeue_single data) by (try exact Hf; reflexivity).
  unfold received. rewrite (wire_Unmarshal now task data Hwire Hn).
  eexists _, _. split; [reflexivity|]. apply coerced_is_valid.
Qed.

Lemma dequeued_payload_is_valid_utf8_witness :
  let task := {| queue.Payload := String (chr 0xFF) "x"; queue.RetryCount := 0;
                 queue.CreatedAt := 1700000000 * Second |} in
  exists task' c',
    queue.Dequeue false 0 (queue.Enqueue (1700000000 * Second) task
                             (redis.healthy empty_store)).2 = (Ok task', c')
    /\ utf8.ValidString (queue.Payload task') = true.
Proof.
  intros task.
  assert (Hdata : exists data, wire (1700000000 * Second, task) = Some data)
    by (eexists; vm_compute; reflexivity).
  destruct Hdata as [data Hdata].
  assert (Hn : backoff.min_int64 <= queue.RetryCount task <= backoff.max_int64)
    by (vm_compute; split; discriminate).
  exact (dequeued_payload_is_valid_utf8 (1700000000 * Second) task
           (redis.healthy empty_store) data Hn Hdata eq_refl eq_refl).
Defined.
